(** * OpenMandate: the mandate engine, embedded and verified

    A shallow embedding of the policy ("mandate") engine of OpenMandate:
    the tool filter ([src/mandate/tool-filter.ts]), the composer
    ([src/mandate/composer.ts]), the enforcement processors
    ([src/mandate/processors/*.processor.ts]), the consistency validator
    ([src/mandate/validator.ts]), the skill pack registry
    ([src/skills/registry.ts]) and the steps of the agent factory
    ([src/mastra/agents/factory.ts]) that resolve an agent's tools.

    Conventions of the embedding.
    - A JavaScript string is a [string] of the Standard Library.  On ASCII
      text [String.length] is JavaScript's [.length] and positions agree;
      [toLowerCase] is modelled on the letters A-Z.  Theorems whose
      statement depends on a length, a position, a case mapping or the
      white-space class of a text assume that text ASCII ([JS.isAscii]).
    - [new RegExp(src, "i")] on a source computed from the policy is a
      parameter: the engine either rejects the source (a SyntaxError) or
      gives the [test] of the pattern.
    - JavaScript integers (the [z.number().int()] fields of the schema, clock
      readings in milliseconds) are [Z].
    - A [Record<string, T>] used as a dictionary is a [gmap string T]; a
      [Set] that is only probed with [has] is a [gset]; a [Map] whose
      iteration order is observed is an association list with [Map.set]
      written out.
    - The [abort] callback of a processor is a parameter of the hook, as in
      the source.  Two hosts are modelled: one whose [abort] throws (the
      agent runtime) and one whose [abort] records the call and returns (the
      test harness). *)

From Stdlib Require Import ZArith String Ascii List Bool Lia DecimalString.
From stdpp Require Import base option list gmap strings.

Local Open Scope string_scope.
Local Open Scope Z_scope.

(** ** JavaScript string and array primitives used by the sources *)
Module JS.

(** [s.startsWith(p)] *)
Definition startsWith (s p : string) : bool := String.prefix p s.

(** [s.includes(sub)] *)
Fixpoint includes (s sub : string) : bool :=
  String.prefix sub s ||
  match s with
  | EmptyString => false
  | String _ s' => includes s' sub
  end.

Fixpoint drop (n : nat) (s : string) : string :=
  match n, s with
  | O, _ => s
  | S n', String _ s' => drop n' s'
  | S _, EmptyString => EmptyString
  end.

Fixpoint take (n : nat) (s : string) : string :=
  match n, s with
  | S n', String c s' => String c (take n' s')
  | _, _ => EmptyString
  end.

(** [s.substring(0, n)]: a negative [n] is clamped to 0, one beyond the
    length to the length. *)
Definition substring0 (s : string) (n : Z) : string := take (Z.to_nat n) s.

(** [s.substring(i)] *)
Definition substringFrom (s : string) (i : Z) : string := drop (Z.to_nat i) s.

(** [s.replace(pat, rep)] with a string pattern: the first occurrence
    only.  The sources call it with the empty replacement, where the
    dollar patterns of the replacement string play no part. *)
Fixpoint replace (s pat rep : string) : string :=
  if String.prefix pat s then rep ++ drop (String.length pat) s
  else match s with
       | EmptyString => EmptyString
       | String c s' => String c (replace s' pat rep)
       end.

Definition mapChars (f : ascii -> ascii) (s : string) : string :=
  string_of_list_ascii (List.map f (list_ascii_of_string s)).

(** [s.replace(/_/g, " ")] *)
Definition underscoresToSpaces (s : string) : string :=
  mapChars (fun c => if Ascii.eqb c "_" then " "%char else c) s.

Definition isUpper (c : ascii) : bool :=
  let n := nat_of_ascii c in (65 <=? n)%nat && (n <=? 90)%nat.

Definition lowerChar (c : ascii) : ascii :=
  if isUpper c then ascii_of_nat (nat_of_ascii c + 32) else c.

(** [s.toLowerCase()] *)
Definition toLowerCase (s : string) : string := mapChars lowerChar s.

(** [s.lastIndexOf(".")], [-1] when there is no dot. *)
Fixpoint lastIndexOfFrom (c : ascii) (s : string) (i : Z) (found : Z) : Z :=
  match s with
  | EmptyString => found
  | String d s' => lastIndexOfFrom c s' (i + 1) (if Ascii.eqb d c then i else found)
  end.

Definition lastIndexOf (s : string) (c : ascii) : Z := lastIndexOfFrom c s 0 (-1).

(** [xs.join(sep)] *)
Definition join (sep : string) (xs : list string) : string := String.concat sep xs.

(** [[...new Set(xs)]]: the distinct elements in order of first
    occurrence. *)
Fixpoint uniqFrom (seen : list string) (xs : list string) : list string :=
  match xs with
  | [] => []
  | x :: xs' =>
      if bool_decide (x ∈ seen) then uniqFrom seen xs'
      else x :: uniqFrom (x :: seen) xs'
  end.

Definition uniq (xs : list string) : list string := uniqFrom [] xs.

(** [`${n}`] for an integer [n]. *)
Definition showZ (n : Z) : string := NilZero.string_of_int (Z.to_int n).

Definition length (s : string) : Z := Z.of_nat (String.length s).


(** [String(({})[name])] for the names every object inherits from
    [Object.prototype]: reading such a name on a record that does not
    define it gives a built-in function, or the prototype itself for
    [__proto__], and this is the text it is converted to where a string
    is expected. *)
Definition inheritedText (name : string) : option string :=
  if String.eqb name "constructor" then Some "function Object() { [native code] }"
  else if String.eqb name "__proto__" then Some "[object Object]"
  else if existsb (String.eqb name)
            [ "hasOwnProperty"; "isPrototypeOf"; "propertyIsEnumerable"; "toLocaleString";
              "toString"; "valueOf"; "__defineGetter__"; "__defineSetter__";
              "__lookupGetter__"; "__lookupSetter__" ]
  then Some ("function " ++ name ++ "() { [native code] }")
  else None.

End JS.

(** ** The mandate schema ([src/mandate/schema.ts]) *)

Inductive Permission := read | write.

Module DataAccessRule.
Record t := mk {
  scope : string;
  permissions : list Permission;
  file_types : option (list string);
  databases : option (list string);
}.
End DataAccessRule.

Inductive DisclaimerTrigger :=
  always | on_document_generation | on_legal_claim | on_claim | custom.
Inductive Placement := at_start | at_end | at_both.

Module DisclaimerRule.
Record t := mk {
  trigger : DisclaimerTrigger;
  text : string;
  placement : Placement;
  custom_pattern : option string;
}.
End DisclaimerRule.

Inductive CitationFormat := inline | footnote | end_format.

Module CitationRequirements.
Record t := mk {
  required : bool;
  format : CitationFormat;
  min_per_claim : Z;
  allowed_sources : list string;
  blocked_sources : list string;
}.
End CitationRequirements.

Module HumanReviewConfig.
Record t := mk {
  required_before : list string;
  review_prompt : string;
}.
End HumanReviewConfig.

Inductive LogLevel := full | actions_only | errors_only.

Module AuditConfig.
Record t := mk {
  log_level : LogLevel;
  include_llm_calls : bool;
  include_tool_calls : bool;
  retention_days : Z;
}.
End AuditConfig.

Inductive EscalationAction :=
  warn_user | refuse_and_redirect | provide_resources | disclose_and_defer | refuse.

Module EscalationTrigger.
Record t := mk {
  condition : string;
  threshold : option Z;
  topics : option (list string);
  action : EscalationAction;
  message : string;
  resources : option (list string);
}.
End EscalationTrigger.

Inductive UnsupportedBehavior := escalate | refuse_scope | warn_and_attempt.

Module ScopeConfig.
Record t := mk {
  allowed : list string;
  behavior_on_unsupported : UnsupportedBehavior;
  escalation_message : string;
}.
End ScopeConfig.

Module MandateLimits.
Record t := mk {
  max_tokens_per_turn : Z;
  max_tool_calls_per_turn : Z;
  max_turns_per_session : Z;
  max_concurrent_sessions : Z;
  token_budget_daily : Z;
  timeout_seconds : Z;
}.
End MandateLimits.

Module Metadata.
Record t := mk {
  name : string;
  description : string;
  author : string;
  created : string;
  tags : list string;
  skill_packs : option (list string);
}.
End Metadata.

Module Capabilities.
Record t := mk {
  tools : list string;
  data_access : list DataAccessRule.t;
  output_types : list string;
}.
End Capabilities.

Module Prohibitions.
Record t := mk {
  tools : list string;
  actions : list string;
  data : list string;
}.
End Prohibitions.

Module Requirements.
Record t := mk {
  disclaimers : list DisclaimerRule.t;
  citations : CitationRequirements.t;
  human_review : HumanReviewConfig.t;
  audit : AuditConfig.t;
}.
End Requirements.

Module Escalation.
Record t := mk { triggers : list EscalationTrigger.t }.
End Escalation.

Record Mandate := mkMandate {
  version : string;
  metadata : Metadata.t;
  capabilities : Capabilities.t;
  prohibitions : Prohibitions.t;
  requirements : Requirements.t;
  scope : ScopeConfig.t;
  escalation : Escalation.t;
  limits : MandateLimits.t;
}.

(** The bounds the schema puts on the limits ([.int().min(1)]). *)
Definition limitsInSchema (l : MandateLimits.t) : Prop :=
  1 <= MandateLimits.max_tokens_per_turn l /\
  1 <= MandateLimits.max_tool_calls_per_turn l /\
  1 <= MandateLimits.max_turns_per_session l /\
  1 <= MandateLimits.max_concurrent_sessions l /\
  1 <= MandateLimits.token_budget_daily l /\
  1 <= MandateLimits.timeout_seconds l.

(** ** Tool filter ([src/mandate/tool-filter.ts]) *)

(** A tool as the filter sees it: an optional [id]; the rest is opaque. *)
Record Tool := mkTool {
  id : option string;
  name : string;
}.

(** [tool.id || key]: an absent or empty [id] falls back to the key. *)
Definition toolId (key : string) (tool : Tool) : string :=
  match id tool with
  | Some i => if String.eqb i "" then key else i
  | None => key
  end.

(** [mandate.prohibitions.tools.filter(t => !t.includes("*"))] *)
Definition prohibitedExactOf (mandate : Mandate) : list string :=
  List.filter (fun t => negb (JS.includes t "*")) (Prohibitions.tools (prohibitions mandate)).

(** [t.replace("-*", "").replace("*", "")] *)
Definition stripWildcard (t : string) : string :=
  JS.replace (JS.replace t "-*" "") "*" "".

Definition prohibitedPrefixesOf (mandate : Mandate) : list string :=
  List.map stripWildcard
    (List.filter (fun t => JS.includes t "*") (Prohibitions.tools (prohibitions mandate))).

(** The three tests of the loop body, on the tool's identifier. *)
Definition toolPasses (mandate : Mandate) (toolId : string) : bool :=
  let allowedIds : gset string := list_to_set (Capabilities.tools (capabilities mandate)) in
  let prohibitedExact : gset string := list_to_set (prohibitedExactOf mandate) in
  let prohibitedPrefixes := prohibitedPrefixesOf mandate in
  bool_decide (toolId ∈ allowedIds)
  && negb (bool_decide (toolId ∈ prohibitedExact))
  && negb (existsb (fun prefix => JS.startsWith toolId prefix) prohibitedPrefixes).

Definition filterToolsByMandate (allTools : gmap string Tool) (mandate : Mandate)
  : gmap string Tool :=
  filter (fun entry => Is_true (toolPasses mandate (toolId entry.1 entry.2))) allTools.

(** A tool identifier is offered by a tool record when some entry carries
    it. *)
Definition offers (tools : gmap string Tool) (i : string) : Prop :=
  exists key tool, tools !! key = Some tool /\ toolId key tool = i.

(** ** Composer ([src/mandate/composer.ts]) *)

(** How a call completes: with a value, or by throwing. *)
Inductive Completion (A : Type) :=
| Return (a : A)
| Throw (msg : string).
Arguments Return {A} a.
Arguments Throw {A} msg.

(** [Math.min(...xs)] and [Math.max(...xs)] on the values of a non-empty
    array, given as its head and tail. *)
Definition Math_min (x : Z) (xs : list Z) : Z := fold_left Z.min xs x.
Definition Math_max (x : Z) (xs : list Z) : Z := fold_left Z.max xs x.

(** [xs.flatMap(f)] *)
Definition flatMap {A B} (f : A -> list B) (xs : list A) : list B :=
  concat (List.map f xs).

(** [[...toolSets[0]].filter(tool => toolSets.every(set => set.has(tool)))] *)
Definition intersectSets (first : list string) (all : list (list string)) : list string :=
  let sets : list (gset string) := List.map list_to_set all in
  List.filter (fun x => forallb (fun set => bool_decide (x ∈ set)) sets) (JS.uniq first).

(** The disclaimer filter with its [seenDisclaimers] set. *)
Fixpoint dedupDisclaimers (seen : gset string) (ds : list DisclaimerRule.t)
  : list DisclaimerRule.t :=
  match ds with
  | [] => []
  | d :: ds' =>
      if bool_decide (DisclaimerRule.text d ∈ seen) then dedupDisclaimers seen ds'
      else d :: dedupDisclaimers ({[DisclaimerRule.text d]} ∪ seen) ds'
  end.

Definition limitOf (f : MandateLimits.t -> Z) (m : Mandate) : Z := f (limits m).
Definition nameOf (m : Mandate) : string := Metadata.name (metadata m).
Definition toolsOf (m : Mandate) : list string := Capabilities.tools (capabilities m).
Definition scopesOf (m : Mandate) : list string := ScopeConfig.allowed (scope m).
Definition retentionOf (m : Mandate) : Z :=
  AuditConfig.retention_days (Requirements.audit (requirements m)).

(** The object literal returned for two or more mandates; [base] is
    [mandates[0]], [rest] the others, and [today] is
    [new Date().toISOString().split("T")[0]]. *)
Definition composeFields (today : string) (base : Mandate) (rest : list Mandate) : Mandate :=
  let mandates := base :: rest in
  let intersectedTools := intersectSets (toolsOf base) (List.map toolsOf mandates) in
  let allProhibitedTools :=
    JS.uniq (flatMap (fun m => Prohibitions.tools (prohibitions m)) mandates) in
  let allProhibitedActions :=
    JS.uniq (flatMap (fun m => Prohibitions.actions (prohibitions m)) mandates) in
  let allProhibitedData :=
    JS.uniq (flatMap (fun m => Prohibitions.data (prohibitions m)) mandates) in
  let intersectedScopes := intersectSets (scopesOf base) (List.map scopesOf mandates) in
  let lim f := Math_min (limitOf f base) (List.map (limitOf f) rest) in
  let composedLimits :=
    {| MandateLimits.max_tokens_per_turn := lim MandateLimits.max_tokens_per_turn;
       MandateLimits.max_tool_calls_per_turn := lim MandateLimits.max_tool_calls_per_turn;
       MandateLimits.max_turns_per_session := lim MandateLimits.max_turns_per_session;
       MandateLimits.max_concurrent_sessions := lim MandateLimits.max_concurrent_sessions;
       MandateLimits.token_budget_daily := lim MandateLimits.token_budget_daily;
       MandateLimits.timeout_seconds := lim MandateLimits.timeout_seconds |} in
  let allDisclaimers :=
    dedupDisclaimers ∅ (flatMap (fun m => Requirements.disclaimers (requirements m)) mandates) in
  let allTriggers := flatMap (fun m => Escalation.triggers (escalation m)) mandates in
  {| version := version base;
     metadata :=
       {| Metadata.name := "composed-" ++ JS.join "-" (List.map nameOf mandates);
          Metadata.description :=
            "Composed mandate from: " ++ JS.join ", " (List.map nameOf mandates);
          Metadata.author := "system";
          Metadata.created := today;
          Metadata.tags := JS.uniq (flatMap (fun m => Metadata.tags (metadata m)) mandates);
          Metadata.skill_packs :=
            Some (JS.uniq (flatMap (fun m => default [] (Metadata.skill_packs (metadata m)))
                                   mandates)) |};
     capabilities :=
       {| Capabilities.tools := intersectedTools;
          Capabilities.data_access := Capabilities.data_access (capabilities base);
          Capabilities.output_types :=
            JS.uniq (flatMap (fun m => Capabilities.output_types (capabilities m)) mandates) |};
     prohibitions :=
       {| Prohibitions.tools := allProhibitedTools;
          Prohibitions.actions := allProhibitedActions;
          Prohibitions.data := allProhibitedData |};
     requirements :=
       {| Requirements.disclaimers := allDisclaimers;
          Requirements.citations := Requirements.citations (requirements base);
          Requirements.human_review := Requirements.human_review (requirements base);
          Requirements.audit :=
            {| AuditConfig.log_level := full;
               AuditConfig.include_llm_calls := true;
               AuditConfig.include_tool_calls := true;
               AuditConfig.retention_days :=
                 Math_max (retentionOf base) (List.map retentionOf rest) |} |};
     scope :=
       {| ScopeConfig.allowed := intersectedScopes;
          ScopeConfig.behavior_on_unsupported := escalate;
          ScopeConfig.escalation_message := ScopeConfig.escalation_message (scope base) |};
     escalation := {| Escalation.triggers := allTriggers |};
     limits := composedLimits |}.

(** Mandates are objects: the heap is the list of allocated mandate
    objects, a reference is a position in it, and an object literal
    allocates at the end.  [composeMandates] receives an array of
    references and returns a reference together with the heap it leaves.
    A reference to nothing stands for an array element that is not a
    mandate; reading a field of it throws a [TypeError]. *)
Definition alloc (heap : list Mandate) (m : Mandate) : nat * list Mandate :=
  (List.length heap, (heap ++ [m])%list).

Definition composeMandates (today : string) (heap : list Mandate) (mandates : list nat)
  : Completion (nat * list Mandate) :=
  match mandates with
  | [] => Throw "Cannot compose zero mandates"
  | [only] => Return (only, heap)
  | _ =>
      match mapM (fun r => heap !! r) mandates with
      | Some (base :: rest) => Return (alloc heap (composeFields today base rest))
      | _ => Throw "TypeError"
      end
  end.

(** The objects an array of references denotes. *)
Definition deref (heap : list Mandate) (refs : list nat) : option (list Mandate) :=
  mapM (fun r => heap !! r) refs.

(** [v] is the minimum of the values [xs]. *)
Definition isMinimumOf (v : Z) (xs : list Z) : Prop :=
  v ∈ xs /\ forall x, x ∈ xs -> v <= x.

(** Two mandates that differ at most in their data-access rules, citation
    requirements and human-review configuration. *)
Definition sameApartFromBaseOnly (m m' : Mandate) : Prop :=
  version m = version m' /\ metadata m = metadata m'
  /\ Capabilities.tools (capabilities m) = Capabilities.tools (capabilities m')
  /\ Capabilities.output_types (capabilities m) = Capabilities.output_types (capabilities m')
  /\ prohibitions m = prohibitions m'
  /\ Requirements.disclaimers (requirements m) = Requirements.disclaimers (requirements m')
  /\ Requirements.audit (requirements m) = Requirements.audit (requirements m')
  /\ scope m = scope m' /\ escalation m = escalation m' /\ limits m = limits m'.

(** ** JSON values and [JSON.stringify]

    Tool-call arguments and structured message contents are "arbitrarily
    nested structures of primitives".  Numbers are the integers. *)
Module Json.

#[local] Set Warnings "-register-all".
Inductive t :=
| Null
| Bool (b : bool)
| Num (n : Z)
| Str (s : string)
| Arr (items : list t)
| Obj (fields : list (string * t)).

Definition doubleQuote : ascii := "034"%char.
Definition backslash : ascii := "092"%char.

Definition hexDigit (n : nat) : ascii :=
  if (n <? 10)%nat then ascii_of_nat (48 + n) else ascii_of_nat (87 + n).

(** The escape of one character inside a JSON string. *)
Definition escape (c : ascii) : string :=
  let n := nat_of_ascii c in
  if Ascii.eqb c doubleQuote then String backslash (String doubleQuote "")
  else if Ascii.eqb c backslash then String backslash (String backslash "")
  else if (n =? 8)%nat then String backslash "b"
  else if (n =? 9)%nat then String backslash "t"
  else if (n =? 10)%nat then String backslash "n"
  else if (n =? 12)%nat then String backslash "f"
  else if (n =? 13)%nat then String backslash "r"
  else if (n <? 32)%nat then
    String backslash ("u00" ++ String (hexDigit (n / 16)) (String (hexDigit (n mod 16)) ""))
  else String c "".

Fixpoint escapeAll (s : string) : string :=
  match s with
  | EmptyString => EmptyString
  | String c s' => escape c ++ escapeAll s'
  end.

Definition quote (s : string) : string :=
  String doubleQuote (escapeAll s ++ String doubleQuote "").

(** [JSON.stringify(v)] *)
Fixpoint stringify (v : t) : string :=
  match v with
  | Null => "null"
  | Bool true => "true"
  | Bool false => "false"
  | Num n => JS.showZ n
  | Str s => quote s
  | Arr items => "[" ++ JS.join "," (List.map stringify items) ++ "]"
  | Obj fields =>
      "{" ++ JS.join "," (List.map (fun '(k, x) => quote k ++ ":" ++ stringify x) fields)
          ++ "}"
  end.

(** JavaScript truthiness of a value. *)
Definition truthy (v : t) : bool :=
  match v with
  | Null | Bool false | Num 0 | Str EmptyString => false
  | _ => true
  end.

End Json.

(** ** Regular expressions

    The literals of the sources are written as terms of [RegExp.t];
    [RegExp.test] decides whether some substring matches, which is what
    [pattern.test(text)] returns for a pattern without the [g] flag. *)
Module RegExp.

Inductive t :=
| Empty
| Class (p : ascii -> bool)
| Seq (r1 r2 : t)
| Alt (r1 r2 : t)
| Star (r : t)
| WordBoundary
| Start
| End.

Definition inRange (lo hi : nat) (c : ascii) : bool :=
  let n := nat_of_ascii c in (lo <=? n)%nat && (n <=? hi)%nat.

Definition isDigit : ascii -> bool := inRange 48 57.
Definition isLower : ascii -> bool := inRange 97 122.
Definition isUpper : ascii -> bool := inRange 65 90.
Definition isLetter (c : ascii) : bool := isLower c || isUpper c.
(** [\w] *)
Definition isWord (c : ascii) : bool := isLetter c || isDigit c || Ascii.eqb c "_".
(** [\s] on ASCII: tab, line feed, vertical tab, form feed, carriage
    return, space. *)
Definition isSpace (c : ascii) : bool := inRange 9 13 c || Ascii.eqb c " ".

Definition upperChar (c : ascii) : ascii :=
  if isLower c then ascii_of_nat (nat_of_ascii c - 32) else c.

(** A class under the [i] flag accepts a character whose other case it
    accepts. *)
Definition accepts (ignoreCase : bool) (p : ascii -> bool) (c : ascii) : bool :=
  if ignoreCase then p c || p (JS.lowerChar c) || p (upperChar c) else p c.

Definition chr (c : ascii) : t := Class (Ascii.eqb c).
Definition digit : t := Class isDigit.
Definition space : t := Class isSpace.
Definition plus (r : t) : t := Seq r (Star r).
Definition opt (r : t) : t := Alt r Empty.

(** The characters of [s] in sequence. *)
Fixpoint lit (s : string) : t :=
  match s with
  | EmptyString => Empty
  | String c s' => Seq (chr c) (lit s')
  end.

Fixpoint alts (rs : list t) : t :=
  match rs with
  | [] => Class (fun _ => false)
  | [r] => r
  | r :: rs' => Alt r (alts rs')
  end.

Definition isWordBefore (prev : option ascii) : bool :=
  match prev with Some c => isWord c | None => false end.
Definition isWordAhead (s : string) : bool :=
  match s with String c _ => isWord c | EmptyString => false end.

(** The iterations of a star, at most [n] of them, greedy: one more match
    of the body ([step], given what must follow it) is tried before the
    continuation [k]. *)
Fixpoint starLoop (step : (option ascii -> string -> bool) -> option ascii -> string -> bool)
    (k : option ascii -> string -> bool) (n : nat) (prev : option ascii) (s : string) : bool :=
  match n with
  | O => k prev s
  | S n' => if step (starLoop step k n') prev s then true else k prev s
  end.

(** Backtracking matcher in continuation style: [matchAt i r fuel prev s k]
    holds when [r] matches a prefix of [s] (whose preceding character is
    [prev]) and [k] accepts what follows.  [fuel] bounds the iterations
    of a star. *)
Fixpoint matchAt (ignoreCase : bool) (r : t) (fuel : nat) (prev : option ascii) (s : string)
    (k : option ascii -> string -> bool) {struct r} : bool :=
  match r with
  | Empty => k prev s
  | Class p =>
      match s with
      | String c s' => if accepts ignoreCase p c then k (Some c) s' else false
      | EmptyString => false
      end
  | Seq r1 r2 =>
      matchAt ignoreCase r1 fuel prev s
        (fun prev' s' => matchAt ignoreCase r2 fuel prev' s' k)
  | Alt r1 r2 =>
      if matchAt ignoreCase r1 fuel prev s k then true
      else matchAt ignoreCase r2 fuel prev s k
  | Star r1 =>
      starLoop (fun k' prev' s' => matchAt ignoreCase r1 fuel prev' s' k') k fuel prev s
  | WordBoundary =>
      if xorb (isWordBefore prev) (isWordAhead s) then k prev s else false
  | Start => match prev with None => k prev s | Some _ => false end
  | End => match s with EmptyString => k prev s | String _ _ => false end
  end.

Definition matchesHere (ignoreCase : bool) (r : t) (prev : option ascii) (s : string) : bool :=
  matchAt ignoreCase r (S (String.length s)) prev s (fun _ _ => true).

Fixpoint searchFrom (ignoreCase : bool) (r : t) (prev : option ascii) (s : string) : bool :=
  if matchesHere ignoreCase r prev s then true
  else match s with
       | EmptyString => false
       | String c s' => searchFrom ignoreCase r (Some c) s'
       end.

(** A compiled pattern: its term and its [i] flag. *)
Record pattern := mk { body : t; ignoreCase : bool }.

(** [pattern.test(text)] *)
Definition test (p : pattern) (text : string) : bool :=
  searchFrom (ignoreCase p) (body p) None text.

(** [/.../] and [/.../i] *)
Definition re (r : t) : pattern := mk r false.
Definition re_i (r : t) : pattern := mk r true.

End RegExp.

(** ** Processor hooks

    A hook runs against the state it may touch and ends either by
    returning or because [abort] threw; the calls it made to [abort] are
    collected in order. *)
Record AbortCall := mkAbort { reason : string; retry : bool }.

(** How the body of a hook ends: it returns, [abort] threw, or another
    exception (a [TypeError]) was raised. *)
Inductive Outcome (A : Type) :=
| Returned (a : A)
| Aborted
| Failed (error : string).
Arguments Returned {A} a.
Arguments Aborted {A}.
Arguments Failed {A} error.

Record Run (S A : Type) := mkRun {
  outcome : Outcome A;
  final : S;
  aborts : list AbortCall;
}.
Arguments mkRun {S A} outcome final aborts.
Arguments outcome {S A} r.
Arguments final {S A} r.
Arguments aborts {S A} r.

Definition Hook (S A : Type) : Type := S -> Run S A.

Definition ret {S A} (a : A) : Hook S A := fun s => mkRun (Returned a) s [].

Definition bind {S A B} (m : Hook S A) (f : A -> Hook S B) : Hook S B :=
  fun s =>
    let r := m s in
    match outcome r with
    | Returned a =>
        let r' := f a (final r) in
        mkRun (outcome r') (final r') (aborts r ++ aborts r')%list
    | Aborted => mkRun Aborted (final r) (aborts r)
    | Failed e => mkRun (Failed e) (final r) (aborts r)
    end.

Declare Scope hook_scope.
Delimit Scope hook_scope with hook.
Notation "'let*' x := m 'in' k" := (bind m (fun x => k))
  (at level 10, x name, m at level 100, k at level 200) : hook_scope.
Notation "m ;; k" := (bind m (fun _ => k))
  (at level 100, k at level 200, right associativity) : hook_scope.
Local Open Scope hook_scope.

Definition get {S} : Hook S S := fun s => mkRun (Returned s) s [].
Definition put {S} (s : S) : Hook S unit := fun _ => mkRun (Returned tt) s [].
Definition modify {S} (f : S -> S) : Hook S unit := fun s => mkRun (Returned tt) (f s) [].
Definition raise {S A} (error : string) : Hook S A := fun s => mkRun (Failed error) s [].
Definition when {S} (b : bool) (m : Hook S unit) : Hook S unit :=
  if b then m else ret tt.

(** The two hosts: the agent runtime, whose [abort] throws, and the test
    harness, whose [abort] notes the call and returns. *)
Inductive Host := Runtime | Harness.

(** [abort(reason, { retry })]; [abort(reason)] is [retry = false]. *)
Definition abort {S} (host : Host) (reason : string) (retry : bool) : Hook S unit :=
  fun s =>
    mkRun (match host with Runtime => Aborted | Harness => Returned tt end) s
          [mkAbort reason retry].

(** [for (const x of xs) body(x)] *)
Fixpoint forEach {S A} (xs : list A) (body : A -> Hook S unit) : Hook S unit :=
  match xs with
  | [] => ret tt
  | x :: xs' => body x ;; forEach xs' body
  end.

(** The outcome of a hook as the host sees it: the first call of [abort]
    decides (under the runtime it is the only one). *)
Definition abortsWith {S A} (r : Run S A) (call : AbortCall) : Prop :=
  head (aborts r) = Some call.

(** The hook returned [a] and never called [abort]. *)
Definition passes {S A} (r : Run S A) (a : A) : Prop :=
  outcome r = Returned a /\ aborts r = [].

(** ** Messages and tool calls *)
Record Message := mkMessage {
  role : string;
  content : Json.t;
  others : list (string * Json.t);
}.

(** [typeof m.content === "string" ? m.content : JSON.stringify(m.content)] *)
Definition textOf (m : Message) : string :=
  match content m with
  | Json.Str s => s
  | c => Json.stringify c
  end.

(** [messages.findLastIndex(m => m.role === r)] *)
Fixpoint findLastIndexFrom (r : string) (ms : list Message) (i : nat) (found : option nat)
  : option nat :=
  match ms with
  | [] => found
  | m :: ms' =>
      findLastIndexFrom r ms' (S i) (if String.eqb (role m) r then Some i else found)
  end.

Definition findLastIndex (ms : list Message) (r : string) : option nat :=
  findLastIndexFrom r ms 0 None.

(** [messages.findLast(m => m.role === r)] *)
Definition findLast (ms : list Message) (r : string) : option Message :=
  match findLastIndex ms r with
  | Some i => ms !! i
  | None => None
  end.

Record ToolCall := mkToolCall {
  toolName : option string;
  altName : option string;
  args : option Json.t;
}.

Definition lineFeed : string := String "010"%char "".

(** [a || b] on optional strings: an absent or empty [a] gives [b]. *)
Definition orElse (a : option string) (b : option string) : option string :=
  match a with
  | Some s => if String.eqb s "" then b else a
  | None => b
  end.

(** [Map.set] on a map kept in iteration order: a present key keeps its
    place and takes the new value, a new key goes last. *)
Fixpoint mapSet {V} (k : string) (v : V) (m : list (string * V)) : list (string * V) :=
  match m with
  | [] => [(k, v)]
  | (k', v') :: m' => if String.eqb k' k then (k, v) :: m' else (k', v') :: mapSet k v m'
  end.

(** ** Escalation processor ([processors/escalation.processor.ts]) *)
Module EscalationProcessor.

(** [registeredExpansions]: per skill pack, topic to keywords, in
    registration order. *)
Definition registerEscalationKeywords (skillPackId : string)
    (expansions : gmap string (list string))
    (registeredExpansions : list (string * gmap string (list string)))
  : list (string * gmap string (list string)) :=
  mapSet skillPackId expansions registeredExpansions.

(** [Object.assign(allExpansions, expansions)] over the registry, from
    the empty [defaultKeywordExpansions]. *)
Definition mergeExpansions (registeredExpansions : list (string * gmap string (list string)))
  : gmap string (list string) :=
  fold_left (fun allExpansions entry => entry.2 ∪ allExpansions) registeredExpansions ∅.

(** [allExpansions[topic] || [topic.replace(/_/g, " ")]] inside
    [flatMap].  For a topic named like an inherited property and not
    registered, [allExpansions[topic]] is that inherited value: it is
    truthy, so there is no fall-back, and not an array, so [flatMap] keeps
    it as one keyword, which [includes] converts to its text. *)
Definition expand (allExpansions : gmap string (list string)) (topic : string) : list string :=
  match allExpansions !! topic with
  | Some keywords => keywords
  | None =>
      match JS.inheritedText topic with
      | Some shown => [shown]
      | None => [JS.underscoresToSpaces topic]
      end
  end.

Definition topicTriggersOf (mandate : Mandate) : list EscalationTrigger.t :=
  List.filter (fun t => String.eqb (EscalationTrigger.condition t) "topic_match")
    (Escalation.triggers (escalation mandate)).

Definition distressTriggerOf (mandate : Mandate) : option EscalationTrigger.t :=
  List.find (fun t => String.eqb (EscalationTrigger.condition t) "user_distress_detected")
    (Escalation.triggers (escalation mandate)).

Definition keyOf (trigger : EscalationTrigger.t) (topics : list string) : string :=
  EscalationTrigger.condition trigger ++ "-" ++ JS.join "," topics.

(** The [topicKeywords] map built at construction. *)
Definition topicKeywordsOf (allExpansions : gmap string (list string)) (mandate : Mandate)
  : list (string * (list string * EscalationTrigger.t)) :=
  fold_left
    (fun topicKeywords trigger =>
       match EscalationTrigger.topics trigger with
       | None => topicKeywords
       | Some topics =>
           let keywords := flatMap (expand allExpansions) topics in
           mapSet (keyOf trigger topics) (keywords, trigger) topicKeywords
       end)
    (topicTriggersOf mandate) [].

Definition distressKeywords : list string :=
  [ "desperate"; "no way out"; "can't take it"; "losing everything";
    "threat"; "threatened"; "scared for my life"; "help me please";
    "don't know what to do"; "emergency" ].

(** The trigger's message with its resources, when it has any,
    appended. *)
Definition messageWithResources (trigger : EscalationTrigger.t) : string :=
  match EscalationTrigger.resources trigger with
  | Some resources =>
      EscalationTrigger.message trigger ++ lineFeed ++ lineFeed ++ JS.join lineFeed resources
  | None => EscalationTrigger.message trigger
  end.

Definition refuses (a : EscalationAction) : bool :=
  match a with
  | refuse_and_redirect | refuse => true
  | _ => false
  end.

Definition matched (lowerText : string) (keywords : list string) : bool :=
  existsb (fun kw => JS.includes lowerText kw) keywords.

(** The loop over [topicKeywords]: it stops at the first entry whose
    keywords match. *)
Fixpoint topicLoop (host : Host) (lowerText : string)
    (entries : list (string * (list string * EscalationTrigger.t))) : Hook unit unit :=
  match entries with
  | [] => ret tt
  | (_, (keywords, trigger)) :: entries' =>
      if matched lowerText keywords then
        when (refuses (EscalationTrigger.action trigger))
             (abort host (messageWithResources trigger) false)
      else topicLoop host lowerText entries'
  end.

Definition distressCheck (host : Host) (lowerText : string)
    (distressTrigger : option EscalationTrigger.t) : Hook unit unit :=
  match distressTrigger with
  | Some trigger =>
      when (matched lowerText distressKeywords)
           (abort host (messageWithResources trigger) false)
  | None => ret tt
  end.

Definition processInput
    (registeredExpansions : list (string * gmap string (list string)))
    (mandate : Mandate) (host : Host) (messages : list Message)
  : Hook unit (list Message) :=
  let topicKeywords := topicKeywordsOf (mergeExpansions registeredExpansions) mandate in
  let distressTrigger := distressTriggerOf mandate in
  match findLast messages "user" with
  | None => ret messages
  | Some lastUserMsg =>
      let lowerText := JS.toLowerCase (textOf lastUserMsg) in
      topicLoop host lowerText topicKeywords ;;
      distressCheck host lowerText distressTrigger ;;
      ret messages
  end.

(** The first entry of the table whose keywords occur in the text. *)
Definition firstMatch (lowerText : string)
    (entries : list (string * (list string * EscalationTrigger.t)))
  : option EscalationTrigger.t :=
  option_map (fun e => e.2.2) (List.find (fun e => matched lowerText e.2.1) entries).

End EscalationProcessor.

(** ** Limits processor ([processors/limits.processor.ts]) *)
Module LimitsProcessor.

Record Session := mkSession { turns : Z; startedAt : Z }.

(** The module-level variables. *)
Record Globals := mkGlobals {
  activeSessions : gmap string Session;
  dailyTokensUsed : Z;
  lastResetDate : string;
}.

(** The [state] object of the request: the two properties the processor
    stores in it. *)
Record RequestState := mkRequestState {
  __sessionId : option string;
  __turnStartTime : option Z;
}.

(** The system clock: what the [n]-th reading of it gives, as
    [Date.now()] and as [new Date().toDateString()]. *)
Record Clock := mkClock {
  nowAt : nat -> Z;
  dateStringAt : nat -> string;
}.

(** What a hook of this processor can touch: the module variables, the
    request's [state] object, and how many clock readings were made. *)
Record World := mkWorld {
  globals : Globals;
  state : RequestState;
  readings : nat;
}.

Definition setGlobals (f : Globals -> Globals) : Hook World unit :=
  modify (fun w => mkWorld (f (globals w)) (state w) (readings w)).

Definition setState (f : RequestState -> RequestState) : Hook World unit :=
  modify (fun w => mkWorld (globals w) (f (state w)) (readings w)).

Definition setSessions (f : gmap string Session -> gmap string Session) : Hook World unit :=
  setGlobals (fun g => mkGlobals (f (activeSessions g)) (dailyTokensUsed g) (lastResetDate g)).

(** [Date.now()] *)
Definition Date_now (clock : Clock) : Hook World Z :=
  fun w => mkRun (Returned (nowAt clock (readings w)))
                 (mkWorld (globals w) (state w) (S (readings w))) [].

(** [new Date().toDateString()] *)
Definition Date_toDateString (clock : Clock) : Hook World string :=
  fun w => mkRun (Returned (dateStringAt clock (readings w)))
                 (mkWorld (globals w) (state w) (S (readings w))) [].

Definition resetDailyIfNeeded (clock : Clock) : Hook World unit :=
  let* today := Date_toDateString clock in
  let* w := get in
  when (negb (String.eqb today (lastResetDate (globals w))))
       (setGlobals (fun g => mkGlobals (activeSessions g) 0 today)).

(** [(state as any).__sessionId || "default"] *)
Definition sessionIdOf (st : RequestState) : string :=
  default "default" (orElse (__sessionId st) None).

Definition sessionLimitMessage (limits : MandateLimits.t) : string :=
  "Session limit reached (" ++ JS.showZ (MandateLimits.max_turns_per_session limits)
    ++ " turns). " ++ "Please start a new conversation.".

(** The block under [if (!activeSessions.has(sessionId))]. *)
Definition openSession (mandate : Mandate) (clock : Clock) (host : Host) (sessionId : string)
  : Hook World unit :=
  let limits := limits mandate in
  let* w := get in
  when (negb (bool_decide (is_Some (activeSessions (globals w) !! sessionId))))
    (when (MandateLimits.max_concurrent_sessions limits
             <=? Z.of_nat (size (activeSessions (globals w))))
          (abort host "Maximum concurrent sessions reached. Please try again later." false) ;;
     let* now := Date_now clock in
     setSessions (fun m => <[sessionId := mkSession 0 now]> m)).

(** From [const session = activeSessions.get(sessionId)!] to the end. *)
Definition countTurn (mandate : Mandate) (clock : Clock) (host : Host) (sessionId : string)
    (messages : list Message) : Hook World (list Message) :=
  let limits := limits mandate in
  let* w := get in
  match activeSessions (globals w) !! sessionId with
  | None => raise "TypeError"
  | Some found =>
      (* session.turns++ on the object held by the map *)
      let session := mkSession (turns found + 1) (startedAt found) in
      setSessions (fun m => <[sessionId := session]> m) ;;
      when (MandateLimits.max_turns_per_session limits <? turns session)
        (setSessions (fun m => delete sessionId m) ;;
         abort host (sessionLimitMessage limits) false) ;;
      let* now := Date_now clock in
      (* (now - startedAt) / 1000 > timeout_seconds, on exact quotients *)
      when (1000 * MandateLimits.timeout_seconds limits <? now - startedAt session)
        (setSessions (fun m => delete sessionId m) ;;
         abort host "Session has timed out. Please start a new conversation." false) ;;
      let* w := get in
      when (negb (MandateLimits.token_budget_daily limits =? 0)
            && (MandateLimits.token_budget_daily limits <=? dailyTokensUsed (globals w)))
        (abort host "Daily token budget has been exhausted. Service will resume tomorrow."
               false) ;;
      setState (fun st => mkRequestState (Some sessionId) (__turnStartTime st)) ;;
      let* now := Date_now clock in
      setState (fun st => mkRequestState (__sessionId st) (Some now)) ;;
      ret messages
  end.

Definition processInput (mandate : Mandate) (clock : Clock) (host : Host)
    (messages : list Message) : Hook World (list Message) :=
  resetDailyIfNeeded clock ;;
  let* w := get in
  let sessionId := sessionIdOf (state w) in
  openSession mandate clock host sessionId ;;
  countTurn mandate clock host sessionId messages.

(** The next request of the same process: the module variables and the
    clock carry over, the [state] object is the new request's. *)
Definition nextRequest (w : World) (st : RequestState) : World :=
  mkWorld (globals w) st (readings w).

(** [Math.ceil(n / 4)] *)
Definition estimateTokens (text : string) : Z := - ((- JS.length text) / 4).

Definition truncationMarker : string :=
  lineFeed ++ lineFeed ++ "---" ++ lineFeed
    ++ "_[Response truncated — exceeded maximum length for this mandate]_".

Definition truncate (limits : MandateLimits.t) (text : string) : string :=
  let maxChars := MandateLimits.max_tokens_per_turn limits * 4 in
  JS.substring0 text maxChars ++ truncationMarker.

(** [{ ...m, content: text }] *)
Definition withContent (m : Message) (text : string) : Message :=
  mkMessage (role m) (Json.Str text) (others m).

Definition processOutputResult (mandate : Mandate) (clock : Clock) (host : Host)
    (messages : list Message) : Hook World (list Message) :=
  let limits := limits mandate in
  resetDailyIfNeeded clock ;;
  match findLast messages "assistant" with
  | None => ret messages
  | Some lastAssistantMsg =>
      let text := textOf lastAssistantMsg in
      let estimatedTokens := estimateTokens text in
      if MandateLimits.max_tokens_per_turn limits <? estimatedTokens then
        let truncated := truncate limits text in
        let updated :=
          match findLastIndex messages "assistant" with
          | Some idx =>
              match messages !! idx with
              | Some m => <[idx := withContent m truncated]> messages
              | None => messages
              end
          | None => messages
          end in
        ret updated
      else
        setGlobals (fun g => mkGlobals (activeSessions g)
                                       (dailyTokensUsed g + estimatedTokens)
                                       (lastResetDate g)) ;;
        ret messages
  end.

(** [resetLimitsState()] *)
Definition resetLimitsState (today : string) : Globals := mkGlobals ∅ 0 today.

End LimitsProcessor.

(** ** Tool gate ([processors/tool-gate.processor.ts]) *)
Module ToolGateProcessor.

(** What the gate passes to [auditLogger.log]. *)
Record AuditRecord := mkAudit { check : string; result : string; detail : string }.

(** [auditLogger.log(entry)]: the audit log is append-only. *)
Definition log (entry : AuditRecord) : Hook (list AuditRecord) unit :=
  modify (fun entries => (entries ++ [entry])%list).

Definition dataKeywords : gmap string (list string) :=
  list_to_map
    [ ("financial_accounts", ["bank_account"; "credit_card"; "routing_number"; "account_number"]);
      ("medical_records", ["medical"; "diagnosis"; "prescription"; "health_record"]);
      ("national_insurance_numbers", ["national insurance"; "ni number"; "nino"]);
      ("social_security_numbers", ["social security"; "ssn"]);
      ("credentials_and_passwords", ["password"; "api_key"; "secret"; "token"; "credential"]) ].

Definition quoted (s : string) : string :=
  String Json.doubleQuote (s ++ String Json.doubleQuote "").

(** How a possibly absent tool name prints inside a template string. *)
Definition shown (toolName : option string) : string := default "undefined" toolName.

Definition tooManyMessage (mandate : Mandate) : string :=
  "Too many tool calls. Maximum is "
    ++ JS.showZ (MandateLimits.max_tool_calls_per_turn (limits mandate)) ++ ".".

(** [toolCall.args || {}] *)
Definition argsOrEmpty (args : option Json.t) : Json.t :=
  match args with
  | Some a => if Json.truthy a then a else Json.Obj []
  | None => Json.Obj []
  end.

Definition checkCall (mandate : Mandate) (host : Host) (retryCount : Z) (toolCall : ToolCall)
  : Hook (list AuditRecord) unit :=
  let allowedTools := JS.uniq (Capabilities.tools (capabilities mandate)) in
  let prohibitedExact := prohibitedExactOf mandate in
  let prohibitedPrefixes := prohibitedPrefixesOf mandate in
  let prohibitedData := Prohibitions.data (prohibitions mandate) in
  let toolName := orElse (toolName toolCall) (altName toolCall) in
  let isName (l : list string) :=
    match toolName with Some n => bool_decide (n ∈ l) | None => false end in
  (* Check 1: whitelist *)
  when (negb (isName allowedTools))
    (log (mkAudit "tool_whitelist" "blocked"
            ("Tool " ++ quoted (shown toolName) ++ " not in allowed tools")) ;;
     if retryCount <? 2 then
       abort host ("Tool " ++ quoted (shown toolName) ++ " is not available. Only use: "
                     ++ JS.join ", " allowedTools) true
     else abort host "Unable to complete this request within my operating guidelines." false) ;;
  (* Check 2: exact prohibition *)
  when (isName prohibitedExact)
    (log (mkAudit "tool_prohibition" "blocked"
            ("Tool " ++ quoted (shown toolName) ++ " is explicitly prohibited")) ;;
     abort host ("Tool " ++ quoted (shown toolName)
                   ++ " is prohibited by my operating mandate.") true) ;;
  (* Check 3: wildcard prohibition; toolName.startsWith on an absent name throws *)
  match toolName with
  | None =>
      match prohibitedPrefixes with
      | [] => ret tt
      | _ :: _ => raise "TypeError"
      end
  | Some n =>
      match List.find (fun prefix => JS.startsWith n prefix) prohibitedPrefixes with
      | Some wildcardMatch =>
          when (negb (String.eqb wildcardMatch ""))
            (log (mkAudit "tool_prohibition_wildcard" "blocked"
                    ("Tool " ++ quoted n ++ " matches wildcard prohibition "
                       ++ quoted (wildcardMatch ++ "-*"))) ;;
             abort host ("Tool " ++ quoted n ++ " is prohibited by my operating mandate.") true)
      | None => ret tt
      end
  end ;;
  (* Check 4: prohibited data categories in the arguments *)
  let argsString := JS.toLowerCase (Json.stringify (argsOrEmpty (args toolCall))) in
  forEach prohibitedData (fun category =>
    let keywords :=
      match dataKeywords !! category with
      | Some kws => kws
      | None => [JS.underscoresToSpaces category]
      end in
    match List.find (fun kw => JS.includes argsString (JS.toLowerCase kw)) keywords with
    | Some found =>
        when (negb (String.eqb found ""))
          (log (mkAudit "data_prohibition" "blocked"
                  ("Tool args reference prohibited data category " ++ quoted category
                     ++ " (keyword: " ++ quoted found ++ ")")) ;;
           abort host ("I cannot access " ++ JS.underscoresToSpaces category ++ " data.") true)
    | None => ret tt
    end) ;;
  log (mkAudit "tool_gate" "allowed"
         ("Tool " ++ quoted (shown toolName) ++ " passed all mandate checks")).

Definition processOutputStep (mandate : Mandate) (host : Host) (retryCount : Z)
    (messages : list Message) (toolCalls : option (list ToolCall))
  : Hook (list AuditRecord) (list Message) :=
  match toolCalls with
  | None | Some [] => ret messages
  | Some calls =>
      let count := Z.of_nat (List.length calls) in
      when (MandateLimits.max_tool_calls_per_turn (limits mandate) <? count)
        (log (mkAudit "tool_call_limit" "blocked"
                (JS.showZ count ++ " calls exceeds limit of "
                   ++ JS.showZ (MandateLimits.max_tool_calls_per_turn (limits mandate)))) ;;
         abort host (tooManyMessage mandate) true) ;;
      forEach calls (checkCall mandate host retryCount) ;;
      ret messages
  end.

End ToolGateProcessor.

(** ** Data-access processor ([processors/data-access.processor.ts]) *)
Module DataAccessProcessor.

(** [extractStrings]: every string value, depth first. *)
Fixpoint extractStrings (obj : Json.t) : list string :=
  match obj with
  | Json.Str s => [s]
  | Json.Arr items => concat (List.map extractStrings items)
  | Json.Obj fields => concat (List.map (fun '(_, x) => extractStrings x) fields)
  | _ => []
  end.


(** The [allowedExtensions] set, as the list of its members. *)
Definition allowedExtensionsOf (mandate : Mandate) : list string :=
  JS.uniq
    (flatMap (fun rule => List.map JS.toLowerCase (default [] (DataAccessRule.file_types rule)))
             (Capabilities.data_access (capabilities mandate))).

Definition writeableScopesOf (mandate : Mandate) : list string :=
  JS.uniq
    (flatMap (fun rule =>
                if existsb (fun p => match p with write => true | read => false end)
                           (DataAccessRule.permissions rule)
                then [DataAccessRule.scope rule] else [])
             (Capabilities.data_access (capabilities mandate))).

Definition word_i (w : string) : RegExp.pattern :=
  RegExp.re_i (RegExp.Seq RegExp.WordBoundary (RegExp.Seq (RegExp.lit w) RegExp.WordBoundary)).

Definition writePatterns : list RegExp.pattern :=
  List.map word_i
    ["write"; "save"; "create"; "delete"; "update"; "modify"; "append"; "overwrite"].

(** [/write|save|create|delete|upload|send/i] *)
Definition writeToolPattern : RegExp.pattern :=
  RegExp.re_i (RegExp.alts (List.map RegExp.lit
                 ["write"; "save"; "create"; "delete"; "upload"; "send"])).

(** [/^\.[a-z]+$/i] *)
Definition extensionPattern : RegExp.pattern :=
  RegExp.re_i (RegExp.Seq RegExp.Start
                (RegExp.Seq (RegExp.chr ".")
                   (RegExp.Seq (RegExp.plus (RegExp.Class RegExp.isLower)) RegExp.End))).

(** The extension the processor checks for a string value, when the
    value looks like a file name to it. *)
Definition checkedExtension (value : string) : option string :=
  let dotIndex := JS.lastIndexOf value "." in
  if (0 <? dotIndex) && (dotIndex <? JS.length value - 1) then
    let ext := JS.toLowerCase (JS.substringFrom value dotIndex) in
    if (2 <=? JS.length ext) && (JS.length ext <=? 6) && RegExp.test extensionPattern ext
    then Some ext else None
  else None.

Definition fileTypeMessage (allowedExtensions : list string) (ext : string) : string :=
  "File type " ++ ToolGateProcessor.quoted ext ++ " is not permitted. Allowed types: "
    ++ JS.join ", " allowedExtensions.

Definition checkValue (host : Host) (allowedExtensions : list string) (value : string)
  : Hook unit unit :=
  match checkedExtension value with
  | Some ext =>
      when (negb (bool_decide (ext ∈ allowedExtensions)))
           (abort host (fileTypeMessage allowedExtensions ext) true)
  | None => ret tt
  end.

Definition writeMessage : string :=
  "Write operations are not permitted under the current mandate. "
    ++ "All data access is read-only.".

(** [extractStrings(toolCall.args)]; absent arguments hold no string. *)
Definition argStrings (toolCall : ToolCall) : list string :=
  match args toolCall with
  | Some a => extractStrings a
  | None => []
  end.

Definition checkCall (mandate : Mandate) (host : Host) (toolCall : ToolCall) : Hook unit unit :=
  let allowedExtensions := allowedExtensionsOf mandate in
  let anyWriteAllowed := (0 <? List.length (writeableScopesOf mandate))%nat in
  (* Check 1: file extension restrictions *)
  when (0 <? List.length allowedExtensions)%nat
    (let allStrings := argStrings toolCall in
     forEach allStrings (checkValue host allowedExtensions)) ;;
  (* Check 2: write operations on read-only scopes *)
  when (negb anyWriteAllowed)
    (let argsLower :=
       JS.toLowerCase (Json.stringify (ToolGateProcessor.argsOrEmpty (args toolCall))) in
     let isWriteOperation := existsb (fun p => RegExp.test p argsLower) writePatterns in
     let toolName := default "" (orElse (orElse (toolName toolCall) (altName toolCall)) (Some "")) in
     let isWriteTool := RegExp.test writeToolPattern toolName in
     when (isWriteOperation || isWriteTool) (abort host writeMessage true)).

Definition processOutputStep (mandate : Mandate) (host : Host)
    (messages : list Message) (toolCalls : option (list ToolCall))
  : Hook unit (list Message) :=
  match toolCalls with
  | None | Some [] => ret messages
  | Some calls => forEach calls (checkCall mandate host) ;; ret messages
  end.

End DataAccessProcessor.

(** ** Citation processor ([processors/citation.processor.ts]) *)
Module CitationProcessor.

Import RegExp.

Definition word (w : string) : RegExp.t := Seq WordBoundary (Seq (lit w) WordBoundary).

(** [source.replace(/_/g, "[\\s_]")]: the source text handed to
    [new RegExp]. *)
Fixpoint underscoresToClass (source : string) : string :=
  match source with
  | EmptyString => EmptyString
  | String c s' =>
      if Ascii.eqb c "_" then "[\s_]" ++ underscoresToClass s'
      else String c (underscoresToClass s')
  end.

Definition digits (n : nat) : RegExp.t :=
  Nat.iter n (fun r => Seq digit r) Empty.

Definition letters : RegExp.t := plus (Class isLetter).

Definition citationPatterns : list RegExp.pattern :=
  [ (* /\bAct\s+\d{4}\b/ *)
    re (Seq WordBoundary (Seq (lit "Act") (Seq (plus space) (Seq (digits 4) WordBoundary))));
    (* /\bs\.\d+/ *)
    re (Seq WordBoundary (Seq (lit "s.") (plus digit)));
    (* /\bss?\.\s*\d+/ *)
    re (Seq WordBoundary
          (Seq (chr "s") (Seq (opt (chr "s")) (Seq (chr ".") (Seq (Star space) (plus digit))))));
    (* /\bSection\s+\d+/i *)
    re_i (Seq WordBoundary (Seq (lit "Section") (Seq (plus space) (plus digit))));
    (* /\[?\d{4}\]?\s+[A-Z][A-Za-z]+(?:\s+[A-Za-z]+)*\s+\d+/ *)
    re (Seq (opt (chr "["))
          (Seq (digits 4)
             (Seq (opt (chr "]"))
                (Seq (plus space)
                   (Seq (Class isUpper)
                      (Seq letters
                         (Seq (Star (Seq (plus space) letters))
                            (Seq (plus space) (plus digit)))))))));
    (* /v\.\s+/ *)
    re (Seq (lit "v.") (plus space));
    (* /legislation\.gov\.uk/i *)
    re_i (lit "legislation.gov.uk");
    (* /§\s*\d+/ *)
    re (Seq (lit "§") (Seq (Star space) (plus digit)));
    (* /https?:\/\/[^\s]+/ *)
    re (Seq (lit "http")
          (Seq (opt (chr "s")) (Seq (lit "://") (plus (Class (fun c => negb (isSpace c))))))) ].

Definition hasCitations (text : string) : bool :=
  existsb (fun p => RegExp.test p text) citationPatterns.

Definition unableMessage : string :=
  "I'm unable to provide a response using only authoritative sources for this query.".

Definition lacksCitationsMessage : string :=
  "Response lacks citations. All substantive legal information must cite "
    ++ "relevant legislation, case law, or authoritative sources.".

Section WithEngine.

(** [new RegExp(src, "i")] for a source [src] computed from the policy:
    the regular-expression engine of the host on a pattern that is not a
    literal of the program.  It throws a SyntaxError on a source that is
    not a pattern ([None]); otherwise it gives a pattern, taken here as
    its [test]. *)
Variable RegExp_i : string -> option (string -> bool).

(** The tests of one blocked source ([pattern.test] of each of its
    patterns), when its patterns can be built. *)
Definition patternsOf (source : string) : option (list (string -> bool)) :=
  if String.eqb source "wikipedia" then
    Some [RegExp.test (re_i (lit "wikipedia.org")); RegExp.test (re_i (word "wikipedia"))]
  else if String.eqb source "reddit" then
    Some [RegExp.test (re_i (lit "reddit.com")); RegExp.test (re_i (word "reddit"))]
  else if String.eqb source "social_media" then
    Some [RegExp.test
            (re_i (alts (List.map lit
                     ["twitter.com"; "x.com"; "facebook.com"; "instagram.com"; "tiktok.com"])))]
  else if String.eqb source "blogs" then
    Some [RegExp.test (re_i (word "blog")); RegExp.test (re_i (lit "medium.com"));
          RegExp.test (re_i (lit "wordpress.com"))]
  else
    match RegExp_i (underscoresToClass source) with
    | Some test => Some [test]
    | None => None
    end.

(** [blockedSources.map(...)]: [None] when building the patterns of some
    source throws. *)
Definition blockedPatternsOf (mandate : Mandate)
  : option (list (string * list (string -> bool))) :=
  mapM (fun source =>
          match patternsOf source with
          | Some patterns => Some (source, patterns)
          | None => None
          end)
    (CitationRequirements.blocked_sources (Requirements.citations (requirements mandate))).

End WithEngine.

Definition blockedMessage (mandate : Mandate) (source : string) : string :=
  "Response references " ++ ToolGateProcessor.quoted source
    ++ " which is a blocked source. " ++ "Use authoritative sources only: "
    ++ JS.join ", "
         (CitationRequirements.allowed_sources
            (Requirements.citations (requirements mandate))).

Definition checkBlocked (mandate : Mandate)
    (blockedPatterns : list (string * list (string -> bool)))
    (host : Host) (retryCount : Z) (text : string) : Hook unit unit :=
  forEach blockedPatterns (fun entry =>
    forEach entry.2 (fun test =>
      when (test text)
        (if retryCount <? 2 then abort host (blockedMessage mandate entry.1) true
         else abort host unableMessage false))).

(** The hook of the processor built for a mandate that requires
    citations, over the patterns [blockedPatterns] built with it. *)
Definition processOutputResult (mandate : Mandate)
    (blockedPatterns : list (string * list (string -> bool)))
    (host : Host) (retryCount : Z) (messages : list Message) : Hook unit (list Message) :=
  match findLast messages "assistant" with
  | None => ret messages
  | Some lastAssistantMsg =>
      let text := textOf lastAssistantMsg in
      (* Check 1: blocked sources *)
      checkBlocked mandate blockedPatterns host retryCount text ;;
      (* Check 2: citation presence for substantive responses *)
      let isSubstantive := 200 <? JS.length text in
      when isSubstantive
        (when (negb (hasCitations text))
           (when (retryCount <? 2) (abort host lacksCitationsMessage true))) ;;
      ret messages
  end.

(** [createCitationProcessor(mandate)], as the hook of the processor it
    returns: a hook that returns the messages when citations are not
    required; otherwise the patterns are built first, which can throw. *)
Definition createCitationProcessor (RegExp_i : string -> option (string -> bool))
    (mandate : Mandate)
  : Completion (Host -> Z -> list Message -> Hook unit (list Message)) :=
  let citationConfig := Requirements.citations (requirements mandate) in
  if negb (CitationRequirements.required citationConfig)
  then Return (fun _ _ messages => ret messages)
  else
    match blockedPatternsOf RegExp_i mandate with
    | Some blockedPatterns => Return (processOutputResult mandate blockedPatterns)
    | None => Throw "SyntaxError"
    end.

(** Some pattern of some blocked source matches the text. *)
Definition blockedHit (blockedPatterns : list (string * list (string -> bool)))
    (text : string) : bool :=
  existsb (fun entry => existsb (fun test => test text) entry.2) blockedPatterns.

(** The engine on the sources that are plain text around the class
    [[\s_]]: letters, digits, spaces and hyphens stand for themselves.
    Sources with other characters are outside this fragment. *)
Fixpoint plainBody (skip : nat) (src : string) : RegExp.t :=
  match src with
  | EmptyString => Empty
  | String c src' =>
      match skip with
      | S n => plainBody n src'
      | O =>
          if String.prefix "[\s_]" src
          then Seq (Class (fun x => isSpace x || Ascii.eqb x "_")) (plainBody 4 src')
          else Seq (chr c) (plainBody 0 src')
      end
  end.

Fixpoint isPlain (skip : nat) (src : string) : bool :=
  match src with
  | EmptyString => true
  | String c src' =>
      match skip with
      | S n => isPlain n src'
      | O =>
          if String.prefix "[\s_]" src then isPlain 4 src'
          else (isLetter c || isDigit c || Ascii.eqb c " " || Ascii.eqb c "-")
               && isPlain 0 src'
      end
  end.

Definition plainRegExp_i (src : string) : option (string -> bool) :=
  if isPlain 0 src then Some (RegExp.test (re_i (plainBody 0 src))) else None.

End CitationProcessor.

(** ** Sample policies

    Two small mandates in the shape of the repository's templates, used to
    run the definitions on concrete inputs. *)
Module Sample.

Definition limitsA : MandateLimits.t :=
  {| MandateLimits.max_tokens_per_turn := 8000;
     MandateLimits.max_tool_calls_per_turn := 10;
     MandateLimits.max_turns_per_session := 100;
     MandateLimits.max_concurrent_sessions := 5;
     MandateLimits.token_budget_daily := 500000;
     MandateLimits.timeout_seconds := 120 |}.

Definition limitsB : MandateLimits.t :=
  {| MandateLimits.max_tokens_per_turn := 4000;
     MandateLimits.max_tool_calls_per_turn := 12;
     MandateLimits.max_turns_per_session := 50;
     MandateLimits.max_concurrent_sessions := 8;
     MandateLimits.token_budget_daily := 200000;
     MandateLimits.timeout_seconds := 60 |}.

Definition citationsA : CitationRequirements.t :=
  {| CitationRequirements.required := true;
     CitationRequirements.format := inline;
     CitationRequirements.min_per_claim := 1;
     CitationRequirements.allowed_sources := ["uk_primary_legislation"];
     CitationRequirements.blocked_sources := ["wikipedia"; "reddit"] |}.

Definition citationsB : CitationRequirements.t :=
  {| CitationRequirements.required := false;
     CitationRequirements.format := footnote;
     CitationRequirements.min_per_claim := 0;
     CitationRequirements.allowed_sources := [];
     CitationRequirements.blocked_sources := [] |}.

Definition auditA : AuditConfig.t :=
  {| AuditConfig.log_level := actions_only;
     AuditConfig.include_llm_calls := false;
     AuditConfig.include_tool_calls := true;
     AuditConfig.retention_days := 90 |}.

Definition criminal : EscalationTrigger.t :=
  {| EscalationTrigger.condition := "topic_match";
     EscalationTrigger.threshold := None;
     EscalationTrigger.topics := Some ["criminal_defence"];
     EscalationTrigger.action := refuse_and_redirect;
     EscalationTrigger.message := "Please consult a solicitor.";
     EscalationTrigger.resources := Some ["Citizens Advice"] |}.

Definition tenant : Mandate :=
  {| version := "1.0";
     metadata :=
       {| Metadata.name := "tenant-rights"; Metadata.description := "Tenant rights";
          Metadata.author := "openmandate"; Metadata.created := "2025-01-01";
          Metadata.tags := ["legal"]; Metadata.skill_packs := Some ["uk-law"] |};
     capabilities :=
       {| Capabilities.tools := ["formal-letter"; "legislation-lookup"; "email-send"];
          Capabilities.data_access :=
            [ {| DataAccessRule.scope := "user_uploads";
                 DataAccessRule.permissions := [read];
                 DataAccessRule.file_types := Some [".pdf"; ".docx"];
                 DataAccessRule.databases := None |} ];
          Capabilities.output_types := ["letter"] |};
     prohibitions :=
       {| Prohibitions.tools := ["email-send"; "calendar-*"; "payment-*"];
          Prohibitions.actions := ["provide_legal_advice"];
          Prohibitions.data := ["financial_accounts"] |};
     requirements :=
       {| Requirements.disclaimers :=
            [ {| DisclaimerRule.trigger := always;
                 DisclaimerRule.text := "This is not legal advice.";
                 DisclaimerRule.placement := at_end;
                 DisclaimerRule.custom_pattern := None |} ];
          Requirements.citations := citationsA;
          Requirements.human_review :=
            {| HumanReviewConfig.required_before := ["finalize_document"];
               HumanReviewConfig.review_prompt := "Please review before sending." |};
          Requirements.audit := auditA |};
     scope :=
       {| ScopeConfig.allowed := ["GB-EAW"];
          ScopeConfig.behavior_on_unsupported := escalate;
          ScopeConfig.escalation_message := "I only cover England and Wales." |};
     escalation := {| Escalation.triggers := [criminal] |};
     limits := limitsA |}.

Definition contract : Mandate :=
  {| version := "2.0";
     metadata :=
       {| Metadata.name := "contract-reviewer"; Metadata.description := "Contracts";
          Metadata.author := "openmandate"; Metadata.created := "2025-02-01";
          Metadata.tags := ["legal"; "contracts"]; Metadata.skill_packs := None |};
     capabilities :=
       {| Capabilities.tools := ["legislation-lookup"; "case-law-search"];
          Capabilities.data_access := [];
          Capabilities.output_types := ["summary"] |};
     prohibitions :=
       {| Prohibitions.tools := ["shell-execute"];
          Prohibitions.actions := ["represent_as_solicitor"];
          Prohibitions.data := [] |};
     requirements :=
       {| Requirements.disclaimers := [];
          Requirements.citations := citationsB;
          Requirements.human_review :=
            {| HumanReviewConfig.required_before := [];
               HumanReviewConfig.review_prompt := "" |};
          Requirements.audit := auditA |};
     scope :=
       {| ScopeConfig.allowed := ["GB-EAW"; "GB-SCT"];
          ScopeConfig.behavior_on_unsupported := refuse_scope;
          ScopeConfig.escalation_message := "Out of scope." |};
     escalation := {| Escalation.triggers := [] |};
     limits := limitsB |}.

(** [contract] with other data-access rules, citation requirements and
    human-review configuration. *)
Definition contract' : Mandate :=
  {| version := version contract;
     metadata := metadata contract;
     capabilities :=
       {| Capabilities.tools := Capabilities.tools (capabilities contract);
          Capabilities.data_access := Capabilities.data_access (capabilities tenant);
          Capabilities.output_types := Capabilities.output_types (capabilities contract) |};
     prohibitions := prohibitions contract;
     requirements :=
       {| Requirements.disclaimers := [];
          Requirements.citations := citationsA;
          Requirements.human_review := Requirements.human_review (requirements tenant);
          Requirements.audit := auditA |};
     scope := scope contract;
     escalation := escalation contract;
     limits := limits contract |}.

Definition heap : list Mandate := [tenant; contract].

Definition withLimits (m : Mandate) (l : MandateLimits.t) : Mandate :=
  mkMandate (version m) (metadata m) (capabilities m) (prohibitions m) (requirements m)
            (scope m) (escalation m) l.

Definition withTriggers (m : Mandate) (ts : list EscalationTrigger.t) : Mandate :=
  mkMandate (version m) (metadata m) (capabilities m) (prohibitions m) (requirements m)
            (scope m) (Escalation.mk ts) (limits m).

(** [tenant] with at most two turns per session. *)
Definition twoTurns : Mandate := withLimits tenant (MandateLimits.mk 8000 10 2 5 500000 120).

(** [tenant] with at most two tokens per turn. *)
Definition twoTokens : Mandate := withLimits tenant (MandateLimits.mk 2 10 100 5 500000 120).

(** [tenant] with at most one tool call per turn. *)
Definition oneCall : Mandate := withLimits tenant (MandateLimits.mk 8000 1 100 5 500000 120).

Definition eviction : EscalationTrigger.t :=
  {| EscalationTrigger.condition := "topic_match";
     EscalationTrigger.threshold := None;
     EscalationTrigger.topics := Some ["eviction"];
     EscalationTrigger.action := warn_user;
     EscalationTrigger.message := "Eviction is time critical.";
     EscalationTrigger.resources := None |}.



(** A warning trigger ahead of a refusing one. *)
Definition warnThenRefuse : Mandate := withTriggers tenant [eviction; criminal].

Definition user (text : string) : Message := mkMessage "user" (Json.Str text) [].
Definition assistant (text : string) : Message := mkMessage "assistant" (Json.Str text) [].

Definition call (name : string) (arguments : Json.t) : ToolCall :=
  mkToolCall (Some name) None (Some arguments).

Definition clock : LimitsProcessor.Clock :=
  LimitsProcessor.mkClock (fun n => 1000 + Z.of_nat n) (fun _ => "Thu Jan 01 2026").

Definition freshWorld : LimitsProcessor.World :=
  LimitsProcessor.mkWorld (LimitsProcessor.resetLimitsState "Thu Jan 01 2026")
    (LimitsProcessor.mkRequestState None None) 0.


Definition allTools : gmap string Tool :=
  list_to_map
    [ ("formal-letter", {| id := Some "formal-letter"; name := "Formal Letter Drafting" |});
      ("legislation-lookup", {| id := Some "legislation-lookup"; name := "Legislation Lookup" |});
      ("email-send", {| id := Some "email-send"; name := "Email Sender" |});
      ("calendar-create", {| id := Some "calendar-create"; name := "Calendar Create" |});
      ("payment-stripe", {| id := None; name := "Payment Stripe" |}) ].

End Sample.

(** ** Consistency validator ([src/mandate/validator.ts]) *)

Module Validator.

Record ValidationResult := mkResult {
  valid : bool;
  warnings : list string;
  errors : list string;
}.

Definition quoted (s : string) : string :=
  String Json.doubleQuote (s ++ String Json.doubleQuote "").

(** How an escalation action prints inside a template string. *)
Definition showAction (a : EscalationAction) : string :=
  match a with
  | warn_user => "warn_user"
  | refuse_and_redirect => "refuse_and_redirect"
  | provide_resources => "provide_resources"
  | disclose_and_defer => "disclose_and_defer"
  | refuse => "refuse"
  end.

Definition collisionError (tool : string) : string :=
  "Tool " ++ quoted tool ++ " is listed in both capabilities.tools and prohibitions.tools. "
    ++ "This is contradictory — the tool will be blocked at runtime.".

Definition wildcardError (tool matchingPrefix : string) : string :=
  "Tool " ++ quoted tool ++ " matches wildcard prohibition " ++ quoted (matchingPrefix ++ "-*")
    ++ ". It is in capabilities.tools but will be blocked by the wildcard prohibition.".

Definition noTopicsError : string :=
  "Escalation trigger with condition " ++ quoted "topic_match" ++ " has no topics defined.".

Definition noThresholdError : string :=
  "Escalation trigger with condition " ++ quoted "confidence_below"
    ++ " has no threshold defined.".

Definition noPatternError : string :=
  "Disclaimer with trigger " ++ quoted "custom" ++ " must define a custom_pattern regex.".

Definition noResourcesWarning (a : EscalationAction) : string :=
  "Escalation trigger with action " ++ quoted (showAction a) ++ " has no resources listed. "
    ++ "Consider adding resources for user guidance.".

Definition noSkillPacksWarning (tools : list string) : string :=
  "No skill_packs listed in metadata, but " ++ JS.showZ (Z.of_nat (List.length tools))
    ++ " tools are declared in capabilities. Tools must be provided by registered skill packs.".

Definition limitsWarning (l : MandateLimits.t) : string :=
  "max_tokens_per_turn (" ++ JS.showZ (MandateLimits.max_tokens_per_turn l) ++ ") exceeds "
    ++ "token_budget_daily (" ++ JS.showZ (MandateLimits.token_budget_daily l)
    ++ "). A single turn could exhaust the daily budget.".

Definition noScopesWarning : string :=
  "No allowed scopes defined. The agent will trigger scope escalation on every query.".

Definition citationWarning : string :=
  "Citations are required but min_per_claim is 0. "
    ++ "Consider setting min_per_claim to at least 1.".

(** [!xs || xs.length === 0] on an optional array. *)
Definition missingOrEmpty {A} (xs : option (list A)) : bool :=
  match xs with
  | None | Some [] => true
  | Some _ => false
  end.

(** [x === undefined] on an optional field. *)
Definition isUndefined {A} (x : option A) : bool :=
  match x with
  | None => true
  | Some _ => false
  end.

(** The errors one pass of the loop over the whitelist pushes. *)
Definition toolErrors (mandate : Mandate) (tool : string) : list string :=
  ((if bool_decide (tool ∈ prohibitedExactOf mandate) then [collisionError tool] else [])
   ++ match List.find (fun prefix => JS.startsWith tool prefix) (prohibitedPrefixesOf mandate) with
      | Some matchingPrefix =>
          if String.eqb matchingPrefix "" then [] else [wildcardError tool matchingPrefix]
      | None => []
      end)%list.

(** The errors and the warnings one pass of the loop over the triggers
    pushes. *)
Definition triggerErrors (trigger : EscalationTrigger.t) : list string :=
  ((if String.eqb (EscalationTrigger.condition trigger) "topic_match"
       && missingOrEmpty (EscalationTrigger.topics trigger)
    then [noTopicsError] else [])
   ++ (if String.eqb (EscalationTrigger.condition trigger) "confidence_below"
          && isUndefined (EscalationTrigger.threshold trigger)
       then [noThresholdError] else []))%list.

Definition triggerWarnings (trigger : EscalationTrigger.t) : list string :=
  if match EscalationTrigger.action trigger with
     | refuse_and_redirect | provide_resources => true
     | _ => false
     end
     && missingOrEmpty (EscalationTrigger.resources trigger)
  then [noResourcesWarning (EscalationTrigger.action trigger)] else [].

Definition disclaimerErrors (disclaimer : DisclaimerRule.t) : list string :=
  match DisclaimerRule.trigger disclaimer, DisclaimerRule.custom_pattern disclaimer with
  | custom, None | custom, Some EmptyString => [noPatternError]
  | _, _ => []
  end.

Definition validateMandateConsistency (mandate : Mandate) : ValidationResult :=
  let allowedTools := JS.uniq (Capabilities.tools (capabilities mandate)) in
  let errors :=
    (flatMap (toolErrors mandate) allowedTools
     ++ flatMap triggerErrors (Escalation.triggers (escalation mandate))
     ++ flatMap disclaimerErrors (Requirements.disclaimers (requirements mandate)))%list in
  let warnings :=
    ((if missingOrEmpty (Metadata.skill_packs (metadata mandate))
         && (0 <? List.length (Capabilities.tools (capabilities mandate)))%nat
      then [noSkillPacksWarning (Capabilities.tools (capabilities mandate))] else [])
     ++ flatMap triggerWarnings (Escalation.triggers (escalation mandate))
     ++ (if MandateLimits.token_budget_daily (limits mandate)
             <? MandateLimits.max_tokens_per_turn (limits mandate)
         then [limitsWarning (limits mandate)] else [])
     ++ (if (List.length (ScopeConfig.allowed (scope mandate)) =? 0)%nat
         then [noScopesWarning] else [])
     ++ (if CitationRequirements.required (Requirements.citations (requirements mandate))
            && (CitationRequirements.min_per_claim (Requirements.citations (requirements mandate))
                =? 0)
         then [citationWarning] else []))%list in
  {| valid := (List.length errors =? 0)%nat; warnings := warnings; errors := errors |}.

End Validator.

(** ** Skill pack registry ([src/skills/registry.ts]) *)

(** A skill pack as the registry and the agent factory use it: its
    identifier and its [tools] record, as the entries [Object.entries]
    yields. *)
Module SkillPack.
Record t := mk {
  id : string;
  tools : list (string * Tool);
}.
End SkillPack.

Module SkillPackRegistry.

(** An aggregated tool: [{ ...tool, __skillPackId: pack.id }]. *)
Record Provided := mkProvided {
  tool : Tool;
  __skillPackId : string;
}.

(** [packs], a [Map] in insertion order. *)
Definition Packs := list (string * SkillPack.t).

Definition get (id : string) (packs : Packs) : option SkillPack.t :=
  snd <$> List.find (fun entry => String.eqb entry.1 id) packs.

Definition has (id : string) (packs : Packs) : bool :=
  existsb (fun entry => String.eqb entry.1 id) packs.

Definition getAll (packs : Packs) : list SkillPack.t := List.map snd packs.
Definition getIds (packs : Packs) : list string := List.map fst packs.

Definition quoted (s : string) : string :=
  String Json.doubleQuote (s ++ String Json.doubleQuote "").

Definition register (pack : SkillPack.t) (packs : Packs) : Completion Packs :=
  if has (SkillPack.id pack) packs
  then Throw ("Skill pack " ++ quoted (SkillPack.id pack) ++ " is already registered")
  else Return (mapSet (SkillPack.id pack) pack packs).

(** [packs.delete(id)]: whether the key was there, and the map left. *)
Definition unregister (id : string) (packs : Packs) : bool * Packs :=
  (has id packs, List.filter (fun entry => negb (String.eqb entry.1 id)) packs).

(** The properties every object inherits from [Object.prototype]; reading
    one of them on an object that does not define it gives a function or
    an object, which is truthy and has no [__skillPackId]. *)
Definition inherited : list string :=
  [ "constructor"; "hasOwnProperty"; "isPrototypeOf"; "propertyIsEnumerable";
    "toLocaleString"; "toString"; "valueOf"; "__proto__";
    "__defineGetter__"; "__defineSetter__"; "__lookupGetter__"; "__lookupSetter__" ].

Definition collision (id first second : string) : string :=
  "Tool ID collision: " ++ quoted id ++ " is provided by both "
    ++ quoted first ++ " and " ++ quoted second.

(** The inner loop, over the entries of one pack. *)
Fixpoint addTools (pack : SkillPack.t) (entries : list (string * Tool))
    (tools : gmap string Provided) : Completion (gmap string Provided) :=
  match entries with
  | [] => Return tools
  | (id, tool) :: entries' =>
      match tools !! id with
      | Some present => Throw (collision id (__skillPackId present) (SkillPack.id pack))
      | None =>
          if bool_decide (id ∈ inherited)
          then Throw (collision id "undefined" (SkillPack.id pack))
          else addTools pack entries' (<[id := mkProvided tool (SkillPack.id pack)]> tools)
      end
  end.

(** The outer loop, over the registered packs. *)
Fixpoint addPacks (packs : list SkillPack.t) (tools : gmap string Provided)
  : Completion (gmap string Provided) :=
  match packs with
  | [] => Return tools
  | pack :: packs' =>
      match addTools pack (SkillPack.tools pack) tools with
      | Return tools' => addPacks packs' tools'
      | Throw msg => Throw msg
      end
  end.

Definition getAllTools (packs : Packs) : Completion (gmap string Provided) :=
  addPacks (getAll packs) ∅.

(** Every tool identifier the registered packs provide, in the order the
    loops meet them. *)
Definition providedIds (packs : list SkillPack.t) : list string :=
  flatMap (fun pack => List.map fst (SkillPack.tools pack)) packs.

End SkillPackRegistry.

(** ** Agent factory ([src/mastra/agents/factory.ts]) *)

Module Factory.

Definition missingPack (mandate : Mandate) (packId : string) : string :=
  "Mandate " ++ SkillPackRegistry.quoted (Metadata.name (metadata mandate))
    ++ " requires skill pack " ++ SkillPackRegistry.quoted packId
    ++ " but it is not registered. Install it with: npm install @openmandate/skill-" ++ packId.

(** The loop over [mandate.metadata.skill_packs || []]. *)
Fixpoint loadPacks (mandate : Mandate) (skillRegistry : SkillPackRegistry.Packs)
    (requiredPacks : list string) : Completion (list SkillPack.t) :=
  match requiredPacks with
  | [] => Return []
  | packId :: requiredPacks' =>
      match SkillPackRegistry.get packId skillRegistry with
      | None => Throw (missingPack mandate packId)
      | Some pack =>
          match loadPacks mandate skillRegistry requiredPacks' with
          | Return loadedPacks => Return (pack :: loadedPacks)
          | Throw msg => Throw msg
          end
      end
  end.

(** Steps 2 and 3 of [createMandatedAgent] on a parsed mandate: the
    [tools] the agent is constructed with. *)
Definition allowedTools (mandate : Mandate) (skillRegistry : SkillPackRegistry.Packs)
  : Completion (gmap string Tool) :=
  match loadPacks mandate skillRegistry (default [] (Metadata.skill_packs (metadata mandate))) with
  | Throw msg => Throw msg
  | Return loadedPacks =>
      match SkillPackRegistry.getAllTools skillRegistry with
      | Throw msg => Throw msg
      | Return allTools =>
          Return (filterToolsByMandate (SkillPackRegistry.tool <$> allTools) mandate)
      end
  end.

End Factory.

(** ** Scope processor ([processors/scope.processor.ts]) *)
Module ScopeProcessor.

(** [registeredScopeKeywords]: per skill pack, the entries of its scope to
    keywords record, in registration order. *)
Definition registerScopeKeywords (skillPackId : string)
    (keywords : list (string * list string))
    (registeredScopeKeywords : list (string * list (string * list string)))
  : list (string * list (string * list string)) :=
  mapSet skillPackId keywords registeredScopeKeywords.

(** [Object.assign(target, source)] on records kept as their entries.
    Assigning to [__proto__] sets the prototype of the target and adds no
    entry.  (Keys that are array indices come first in the entries of a
    record; here the order only decides which scope the loop meets
    first.) *)
Definition Object_assign (target source : list (string * list string))
  : list (string * list string) :=
  fold_left (fun acc entry =>
               if String.eqb entry.1 "__proto__" then acc else mapSet entry.1 entry.2 acc)
    source target.

(** [allScopeKeywords], merged at construction. *)
Definition allScopeKeywordsOf
    (registeredScopeKeywords : list (string * list (string * list string)))
  : list (string * list string) :=
  fold_left (fun allScopeKeywords entry => Object_assign allScopeKeywords entry.2)
    registeredScopeKeywords [].

(** [keywords.some(kw => lowerText.includes(kw.toLowerCase()))] *)
Definition matched (lowerText : string) (keywords : list string) : bool :=
  existsb (fun kw => JS.includes lowerText (JS.toLowerCase kw)) keywords.

(** The loop over the merged record: allowed scopes are skipped, and the
    loop stops at the first other scope whose keywords match. *)
Fixpoint scopeLoop (mandate : Mandate) (host : Host) (lowerText : string)
    (entries : list (string * list string)) : Hook unit unit :=
  match entries with
  | [] => ret tt
  | (scope_, keywords) :: entries' =>
      if bool_decide (scope_ ∈ (list_to_set (ScopeConfig.allowed (scope mandate)) : gset string))
      then scopeLoop mandate host lowerText entries'
      else if matched lowerText keywords then
        match ScopeConfig.behavior_on_unsupported (scope mandate) with
        | refuse_scope => abort host (ScopeConfig.escalation_message (scope mandate)) false
        | escalate => abort host (ScopeConfig.escalation_message (scope mandate)) false
        | warn_and_attempt => ret tt
        end
      else scopeLoop mandate host lowerText entries'
  end.

Definition processInput
    (registeredScopeKeywords : list (string * list (string * list string)))
    (mandate : Mandate) (host : Host) (messages : list Message)
  : Hook unit (list Message) :=
  let allScopeKeywords := allScopeKeywordsOf registeredScopeKeywords in
  match findLast messages "user" with
  | None => ret messages
  | Some lastUserMsg =>
      let lowerText := JS.toLowerCase (textOf lastUserMsg) in
      scopeLoop mandate host lowerText allScopeKeywords ;;
      ret messages
  end.


End ScopeProcessor.

(** ** What the tool gate decides

    The four tests of the gate's loop body on one tool call, as one
    verdict, and the record the gate logs for a call that passes. *)
Module ToolGateVerdict.

(** [toolCall.toolName || toolCall.name] *)
Definition nameOf (toolCall : ToolCall) : option string :=
  orElse (toolName toolCall) (altName toolCall).

(** No keyword of a prohibited data category is found in the arguments
    (a found keyword that is the empty string does not count). *)
Definition dataClean (mandate : Mandate) (toolCall : ToolCall) : bool :=
  let argsString :=
    JS.toLowerCase (Json.stringify (ToolGateProcessor.argsOrEmpty (args toolCall))) in
  forallb
    (fun category =>
       let keywords :=
         match ToolGateProcessor.dataKeywords !! category with
         | Some kws => kws
         | None => [JS.underscoresToSpaces category]
         end in
       match List.find (fun kw => JS.includes argsString (JS.toLowerCase kw)) keywords with
       | Some found => String.eqb found ""
       | None => true
       end)
    (Prohibitions.data (prohibitions mandate)).

Definition admitted (mandate : Mandate) (toolCall : ToolCall) : bool :=
  match nameOf toolCall with
  | None => false
  | Some n =>
      bool_decide (n ∈ Capabilities.tools (capabilities mandate))
      && negb (bool_decide (n ∈ prohibitedExactOf mandate))
      && match List.find (fun prefix => JS.startsWith n prefix) (prohibitedPrefixesOf mandate) with
         | Some wildcardMatch => String.eqb wildcardMatch ""
         | None => true
         end
      && dataClean mandate toolCall
  end.


Definition isBlocked (entry : ToolGateProcessor.AuditRecord) : bool :=
  String.eqb (ToolGateProcessor.result entry) "blocked".

End ToolGateVerdict.

(** The audit log grew from [before], with one blocked record for each
    call of [abort]. *)
Definition everyAbortLogged {A} (before : list ToolGateProcessor.AuditRecord)
    (r : Run (list ToolGateProcessor.AuditRecord) A) : Prop :=
  exists extra,
    final r = (before ++ extra)%list
    /\ List.length (List.filter ToolGateVerdict.isBlocked extra) = List.length (aborts r).

(** ** Output validator ([processors/output-validator.processor.ts]) *)
Module OutputValidatorProcessor.

(** A registered entry: an action and the [test] of its pattern (the
    registered patterns carry no [g] or [y] flag, so [test] keeps no
    state). *)
Record ActionPattern := mkActionPattern {
  action : string;
  pattern : string -> bool;
}.

Definition registerProhibitedActionPatterns (skillPackId : string)
    (patterns : list ActionPattern) (registeredPatterns : list (string * list ActionPattern))
  : list (string * list ActionPattern) :=
  mapSet skillPackId patterns registeredPatterns.

Definition rephraseMessage (action : string) : string :=
  "I need to rephrase — I cannot " ++ JS.underscoresToSpaces action
    ++ ". Let me try again with proper framing.".

(** [[...registeredPatterns.values()].flat()] *)
Definition allPatternsOf (registeredPatterns : list (string * list ActionPattern))
  : list ActionPattern :=
  concat (List.map snd registeredPatterns).

Definition processOutputResult (registeredPatterns : list (string * list ActionPattern))
    (mandate : Mandate) (host : Host) (messages : list Message)
  : Hook unit (list Message) :=
  match findLast messages "assistant" with
  | None => ret messages
  | Some lastAssistantMsg =>
      let text := textOf lastAssistantMsg in
      when (0 <? List.length (Prohibitions.actions (prohibitions mandate)))%nat
        (let allPatterns := allPatternsOf registeredPatterns in
         forEach allPatterns (fun entry =>
           when (bool_decide (action entry ∈ Prohibitions.actions (prohibitions mandate))
                 && pattern entry text)
                (abort host (rephraseMessage (action entry)) false))) ;;
      ret messages
  end.

(** The registered entries for prohibited actions whose pattern matches
    the text, in order. *)
Definition violations (registeredPatterns : list (string * list ActionPattern))
    (mandate : Mandate) (text : string) : list ActionPattern :=
  List.filter
    (fun entry => bool_decide (action entry ∈ Prohibitions.actions (prohibitions mandate))
                  && pattern entry text)
    (allPatternsOf registeredPatterns).

End OutputValidatorProcessor.

(** ** Disclaimer processor ([processors/disclaimer.processor.ts]) *)
Module DisclaimerProcessor.

Import RegExp.

(** [.]: any character but a line terminator. *)
Definition anyChar : RegExp.t :=
  Class (fun c => negb (Ascii.eqb c "010" || Ascii.eqb c "013")).

(** [/\b(dear |to whom|re:|subject:)/i] *)
Definition documentPattern : RegExp.pattern :=
  re_i (Seq WordBoundary (alts (List.map lit ["dear "; "to whom"; "re:"; "subject:"]))).

(** [/\bunder\s+(section|§)|statute|legal right|regulation/i] *)
Definition claimPattern : RegExp.pattern :=
  re_i (alts [ Seq WordBoundary
                 (Seq (lit "under") (Seq (plus space) (alts [lit "section"; lit "§"])));
               lit "statute"; lit "legal right"; lit "regulation" ]).

(** What [reviewTriggerPatterns[trigger]] gives: one of the three
    patterns, nothing, or, for the name of a property every object
    inherits, a value that is truthy and has no [test] method. *)
Inductive ReviewTrigger :=
| Pattern (p : RegExp.pattern)
| Inherited
| Unknown.

Definition reviewTriggerPatterns (trigger : string) : ReviewTrigger :=
  if String.eqb trigger "finalize_document" then
    (* /\b(dear |to whom|re:|subject:|letter before action|formal grievance|cease and desist|DRAFT)/i *)
    Pattern (re_i (Seq WordBoundary
                     (alts (List.map lit
                        ["dear "; "to whom"; "re:"; "subject:"; "letter before action";
                         "formal grievance"; "cease and desist"; "DRAFT"]))))
  else if String.eqb trigger "send_correspondence" then
    (* /\b(send|dispatch|email|post|deliver)\b.*\b(letter|correspondence|notice)\b/i *)
    Pattern (re_i (Seq WordBoundary
                     (Seq (alts (List.map lit ["send"; "dispatch"; "email"; "post"; "deliver"]))
                        (Seq WordBoundary
                           (Seq (Star anyChar)
                              (Seq WordBoundary
                                 (Seq (alts (List.map lit ["letter"; "correspondence"; "notice"]))
                                    WordBoundary)))))))
  else if String.eqb trigger "provide_deadline" then
    (* /\b(deadline|expires?|time limit|within \d+ days|must act before)\b/i *)
    Pattern (re_i (Seq WordBoundary
                     (Seq (alts [ lit "deadline"; Seq (lit "expire") (opt (chr "s"));
                                  lit "time limit";
                                  Seq (lit "within ") (Seq (plus digit) (lit " days"));
                                  lit "must act before" ])
                        WordBoundary)))
  else if bool_decide (trigger ∈ SkillPackRegistry.inherited) then Inherited
  else Unknown.

Section WithEngine.

(** [new RegExp(src, "i")] for the custom pattern of a disclaimer: a
    SyntaxError ([None]) on a source that is not a pattern, otherwise the
    pattern, taken as its [test]. *)
Variable RegExp_i : string -> option (string -> bool).

Definition shouldTrigger (disclaimer : DisclaimerRule.t) (text : string) : Completion bool :=
  match DisclaimerRule.trigger disclaimer with
  | always => Return true
  | on_document_generation =>
      Return ((500 <? JS.length text) || RegExp.test documentPattern text)
  | on_claim | on_legal_claim => Return (RegExp.test claimPattern text)
  | custom =>
      match DisclaimerRule.custom_pattern disclaimer with
      | Some src =>
          if String.eqb src "" then Return false
          else match RegExp_i src with
               | Some test => Return (test text)
               | None => Throw "SyntaxError"
               end
      | None => Return false
      end
  end.

(** One pass of the loop over the disclaimers. *)
Definition inject (text : string) (disclaimer : DisclaimerRule.t) : Completion string :=
  match shouldTrigger disclaimer text with
  | Throw e => Throw e
  | Return triggered =>
      Return
        (if triggered && negb (JS.includes text (DisclaimerRule.text disclaimer))
         then
           let formatted :=
             lineFeed ++ lineFeed ++ "---" ++ lineFeed ++ "_" ++ DisclaimerRule.text disclaimer
               ++ "_" in
           let text1 :=
             match DisclaimerRule.placement disclaimer with
             | at_start | at_both =>
                 "_" ++ DisclaimerRule.text disclaimer ++ "_" ++ lineFeed ++ lineFeed ++ "---"
                   ++ lineFeed ++ lineFeed ++ text
             | at_end => text
             end in
           match DisclaimerRule.placement disclaimer with
           | at_end | at_both => text1 ++ formatted
           | at_start => text1
           end
         else text)
  end.

(** The custom pattern of the disclaimer, when it has one that is used,
    is a pattern for the engine: building it does not throw. *)
Definition accepted (disclaimer : DisclaimerRule.t) : Prop :=
  forall src,
    DisclaimerRule.trigger disclaimer = custom ->
    DisclaimerRule.custom_pattern disclaimer = Some src ->
    src <> "" ->
    is_Some (RegExp_i src).

(** The loop over the disclaimers; a pass that throws ends it. *)
Fixpoint injectAll (disclaimers : list DisclaimerRule.t) (text : string) : Completion string :=
  match disclaimers with
  | [] => Return text
  | disclaimer :: rest =>
      match inject text disclaimer with
      | Throw e => Throw e
      | Return text' => injectAll rest text'
      end
  end.

(** [required_before.some(trigger => pattern ? pattern.test(text) : false)];
    calling the missing [test] of an inherited value throws. *)
Fixpoint requiresReview (text : string) (required_before : list string) : Completion bool :=
  match required_before with
  | [] => Return false
  | trigger :: rest =>
      match reviewTriggerPatterns trigger with
      | Pattern p => if RegExp.test p text then Return true else requiresReview text rest
      | Inherited => Throw "TypeError"
      | Unknown => requiresReview text rest
      end
  end.

Definition reviewLine (humanReviewConfig : HumanReviewConfig.t) : string :=
  lineFeed ++ lineFeed ++ "---" ++ lineFeed ++ "⚠️ **"
    ++ HumanReviewConfig.review_prompt humanReviewConfig ++ "**".

(** The text the hook ends with, from the text of the message. *)
Definition finalText (mandate : Mandate) (text : string) : Completion string :=
  let humanReviewConfig := Requirements.human_review (requirements mandate) in
  match injectAll (Requirements.disclaimers (requirements mandate)) text with
  | Throw msg => Throw msg
  | Return text =>
      if (0 <? List.length (HumanReviewConfig.required_before humanReviewConfig))%nat then
        match requiresReview text (HumanReviewConfig.required_before humanReviewConfig) with
        | Throw msg => Throw msg
        | Return requires =>
            if requires
               && negb (JS.includes text (HumanReviewConfig.review_prompt humanReviewConfig))
            then Return (text ++ reviewLine humanReviewConfig)
            else Return text
        end
      else Return text
  end.

(** The hook takes no [abort]: it returns the messages or throws. *)
Definition processOutputResult (mandate : Mandate) (messages : list Message)
  : Completion (list Message) :=
  match findLastIndex messages "assistant" with
  | None => Return messages
  | Some lastAssistantIdx =>
      match messages !! lastAssistantIdx with
      | None => Throw "TypeError"
      | Some msg =>
          match finalText mandate (textOf msg) with
          | Throw e => Throw e
          | Return text =>
              Return (<[lastAssistantIdx := LimitsProcessor.withContent msg text]> messages)
          end
      end
  end.

End WithEngine.

End DisclaimerProcessor.

(** ** Further sample inputs

    Variations of the sample mandates for the properties beyond the
    tool filter and the composer. *)
Module MoreSamples.

Definition withProhibitedTools (m : Mandate) (ts : list string) : Mandate :=
  mkMandate (version m) (metadata m) (capabilities m)
            (Prohibitions.mk ts (Prohibitions.actions (prohibitions m))
                             (Prohibitions.data (prohibitions m)))
            (requirements m) (scope m) (escalation m) (limits m).

(** [tenant] with every tool prohibited. *)
Definition lockedDown : Mandate := withProhibitedTools Sample.tenant ["*"; "email-send"].

Definition ukLaw : SkillPack.t :=
  {| SkillPack.id := "uk-law";
     SkillPack.tools :=
       [ ("formal-letter", {| id := Some "formal-letter"; name := "Formal Letter Drafting" |});
         ("legislation-lookup", {| id := None; name := "Legislation Lookup" |}) ] |}.

Definition office : SkillPack.t :=
  {| SkillPack.id := "office";
     SkillPack.tools :=
       [ ("email-send", {| id := Some "email-send"; name := "Email Sender" |});
         ("calendar-create", {| id := Some "calendar-create"; name := "Calendar Create" |}) ] |}.

Definition registry : SkillPackRegistry.Packs := [("uk-law", ukLaw)].




(** [tenant] with room for one session only. *)
Definition oneSession : Mandate :=
  Sample.withLimits Sample.tenant (MandateLimits.mk 8000 10 100 1 500000 120).

(** A process in which another session is active. *)
Definition busyWorld : LimitsProcessor.World :=
  LimitsProcessor.mkWorld
    (LimitsProcessor.mkGlobals {["other" := LimitsProcessor.mkSession 1 1000]} 0
                               "Thu Jan 01 2026")
    (LimitsProcessor.mkRequestState None None) 0.

(** A process in which the default session has had one turn and [used]
    tokens were counted today. *)
Definition activeWorld (used : Z) : LimitsProcessor.World :=
  LimitsProcessor.mkWorld
    (LimitsProcessor.mkGlobals {["default" := LimitsProcessor.mkSession 1 1000]} used
                               "Thu Jan 01 2026")
    (LimitsProcessor.mkRequestState None None) 0.

(** A clock that reads a quarter of an hour later than [Sample.clock]. *)
Definition lateClock : LimitsProcessor.Clock :=
  LimitsProcessor.mkClock (fun n => 901000 + Z.of_nat n) (fun _ => "Thu Jan 01 2026").

Definition withDataAccess (m : Mandate) (rules : list DataAccessRule.t) : Mandate :=
  mkMandate (version m) (metadata m)
            (Capabilities.mk (Capabilities.tools (capabilities m)) rules
                             (Capabilities.output_types (capabilities m)))
            (prohibitions m) (requirements m) (scope m) (escalation m) (limits m).

(** [tenant] with a second scope that may be written to. *)
Definition withDrafts : Mandate :=
  withDataAccess Sample.tenant
    [ {| DataAccessRule.scope := "user_uploads";
         DataAccessRule.permissions := [read];
         DataAccessRule.file_types := None;
         DataAccessRule.databases := None |};
      {| DataAccessRule.scope := "drafts";
         DataAccessRule.permissions := [read; write];
         DataAccessRule.file_types := None;
         DataAccessRule.databases := None |} ].

(** Two of the entries the UK law pack registers, with the alternatives
    of their patterns that the sample texts exercise. *)
Definition actionPatterns : list (string * list OutputValidatorProcessor.ActionPattern) :=
  [ ("uk-law",
     [ OutputValidatorProcessor.mkActionPattern "provide_legal_advice"
         (RegExp.test
            (RegExp.re_i
               (RegExp.Seq RegExp.WordBoundary
                  (RegExp.Seq
                     (RegExp.alts [RegExp.lit "I advise you to"; RegExp.lit "my legal advice is"])
                     RegExp.WordBoundary))));
       OutputValidatorProcessor.mkActionPattern "make_legal_determinations"
         (RegExp.test
            (RegExp.re_i
               (RegExp.Seq RegExp.WordBoundary
                  (RegExp.Seq
                     (RegExp.alts [RegExp.lit "you will win"; RegExp.lit "guaranteed outcome"])
                     RegExp.WordBoundary)))) ]) ].

Definition withDisclaimers (m : Mandate) (ds : list DisclaimerRule.t) : Mandate :=
  mkMandate (version m) (metadata m) (capabilities m) (prohibitions m)
            (Requirements.mk ds (Requirements.citations (requirements m))
                             (Requirements.human_review (requirements m))
                             (Requirements.audit (requirements m)))
            (scope m) (escalation m) (limits m).

(** [tenant] with a disclaimer at both ends and one on legal claims. *)
Definition disclaiming : Mandate :=
  withDisclaimers Sample.tenant
    [ {| DisclaimerRule.trigger := always;
         DisclaimerRule.text := "This is not legal advice.";
         DisclaimerRule.placement := at_both;
         DisclaimerRule.custom_pattern := None |};
      {| DisclaimerRule.trigger := on_legal_claim;
         DisclaimerRule.text := "Check the statute yourself.";
         DisclaimerRule.placement := at_end;
         DisclaimerRule.custom_pattern := None |} ].

Definition withTools (m : Mandate) (ts : list string) : Mandate :=
  mkMandate (version m) (metadata m)
            (Capabilities.mk ts (Capabilities.data_access (capabilities m))
                             (Capabilities.output_types (capabilities m)))
            (prohibitions m) (requirements m) (scope m) (escalation m) (limits m).

(** A mandate that whitelists a mailer and a letter tool and prohibits
    [email-*]. *)
Definition noEmail : Mandate :=
  withProhibitedTools (withTools Sample.tenant ["emailer"; "email-send"; "formal-letter"])
                      ["email-*"].

Definition mailTools : gmap string Tool :=
  list_to_map
    [ ("emailer", {| id := Some "emailer"; name := "Mailer" |});
      ("email-send", {| id := None; name := "Email Sender" |});
      ("formal-letter", {| id := Some "formal-letter"; name := "Formal Letter Drafting" |}) ].


(** [tenant] with a blocked source whose label is not a pattern. *)
Definition blocksCpp : Mandate :=
  mkMandate (version Sample.tenant) (metadata Sample.tenant) (capabilities Sample.tenant)
            (prohibitions Sample.tenant)
            (Requirements.mk (Requirements.disclaimers (requirements Sample.tenant))
               {| CitationRequirements.required := true;
                  CitationRequirements.format := inline;
                  CitationRequirements.min_per_claim := 1;
                  CitationRequirements.allowed_sources := ["uk_primary_legislation"];
                  CitationRequirements.blocked_sources := ["wikipedia"; "c++"] |}
               (Requirements.human_review (requirements Sample.tenant))
               (Requirements.audit (requirements Sample.tenant)))
            (scope Sample.tenant) (escalation Sample.tenant) (limits Sample.tenant).

(** [tenant] with a custom disclaimer whose pattern is an unbalanced
    parenthesis. *)
Definition unbalanced : Mandate :=
  withDisclaimers Sample.tenant
    [ {| DisclaimerRule.trigger := custom;
         DisclaimerRule.text := "Check the statute yourself.";
         DisclaimerRule.placement := at_end;
         DisclaimerRule.custom_pattern := Some "(" |} ].

End MoreSamples.

(** * Proofs *)

Section ToolFilterFacts.

Lemma toolPasses_spec mandate i :
  toolPasses mandate i = true <->
    i ∈ Capabilities.tools (capabilities mandate)
    /\ ~ (i ∈ Prohibitions.tools (prohibitions mandate) /\ JS.includes i "*" = false)
    /\ ~ (exists t, t ∈ Prohibitions.tools (prohibitions mandate)
                    /\ JS.includes t "*" = true
                    /\ JS.startsWith i (stripWildcard t) = true).
Proof.
  unfold toolPasses, prohibitedExactOf, prohibitedPrefixesOf.
  rewrite !andb_true_iff, !negb_true_iff, bool_decide_eq_true, bool_decide_eq_false.
  rewrite !elem_of_list_to_set.
  rewrite <- not_true_iff_false, existsb_exists.
  split.
  - intros [[Hw He] Hp]. split; [done|]. split.
    + intros [Hin Hs]. apply He. apply list_elem_of_In, filter_In.
      split; [by apply list_elem_of_In | by rewrite Hs].
    + intros (t & Hin & Hs & Hpre). apply Hp. exists (stripWildcard t).
      split; [|done]. apply in_map, filter_In.
      split; [by apply list_elem_of_In | done].
  - intros (Hw & He & Hp). repeat split; [done | |].
    + intros Hin. apply list_elem_of_In, filter_In in Hin as [Hin Hs].
      apply He. split; [by apply list_elem_of_In |].
      by apply negb_true_iff in Hs.
    + intros (p & Hin & Hpre). apply in_map_iff in Hin as (t & <- & Hin).
      apply filter_In in Hin as [Hin Hs].
      apply Hp. exists t. by rewrite <- list_elem_of_In in Hin.
Qed.

End ToolFilterFacts.

Section WildcardFacts.

Lemma no_star_cons c p :
  JS.includes (String c p) "*" = false ->
  String.prefix "*" (String c p) = false /\ c <> "*"%char /\ JS.includes p "*" = false.
Proof.
  change (JS.includes (String c p) "*")
    with (String.prefix "*" (String c p) || JS.includes p "*").
  intros [Hhead Hrest]%orb_false_iff. split; [done|]. split; [|done].
  intros ->. cbn [String.prefix] in Hhead.
  destruct (Ascii.ascii_dec "*" "*"); [by destruct p | done].
Qed.

Lemma replace_star_absent p : JS.includes p "*" = false -> JS.replace p "*" "" = p.
Proof.
  induction p as [|c p IH]; intros Hp; [reflexivity|].
  apply no_star_cons in Hp as (Hhead & Hc & Hp).
  change (JS.replace (String c p) "*" "")
    with (if String.prefix "*" (String c p)
          then "" ++ JS.drop (String.length "*") (String c p)
          else String c (JS.replace p "*" "")).
  by rewrite Hhead, IH.
Qed.

Lemma prefix_marker_false c p :
  JS.includes (String c p) "*" = false -> String.prefix "-*" (String c (p ++ "-*")) = false.
Proof.
  intros Hp. apply no_star_cons in Hp as (_ & _ & Hp).
  cbn [String.prefix]. destruct (Ascii.ascii_dec "-" c) as [_|_]; [|done].
  destruct p as [|d p].
  - change ("" ++ "-*") with "-*". cbn [String.prefix].
    by destruct (Ascii.ascii_dec "*" "-").
  - change (String d p ++ "-*") with (String d (p ++ "-*")).
    apply no_star_cons in Hp as (_ & Hd & _). cbn [String.prefix].
    destruct (Ascii.ascii_dec "*" d) as [Heq|_]; [by subst d | done].
Qed.

Lemma replace_marker p :
  JS.includes p "*" = false -> JS.replace (p ++ "-*") "-*" "" = p.
Proof.
  induction p as [|c p IH]; intros Hp; [reflexivity|].
  pose proof (prefix_marker_false c p Hp) as Hprefix.
  apply no_star_cons in Hp as (_ & Hc & Hp).
  change (String c p ++ "-*") with (String c (p ++ "-*")).
  change (JS.replace (String c (p ++ "-*")) "-*" "")
    with (if String.prefix "-*" (String c (p ++ "-*"))
          then "" ++ JS.drop (String.length "-*") (String c (p ++ "-*"))
          else String c (JS.replace (p ++ "-*") "-*" "")).
  by rewrite Hprefix, IH.
Qed.

(** The prefix a prohibition entry [p-*] stands for is [p], without the
    hyphen. *)
Lemma stripWildcard_marker p : JS.includes p "*" = false -> stripWildcard (p ++ "-*") = p.
Proof.
  intros Hp. unfold stripWildcard. rewrite (replace_marker p Hp).
  by apply replace_star_absent.
Qed.

Lemma includes_star_marker p : JS.includes (p ++ "-*") "*" = true.
Proof.
  induction p as [|c p IH]; [reflexivity|].
  change (String c p ++ "-*") with (String c (p ++ "-*")).
  change (JS.includes (String c (p ++ "-*")) "*")
    with (String.prefix "*" (String c (p ++ "-*")) || JS.includes (p ++ "-*") "*").
  by rewrite IH, orb_true_r.
Qed.

End WildcardFacts.

(** C1. Tool resolution is exclusionary: the resolved tool record offers an
    identifier exactly when the identifier is whitelisted, offered by the
    source record, is not one of the prohibition entries without a wildcard,
    and does not start with the stripped form of a prohibition entry that
    has a wildcard.  Stripping removes the first hyphen-star, then the
    first star left: the entry [p-*], for a [p] without a star, stands for
    the prefix [p], so that it excludes every identifier that starts with
    [p], the hyphen not being part of the prefix. *)
Theorem filterToolsByMandate_exclusionary (allTools : gmap string Tool) (mandate : Mandate) (i : string) :
  (offers (filterToolsByMandate allTools mandate) i <->
     i ∈ Capabilities.tools (capabilities mandate)
     /\ offers allTools i
     /\ ~ (i ∈ Prohibitions.tools (prohibitions mandate) /\ JS.includes i "*" = false)
     /\ ~ (exists t, t ∈ Prohibitions.tools (prohibitions mandate)
                     /\ JS.includes t "*" = true
                     /\ JS.startsWith i (stripWildcard t) = true))
  /\ (forall t, stripWildcard t = JS.replace (JS.replace t "-*" "") "*" "")
  /\ (forall p, JS.includes p "*" = false -> stripWildcard (p ++ "-*") = p)
  /\ (forall p, JS.includes p "*" = false ->
        p ++ "-*" ∈ Prohibitions.tools (prohibitions mandate) ->
        JS.startsWith i p = true ->
        ~ offers (filterToolsByMandate allTools mandate) i).
Proof.
  assert (Hiff : offers (filterToolsByMandate allTools mandate) i <->
     i ∈ Capabilities.tools (capabilities mandate)
     /\ offers allTools i
     /\ ~ (i ∈ Prohibitions.tools (prohibitions mandate) /\ JS.includes i "*" = false)
     /\ ~ (exists t, t ∈ Prohibitions.tools (prohibitions mandate)
                     /\ JS.includes t "*" = true
                     /\ JS.startsWith i (stripWildcard t) = true)).
  { unfold offers, filterToolsByMandate. split.
    - intros (key & tool & Hl & Hid).
      apply map_lookup_filter_Some in Hl as [Hl Hp]. simpl in Hp.
      apply Is_true_true, toolPasses_spec in Hp. rewrite Hid in Hp.
      destruct Hp as (? & ? & ?). eauto 10.
    - intros (Hw & (key & tool & Hl & Hid) & He & Hp).
      exists key, tool. split; [|done].
      apply map_lookup_filter_Some. split; [done|]. simpl.
      apply Is_true_true, toolPasses_spec. rewrite Hid. done. }
  split; [exact Hiff|]. split; [done|]. split; [exact stripWildcard_marker|].
  intros p Hp Hin Hstarts Hoffered.
  apply Hiff in Hoffered as (_ & _ & _ & Hwild). apply Hwild.
  exists (p ++ "-*"). split; [done|]. split; [apply includes_star_marker|].
  by rewrite stripWildcard_marker.
Qed.

(** The mailer of the sample is whitelisted and offered, and [email-*]
    stands for the prefix [email]: the letter tool is resolved, the
    mailer is not. *)
Lemma filterToolsByMandate_exclusionary_witness :
  stripWildcard ("email" ++ "-*") = "email"
  /\ offers (filterToolsByMandate MoreSamples.mailTools MoreSamples.noEmail) "formal-letter"
  /\ filterToolsByMandate MoreSamples.mailTools MoreSamples.noEmail !! "formal-letter"
     = Some {| id := Some "formal-letter"; name := "Formal Letter Drafting" |}
  /\ filterToolsByMandate MoreSamples.mailTools MoreSamples.noEmail !! "emailer" = None
  /\ filterToolsByMandate MoreSamples.mailTools MoreSamples.noEmail !! "email-send" = None.
Proof.
  destruct (filterToolsByMandate_exclusionary MoreSamples.mailTools MoreSamples.noEmail
              "formal-letter") as (Hiff & _ & Hstrip & _).
  split; [by apply Hstrip|]. split.
  - apply Hiff. split; [|split; [|split]].
    + vm_compute. do 2 apply list_elem_of_further. apply list_elem_of_here.
    + exists "formal-letter", {| id := Some "formal-letter"; name := "Formal Letter Drafting" |}.
      split; reflexivity.
    + intros [Hin _]. vm_compute in Hin. apply list_elem_of_singleton in Hin. discriminate Hin.
    + intros (t & Hin & _ & Hstarts). vm_compute in Hin.
      apply list_elem_of_singleton in Hin. subst t. vm_compute in Hstarts. discriminate Hstarts.
  - vm_compute. repeat split.
Defined.

Section ComposerFacts.

Lemma Math_min_le x xs : Math_min x xs <= x /\ forall y, y ∈ xs -> Math_min x xs <= y.
Proof.
  unfold Math_min. revert x. induction xs as [|a xs IH]; intros x; simpl.
  - split; [lia|]. intros y Hy. by apply elem_of_nil in Hy.
  - destruct (IH (Z.min x a)) as [H1 H2]. split; [lia|].
    intros y Hy. apply elem_of_cons in Hy as [->|Hy]; [lia | by apply H2].
Qed.

Lemma Math_min_in x xs : Math_min x xs ∈ x :: xs.
Proof.
  unfold Math_min. revert x. induction xs as [|a xs IH]; intros x; simpl.
  - apply list_elem_of_here.
  - specialize (IH (Z.min x a)). apply elem_of_cons in IH as [->|IH].
    + destruct (Z.min_spec x a) as [[_ ->]|[_ ->]];
        [apply list_elem_of_here | apply list_elem_of_further, list_elem_of_here].
    + by do 2 apply list_elem_of_further.
Qed.

Lemma Math_min_isMinimum x xs : isMinimumOf (Math_min x xs) (x :: xs).
Proof.
  split; [apply Math_min_in|].
  intros y Hy. destruct (Math_min_le x xs) as [H1 H2].
  apply elem_of_cons in Hy as [->|Hy]; auto.
Qed.

Lemma intersectSets_elem first all x :
  x ∈ intersectSets first all -> forall l, l ∈ all -> x ∈ l.
Proof.
  unfold intersectSets. intros Hx l Hl.
  apply list_elem_of_In, filter_In in Hx as [_ Hall].
  rewrite forallb_forall in Hall.
  specialize (Hall (list_to_set l)).
  assert (Hin : In (list_to_set l : gset string) (List.map list_to_set all)).
  { apply in_map. by apply list_elem_of_In. }
  apply Hall, bool_decide_eq_true in Hin. by apply elem_of_list_to_set in Hin.
Qed.

Lemma deref_cons heap r refs ms :
  deref heap (r :: refs) = Some ms ->
  exists m ms', ms = m :: ms' /\ heap !! r = Some m /\ deref heap refs = Some ms'.
Proof.
  unfold deref. intros H. apply mapM_Some in H.
  inversion H as [|? m ? ms' Hm Hrest]; subst.
  exists m, ms'. split; [done|]. split; [done|]. by apply mapM_Some.
Qed.

Lemma lookup_alloc heap m : (alloc heap m).2 !! (alloc heap m).1 = Some m.
Proof. unfold alloc. simpl. apply list_lookup_middle. done. Qed.

(** What the call returns on an array of two or more mandates. *)
Lemma composeMandates_many today heap r1 r2 refs base rest :
  deref heap (r1 :: r2 :: refs) = Some (base :: rest) ->
  composeMandates today heap (r1 :: r2 :: refs)
  = Return (alloc heap (composeFields today base rest)).
Proof. unfold deref, composeMandates. by intros ->. Qed.

Lemma map_agree {B} (R : Mandate -> Mandate -> Prop) (f : Mandate -> B) l l' :
  Forall2 R l l' -> (forall a b, R a b -> f a = f b) -> List.map f l = List.map f l'.
Proof.
  intros HF Hf. induction HF as [|a b l l' Hab _ IH]; simpl; [done|].
  by rewrite (Hf a b Hab), IH.
Qed.

Lemma composeFields_ignores today base rest rest' :
  Forall2 sameApartFromBaseOnly rest rest' ->
  composeFields today base rest = composeFields today base rest'.
Proof.
  intros HF. unfold composeFields, flatMap. cbn [List.map].
  repeat match goal with
  | |- context [List.map ?f rest] =>
      rewrite (map_agree sameApartFromBaseOnly f rest rest' HF)
        by (intros a b (?&?&?&?&?&?&?&?&?&?);
            unfold toolsOf, scopesOf, limitOf, nameOf, retentionOf; congruence)
  end.
  reflexivity.
Qed.

End ComposerFacts.

(** C2. Composition is restriction-only: for a non-empty array of mandates
    the call returns a mandate whose six limits are each the minimum of
    that limit over the inputs, and every tool of its whitelist is in the
    whitelist of every input. *)
Theorem composeMandates_restriction_only
    (today : string) (heap : list Mandate) (refs : list nat) (ms : list Mandate)
    (Hrefs : deref heap refs = Some ms) (Hne : refs <> []) :
  exists r heap' m,
    composeMandates today heap refs = Return (r, heap')
    /\ heap' !! r = Some m
    /\ isMinimumOf (MandateLimits.max_tokens_per_turn (limits m))
         (List.map (limitOf MandateLimits.max_tokens_per_turn) ms)
    /\ isMinimumOf (MandateLimits.max_tool_calls_per_turn (limits m))
         (List.map (limitOf MandateLimits.max_tool_calls_per_turn) ms)
    /\ isMinimumOf (MandateLimits.max_turns_per_session (limits m))
         (List.map (limitOf MandateLimits.max_turns_per_session) ms)
    /\ isMinimumOf (MandateLimits.max_concurrent_sessions (limits m))
         (List.map (limitOf MandateLimits.max_concurrent_sessions) ms)
    /\ isMinimumOf (MandateLimits.token_budget_daily (limits m))
         (List.map (limitOf MandateLimits.token_budget_daily) ms)
    /\ isMinimumOf (MandateLimits.timeout_seconds (limits m))
         (List.map (limitOf MandateLimits.timeout_seconds) ms)
    /\ (forall tool, tool ∈ toolsOf m -> forall mi, mi ∈ ms -> tool ∈ toolsOf mi).
Proof.
  destruct refs as [|r1 [|r2 refs]]; [done | |].
  - apply deref_cons in Hrefs as (m & ms' & -> & Hm & Hnil).
    unfold deref in Hnil. simpl in Hnil. injection Hnil as <-.
    exists r1, heap, m. simpl.
    assert (Hone : forall v : Z, isMinimumOf v [v]).
    { intros v. split; [apply list_elem_of_here|].
      intros x Hx. apply list_elem_of_singleton in Hx. lia. }
    repeat (split; [by auto|]).
    intros tool Ht mi Hmi. apply list_elem_of_singleton in Hmi. by subst.
  - destruct (deref_cons _ _ _ _ Hrefs) as (base & rest & -> & _ & _).
    rewrite (composeMandates_many _ _ _ _ _ _ _ Hrefs).
    eexists _, _, _. split; [by rewrite <- surjective_pairing|].
    split; [apply lookup_alloc|].
    cbn [composeFields limits capabilities MandateLimits.max_tokens_per_turn
         MandateLimits.max_tool_calls_per_turn MandateLimits.max_turns_per_session
         MandateLimits.max_concurrent_sessions MandateLimits.token_budget_daily
         MandateLimits.timeout_seconds].
    repeat (split; [apply Math_min_isMinimum|]).
    intros tool Ht mi Hmi. unfold toolsOf at 1 in Ht. cbn in Ht.
    apply (intersectSets_elem _ _ _ Ht).
    change (toolsOf base :: List.map toolsOf rest) with (List.map toolsOf (base :: rest)).
    apply list_elem_of_In, (in_map toolsOf). by apply list_elem_of_In.
Qed.

(** The composer on the two sample mandates: the whitelist is intersected
    and the limits are the smaller ones. *)
Example composeFields_sample :
  let m := composeFields "2026-01-01" Sample.tenant [Sample.contract] in
  toolsOf m = ["legislation-lookup"]
  /\ limits m = {| MandateLimits.max_tokens_per_turn := 4000;
                   MandateLimits.max_tool_calls_per_turn := 10;
                   MandateLimits.max_turns_per_session := 50;
                   MandateLimits.max_concurrent_sessions := 5;
                   MandateLimits.token_budget_daily := 200000;
                   MandateLimits.timeout_seconds := 60 |}
  /\ nameOf m = "composed-tenant-rights-contract-reviewer".
Proof. vm_compute. auto. Qed.

(** The filter on the sample tools: [email-send] is whitelisted and
    prohibited, the calendar and payment tools fall under a wildcard. *)
Example filterToolsByMandate_sample :
  map_to_list (filterToolsByMandate Sample.allTools Sample.tenant)
  ≡ₚ [ ("formal-letter", {| id := Some "formal-letter"; name := "Formal Letter Drafting" |});
       ("legislation-lookup", {| id := Some "legislation-lookup"; name := "Legislation Lookup" |}) ].
Proof. vm_compute. apply perm_swap || reflexivity. Qed.

Lemma composeMandates_restriction_only_witness :
  exists r heap' m,
    composeMandates "2026-01-01" Sample.heap [0%nat; 1%nat] = Return (r, heap')
    /\ heap' !! r = Some m
    /\ isMinimumOf (MandateLimits.max_tokens_per_turn (limits m)) [8000; 4000].
Proof.
  destruct (composeMandates_restriction_only "2026-01-01" Sample.heap [0%nat; 1%nat]
              [Sample.tenant; Sample.contract] eq_refl ltac:(discriminate))
    as (r & heap' & m & H1 & H2 & H3 & _).
  exists r, heap', m. auto.
Defined.

(** C9. The call throws exactly on the empty array, and on an array of one
    mandate it returns that very object (the same reference) and leaves the
    heap as it was. *)
Theorem composeMandates_zero_or_one
    (today : string) (heap : list Mandate) (refs : list nat)
    (Hrefs : is_Some (deref heap refs)) :
  ((exists msg, composeMandates today heap refs = Throw msg) <-> refs = [])
  /\ (forall only, refs = [only] -> composeMandates today heap refs = Return (only, heap)).
Proof.
  split.
  - split.
    + intros [msg Hthrow]. destruct refs as [|r1 [|r2 refs]]; [done | done |].
      destruct Hrefs as [ms Hms].
      destruct (deref_cons _ _ _ _ Hms) as (base & rest & -> & _ & _).
      by rewrite (composeMandates_many _ _ _ _ _ _ _ Hms) in Hthrow.
    + intros ->. by eexists.
  - by intros only ->.
Qed.

Lemma composeMandates_zero_or_one_witness :
  composeMandates "2026-01-01" Sample.heap [1%nat] = Return (1%nat, Sample.heap).
Proof.
  apply (composeMandates_zero_or_one "2026-01-01" Sample.heap [1%nat]
           (mk_is_Some _ _ eq_refl)).
  reflexivity.
Defined.

(** C10. For two or more mandates the composed mandate carries the first
    mandate's data-access rules, citation requirements and human-review
    configuration as they are, and replacing these three fields in the later
    mandates leaves the composed mandate the same. *)
Theorem composeMandates_base_only_fields
    (today : string) (heap : list Mandate) (refs : list nat)
    (base : Mandate) (rest : list Mandate)
    (Hrefs : deref heap refs = Some (base :: rest)) (Hmany : rest <> []) :
  exists r heap' m,
    composeMandates today heap refs = Return (r, heap')
    /\ heap' !! r = Some m
    /\ Capabilities.data_access (capabilities m) = Capabilities.data_access (capabilities base)
    /\ Requirements.citations (requirements m) = Requirements.citations (requirements base)
    /\ Requirements.human_review (requirements m)
       = Requirements.human_review (requirements base)
    /\ (forall heap2 refs2 rest2,
          deref heap2 refs2 = Some (base :: rest2) ->
          Forall2 sameApartFromBaseOnly rest rest2 ->
          exists r2 heap2',
            composeMandates today heap2 refs2 = Return (r2, heap2')
            /\ heap2' !! r2 = Some m).
Proof.
  destruct refs as [|r1 [|r2 refs]].
  - done.
  - apply deref_cons in Hrefs as (? & ? & [= <- <-] & _ & Hnil).
    unfold deref in Hnil. simpl in Hnil. by injection Hnil as <-.
  - rewrite (composeMandates_many _ _ _ _ _ _ _ Hrefs).
    eexists _, _, _. split; [by rewrite <- surjective_pairing|].
    split; [apply lookup_alloc|]. do 3 (split; [reflexivity|]).
    intros heap2 refs2 rest2 Hrefs2 Hsame.
    destruct refs2 as [|q1 [|q2 refs2]].
    + done.
    + apply deref_cons in Hrefs2 as (? & ? & [= <- <-] & _ & Hnil).
      unfold deref in Hnil. simpl in Hnil. injection Hnil as <-.
      inversion Hsame; subst. done.
    + rewrite (composeMandates_many _ _ _ _ _ _ _ Hrefs2).
      eexists _, _. split; [by rewrite <- surjective_pairing|].
      rewrite <- (composeFields_ignores today base rest rest2 Hsame).
      apply lookup_alloc.
Qed.

Lemma composeMandates_base_only_fields_witness :
  exists r heap' m,
    composeMandates "2026-01-01" Sample.heap [0%nat; 1%nat] = Return (r, heap')
    /\ heap' !! r = Some m
    /\ Requirements.citations (requirements m) = Sample.citationsA
    /\ (exists r2 heap2',
          composeMandates "2026-01-01" [Sample.contract'; Sample.tenant] [1%nat; 0%nat]
          = Return (r2, heap2')
          /\ heap2' !! r2 = Some m).
Proof.
  destruct (composeMandates_base_only_fields "2026-01-01" Sample.heap [0%nat; 1%nat]
              Sample.tenant [Sample.contract] eq_refl ltac:(discriminate))
    as (r & heap' & m & H1 & H2 & _ & H4 & _ & H6).
  exists r, heap', m. repeat split; [exact H1 | exact H2 | exact H4 |].
  apply (H6 [Sample.contract'; Sample.tenant] [1%nat; 0%nat] [Sample.contract'] eq_refl).
  constructor; [|constructor]. repeat split.
Defined.

Section HookFacts.

Context {S A B : Type}.

Lemma aborts_bind (m : Hook S A) (f : A -> Hook S B) (s : S) :
  exists rest, aborts (bind m f s) = (aborts (m s) ++ rest)%list.
Proof.
  unfold bind. destruct (outcome (m s)); simpl; eauto.
  all: exists []; by rewrite app_nil_r.
Qed.

Lemma abortsWith_bind (m : Hook S A) (f : A -> Hook S B) (s : S) call :
  abortsWith (m s) call -> abortsWith (bind m f s) call.
Proof.
  unfold abortsWith. intros H. destruct (aborts_bind m f s) as [rest ->].
  destruct (aborts (m s)); [done|]. done.
Qed.

(** Stepping through a hook: what [bind] does once its first part is
    known. *)
Lemma bind_step (m : Hook S A) (f : A -> Hook S B) (s s' : S) (a : A) :
  m s = mkRun (Returned a) s' [] -> bind m f s = f a s'.
Proof. unfold bind. intros ->. simpl. by destruct (f a s'). Qed.

Lemma bind_aborted (m : Hook S A) (f : A -> Hook S B) (s s' : S) log :
  m s = mkRun Aborted s' log -> bind m f s = mkRun Aborted s' log.
Proof. unfold bind. by intros ->. Qed.

Lemma bind_logged (m : Hook S A) (f : A -> Hook S B) (s s' : S) (a : A) log :
  m s = mkRun (Returned a) s' log ->
  bind m f s = mkRun (outcome (f a s')) (final (f a s')) (log ++ aborts (f a s'))%list.
Proof. unfold bind. by intros ->. Qed.

End HookFacts.

Section EscalationFacts.

Import EscalationProcessor.

Lemma abort_abortsWith {S} host reason retry (s : S) :
  abortsWith (abort host reason retry s) (mkAbort reason retry).
Proof. reflexivity. Qed.

(** The loop does what its first matching entry says and nothing else. *)
Lemma topicLoop_firstMatch host lowerText entries :
  topicLoop host lowerText entries tt =
    match firstMatch lowerText entries with
    | Some trigger =>
        when (refuses (EscalationTrigger.action trigger))
             (abort host (messageWithResources trigger) false) tt
    | None => ret tt tt
    end.
Proof.
  unfold firstMatch. induction entries as [|[key [keywords trigger]] entries IH]; simpl.
  - reflexivity.
  - destruct (matched lowerText keywords); simpl; [reflexivity | exact IH].
Qed.


End EscalationFacts.


(** The loop also stops at a first matching trigger that does not refuse:
    here the first trigger warns, the second refuses and matches too, and
    the stage returns the messages without any call of [abort]. *)
Example escalation_warning_ends_the_scan :
  let messages := [Sample.user "Eviction notice and criminal defence"] in
  EscalationProcessor.processInput [] Sample.warnThenRefuse Runtime messages tt
  = mkRun (Returned messages) tt []
  /\ EscalationProcessor.processInput [] Sample.warnThenRefuse Harness messages tt
     = mkRun (Returned messages) tt [].
Proof. vm_compute. split; reflexivity. Qed.

(** What the stage does when the first matching entry does not refuse: no
    topic trigger aborts, and the aborts of the stage are those of the
    distress check. *)
Lemma escalation_first_match_without_refusal
    (registeredExpansions : list (string * gmap string (list string)))
    (mandate : Mandate) (host : Host) (messages : list Message)
    (lastUserMsg : Message) (trigger : EscalationTrigger.t) :
  findLast messages "user" = Some lastUserMsg ->
  EscalationProcessor.firstMatch (JS.toLowerCase (textOf lastUserMsg))
    (EscalationProcessor.topicKeywordsOf
       (EscalationProcessor.mergeExpansions registeredExpansions) mandate)
  = Some trigger ->
  EscalationProcessor.refuses (EscalationTrigger.action trigger) = false ->
  aborts (EscalationProcessor.processInput registeredExpansions mandate host messages tt)
  = aborts (EscalationProcessor.distressCheck host (JS.toLowerCase (textOf lastUserMsg))
              (EscalationProcessor.distressTriggerOf mandate) tt).
Proof.
  intros Hlast Hfirst Hact. unfold EscalationProcessor.processInput. rewrite Hlast.
  unfold bind at 1. rewrite topicLoop_firstMatch, Hfirst, Hact. simpl.
  unfold bind.
  destruct (EscalationProcessor.distressCheck host _ _ tt) as [[[]| |e] [] log]; simpl;
    by rewrite ?app_nil_r.
Qed.

Section EscalationTable.

Import EscalationProcessor.








End EscalationTable.



Section LimitsFacts.

Import LimitsProcessor.

Ltac hnorm :=
  cbv beta;
  cbn [globals state readings activeSessions dailyTokensUsed lastResetDate turns startedAt
       __sessionId __turnStartTime].
Ltac hstep := erewrite bind_step by reflexivity; hnorm.

Lemma reset_run clock g st t :
  exists daily',
    resetDailyIfNeeded clock (mkWorld g st t)
    = mkRun (Returned tt)
        (mkWorld (mkGlobals (activeSessions g) daily' (dateStringAt clock t)) st (S t)) []
    /\ (daily' = dailyTokensUsed g \/ daily' = 0).
Proof.
  destruct g as [ss d dt]. unfold resetDailyIfNeeded.
  hstep. hstep. simpl.
  destruct (String.eqb_spec (dateStringAt clock t) dt) as [->|Hne]; simpl; eauto.
Qed.

Lemma openSession_present mandate clock host sid (sessions : gmap string Session) d dt st t :
  is_Some (sessions !! sid) ->
  openSession mandate clock host sid (mkWorld (mkGlobals sessions d dt) st t)
  = mkRun (Returned tt) (mkWorld (mkGlobals sessions d dt) st t) [].
Proof.
  intros Hs. unfold openSession. hstep.
  by rewrite (bool_decide_eq_true_2 _ Hs).
Qed.

Lemma openSession_absent mandate clock host sid (sessions : gmap string Session) d dt st t :
  sessions !! sid = None ->
  Z.of_nat (size sessions) < MandateLimits.max_concurrent_sessions (limits mandate) ->
  openSession mandate clock host sid (mkWorld (mkGlobals sessions d dt) st t)
  = mkRun (Returned tt)
      (mkWorld (mkGlobals (<[sid := mkSession 0 (nowAt clock t)]> sessions) d dt) st (S t)) [].
Proof.
  intros Hs Hroom. unfold openSession. hstep.
  rewrite bool_decide_eq_false_2 by (rewrite Hs; apply is_Some_None).
  cbn [negb when].
  rewrite (proj2 (Z.leb_gt _ _) Hroom). hstep. hstep. reflexivity.
Qed.

Lemma countTurn_ok mandate clock host sid messages (sessions : gmap string Session)
    d dt st t n started :
  sessions !! sid = Some (mkSession n started) ->
  n + 1 <= MandateLimits.max_turns_per_session (limits mandate) ->
  d < MandateLimits.token_budget_daily (limits mandate) ->
  nowAt clock t - started <= 1000 * MandateLimits.timeout_seconds (limits mandate) ->
  countTurn mandate clock host sid messages (mkWorld (mkGlobals sessions d dt) st t)
  = mkRun (Returned messages)
      (mkWorld (mkGlobals (<[sid := mkSession (n + 1) started]> sessions) d dt)
               (mkRequestState (Some sid) (Some (nowAt clock (S t)))) (S (S t))) [].
Proof.
  intros Hs Hn Hd Hc. unfold countTurn. hstep. rewrite Hs. hnorm.
  hstep. rewrite (proj2 (Z.ltb_ge _ _) Hn). hstep. hstep.
  rewrite (proj2 (Z.ltb_ge _ _) Hc). hstep. hstep.
  rewrite (proj2 (Z.leb_gt _ _) Hd), andb_false_r. hstep. hstep. hstep. hstep.
  reflexivity.
Qed.

Lemma countTurn_limit mandate clock host sid messages (sessions : gmap string Session)
    d dt st t n started :
  sessions !! sid = Some (mkSession n started) ->
  MandateLimits.max_turns_per_session (limits mandate) < n + 1 ->
  d < MandateLimits.token_budget_daily (limits mandate) ->
  nowAt clock t - started <= 1000 * MandateLimits.timeout_seconds (limits mandate) ->
  let r := countTurn mandate clock host sid messages (mkWorld (mkGlobals sessions d dt) st t) in
  aborts r = [mkAbort (sessionLimitMessage (limits mandate)) false]
  /\ activeSessions (globals (final r)) !! sid = None
  /\ outcome r = match host with Runtime => Aborted | Harness => Returned messages end.
Proof.
  intros Hs Hn Hd Hc r. subst r. unfold countTurn. hstep. rewrite Hs. hnorm.
  hstep. rewrite (proj2 (Z.ltb_lt _ _) Hn). cbn [when].
  destruct host.
  - erewrite bind_aborted.
    2:{ hstep. reflexivity. }
    simpl. split; [done|]. split; [apply lookup_delete_eq | done].
  - erewrite bind_logged.
    2:{ hstep. reflexivity. }
    hnorm. hstep.
    rewrite (proj2 (Z.ltb_ge _ _) Hc). hstep. hstep.
    rewrite (proj2 (Z.leb_gt _ _) Hd), andb_false_r. hstep. hstep. hstep. hstep.
    simpl. split; [done|]. split; [apply lookup_delete_eq | done].
Qed.

(** A turn on a session that is not active yet, with room for it: four
    readings of the clock, the second is the session's start. *)
Lemma processInput_opens mandate clock host messages (sessions : gmap string Session)
    d dt st t :
  sessions !! sessionIdOf st = None ->
  Z.of_nat (size sessions) < MandateLimits.max_concurrent_sessions (limits mandate) ->
  1 <= MandateLimits.max_turns_per_session (limits mandate) ->
  d < MandateLimits.token_budget_daily (limits mandate) ->
  0 < MandateLimits.token_budget_daily (limits mandate) ->
  nowAt clock (S (S t)) - nowAt clock (S t)
    <= 1000 * MandateLimits.timeout_seconds (limits mandate) ->
  exists d' dt' st',
    processInput mandate clock host messages (mkWorld (mkGlobals sessions d dt) st t)
    = mkRun (Returned messages)
        (mkWorld (mkGlobals
                    (<[sessionIdOf st := mkSession 1 (nowAt clock (S t))]>
                       (<[sessionIdOf st := mkSession 0 (nowAt clock (S t))]> sessions))
                    d' dt')
                 st' (S (S (S (S t))))) []
    /\ d' < MandateLimits.token_budget_daily (limits mandate).
Proof.
  intros Hs Hroom Hturns Hd Hpos Hc. unfold processInput.
  destruct (reset_run clock (mkGlobals sessions d dt) st t) as (d' & Hreset & Hd').
  erewrite bind_step by exact Hreset. hnorm. hstep.
  erewrite bind_step by (by apply openSession_absent). hnorm.
  assert (d' < MandateLimits.token_budget_daily (limits mandate))
    by (destruct Hd' as [->| ->]; simpl; lia).
  erewrite countTurn_ok; [| apply lookup_insert_eq | simpl; lia | done | done].
  eexists _, _, _. split; [reflexivity | done].
Qed.

(** A turn on an active session that has turns left: three readings of
    the clock. *)
Lemma processInput_counts mandate clock host messages (sessions : gmap string Session)
    d dt st t n started :
  sessions !! sessionIdOf st = Some (mkSession n started) ->
  n + 1 <= MandateLimits.max_turns_per_session (limits mandate) ->
  d < MandateLimits.token_budget_daily (limits mandate) ->
  0 < MandateLimits.token_budget_daily (limits mandate) ->
  nowAt clock (S t) - started <= 1000 * MandateLimits.timeout_seconds (limits mandate) ->
  exists d' dt' st',
    processInput mandate clock host messages (mkWorld (mkGlobals sessions d dt) st t)
    = mkRun (Returned messages)
        (mkWorld (mkGlobals (<[sessionIdOf st := mkSession (n + 1) started]> sessions) d' dt')
                 st' (S (S (S t)))) []
    /\ d' < MandateLimits.token_budget_daily (limits mandate).
Proof.
  intros Hs Hn Hd Hpos Hc. unfold processInput.
  destruct (reset_run clock (mkGlobals sessions d dt) st t) as (d' & Hreset & Hd').
  erewrite bind_step by exact Hreset. hnorm. hstep.
  erewrite bind_step by (by apply openSession_present). hnorm.
  assert (d' < MandateLimits.token_budget_daily (limits mandate))
    by (destruct Hd' as [->| ->]; simpl; lia).
  erewrite countTurn_ok; [| exact Hs | done | done | done].
  eexists _, _, _. split; [reflexivity | done].
Qed.

(** A turn on an active session that has used its turns. *)
Lemma processInput_limit mandate clock host messages (sessions : gmap string Session)
    d dt st t n started :
  sessions !! sessionIdOf st = Some (mkSession n started) ->
  MandateLimits.max_turns_per_session (limits mandate) < n + 1 ->
  d < MandateLimits.token_budget_daily (limits mandate) ->
  0 < MandateLimits.token_budget_daily (limits mandate) ->
  nowAt clock (S t) - started <= 1000 * MandateLimits.timeout_seconds (limits mandate) ->
  let r := processInput mandate clock host messages (mkWorld (mkGlobals sessions d dt) st t) in
  aborts r = [mkAbort (sessionLimitMessage (limits mandate)) false]
  /\ activeSessions (globals (final r)) !! sessionIdOf st = None
  /\ outcome r = match host with Runtime => Aborted | Harness => Returned messages end.
Proof.
  intros Hs Hn Hd Hpos Hc r. subst r. unfold processInput.
  destruct (reset_run clock (mkGlobals sessions d dt) st t) as (d' & Hreset & Hd').
  erewrite bind_step by exact Hreset. hnorm. hstep.
  erewrite bind_step by (by apply openSession_present). hnorm.
  assert (d' < MandateLimits.token_budget_daily (limits mandate))
    by (destruct Hd' as [->| ->]; simpl; lia).
  apply (countTurn_limit mandate clock host (sessionIdOf st) messages sessions d'
           (dateStringAt clock t) st (S t) n started); auto.
Qed.

Lemma estimateTokens_ceil text :
  4 * (estimateTokens text - 1) < JS.length text <= 4 * estimateTokens text.
Proof.
  unfold estimateTokens.
  pose proof (Z_div_mod_eq_full (- JS.length text) 4).
  pose proof (Z.mod_pos_bound (- JS.length text) 4 ltac:(lia)).
  lia.
Qed.

Lemma findLast_index messages r m :
  findLast messages r = Some m ->
  exists idx, findLastIndex messages r = Some idx /\ messages !! idx = Some m.
Proof. unfold findLast. destruct (findLastIndex messages r); [eauto | done]. Qed.

End LimitsFacts.

(** C4. Limits session boundary: with [max_turns_per_session = 2], a session
    that is not active yet and has room to start, a daily budget that is
    not used up and clock readings that stay within the timeout of one
    another during the three turns, three turns in a row on the same
    session identifier go: the first two return their messages without any
    abort, the third aborts, not retryable, with the session-limit message,
    and the session is no longer in the map of active sessions. *)
Theorem limits_session_boundary
    (mandate : Mandate) (clock : LimitsProcessor.Clock) (host : Host)
    (messages1 messages2 messages3 : list Message)
    (w0 : LimitsProcessor.World) (state2 state3 : LimitsProcessor.RequestState)
    (Hmax : MandateLimits.max_turns_per_session (limits mandate) = 2)
    (Hschema : limitsInSchema (limits mandate))
    (Hnew : LimitsProcessor.activeSessions (LimitsProcessor.globals w0)
              !! LimitsProcessor.sessionIdOf (LimitsProcessor.state w0) = None)
    (Hroom : Z.of_nat (size (LimitsProcessor.activeSessions (LimitsProcessor.globals w0)))
             < MandateLimits.max_concurrent_sessions (limits mandate))
    (Hbudget : LimitsProcessor.dailyTokensUsed (LimitsProcessor.globals w0)
               < MandateLimits.token_budget_daily (limits mandate))
    (Hclock : forall i j : nat,
        (i <= LimitsProcessor.readings w0 + 8)%nat ->
        (j <= LimitsProcessor.readings w0 + 8)%nat ->
        LimitsProcessor.nowAt clock j - LimitsProcessor.nowAt clock i
        <= 1000 * MandateLimits.timeout_seconds (limits mandate))
    (Hsame2 : LimitsProcessor.sessionIdOf state2
              = LimitsProcessor.sessionIdOf (LimitsProcessor.state w0))
    (Hsame3 : LimitsProcessor.sessionIdOf state3
              = LimitsProcessor.sessionIdOf (LimitsProcessor.state w0)) :
  let r1 := LimitsProcessor.processInput mandate clock host messages1 w0 in
  let r2 := LimitsProcessor.processInput mandate clock host messages2
              (LimitsProcessor.nextRequest (final r1) state2) in
  let r3 := LimitsProcessor.processInput mandate clock host messages3
              (LimitsProcessor.nextRequest (final r2) state3) in
  passes r1 messages1
  /\ passes r2 messages2
  /\ aborts r3
     = [mkAbort "Session limit reached (2 turns). Please start a new conversation." false]
  /\ LimitsProcessor.activeSessions (LimitsProcessor.globals (final r3))
       !! LimitsProcessor.sessionIdOf (LimitsProcessor.state w0) = None.
Proof.
  destruct w0 as [[sessions d dt] st t].
  simpl in Hnew, Hroom, Hbudget, Hsame2, Hsame3, Hclock.
  destruct Hschema as (_ & _ & Hturns & _ & Hpos & _).
  intros r1 r2 r3. subst r1 r2 r3. unfold LimitsProcessor.nextRequest.
  destruct (processInput_opens mandate clock host messages1 sessions d dt st t)
    as (d1 & dt1 & st1 & Hr1 & Hd1);
    [done | done | lia | done | lia | apply Hclock; lia |].
  rewrite Hr1.
  cbn [final LimitsProcessor.globals LimitsProcessor.readings LimitsProcessor.state].
  destruct (processInput_counts mandate clock host messages2
              (<[LimitsProcessor.sessionIdOf st := LimitsProcessor.mkSession 1
                   (LimitsProcessor.nowAt clock (S t))]>
                 (<[LimitsProcessor.sessionIdOf st := LimitsProcessor.mkSession 0
                      (LimitsProcessor.nowAt clock (S t))]> sessions))
              d1 dt1 state2 (S (S (S (S t)))) 1 (LimitsProcessor.nowAt clock (S t)))
    as (d2 & dt2 & st2 & Hr2 & Hd2);
    [rewrite Hsame2; apply lookup_insert_eq | lia | done | lia | apply Hclock; lia |].
  rewrite Hr2.
  cbn [final LimitsProcessor.globals LimitsProcessor.readings LimitsProcessor.state].
  split; [done|]. split; [done|].
  rewrite <- Hsame3.
  edestruct (processInput_limit mandate clock host messages3) as (Hab & Hgone & _);
    [ | | exact Hd2 | | | ].
  5:{ split; [|exact Hgone].
      rewrite Hab. unfold LimitsProcessor.sessionLimitMessage. by rewrite Hmax. }
  - rewrite Hsame2, Hsame3. apply lookup_insert_eq.
  - simpl. lia.
  - lia.
  - apply Hclock; lia.
Qed.

Lemma limits_session_boundary_witness :
  let r1 := LimitsProcessor.processInput Sample.twoTurns Sample.clock Runtime
              [Sample.user "Hi"] Sample.freshWorld in
  let r2 := LimitsProcessor.processInput Sample.twoTurns Sample.clock Runtime
              [Sample.user "How?"]
              (LimitsProcessor.nextRequest (final r1) (LimitsProcessor.mkRequestState None None)) in
  let r3 := LimitsProcessor.processInput Sample.twoTurns Sample.clock Runtime
              [Sample.user "Why?"]
              (LimitsProcessor.nextRequest (final r2) (LimitsProcessor.mkRequestState None None)) in
  passes r1 [Sample.user "Hi"]
  /\ passes r2 [Sample.user "How?"]
  /\ aborts r3
     = [mkAbort "Session limit reached (2 turns). Please start a new conversation." false]
  /\ LimitsProcessor.activeSessions (LimitsProcessor.globals (final r3)) !! "default" = None.
Proof.
  apply (limits_session_boundary Sample.twoTurns Sample.clock Runtime
           [Sample.user "Hi"] [Sample.user "How?"] [Sample.user "Why?"] Sample.freshWorld
           (LimitsProcessor.mkRequestState None None)
           (LimitsProcessor.mkRequestState None None)).
  - reflexivity.
  - unfold limitsInSchema. simpl. lia.
  - reflexivity.
  - simpl. rewrite map_size_empty. lia.
  - simpl. lia.
  - intros i j Hi Hj. simpl in *. lia.
  - reflexivity.
  - reflexivity.
Defined.



Section StringFacts.

Lemma prefix_split sub : forall s, String.prefix sub s = true -> exists post, s = sub ++ post.
Proof.
  induction sub as [|c sub IH]; intros s H.
  - by exists s.
  - destruct s as [|d s]; [done|]. simpl in H.
    destruct (Ascii.ascii_dec c d) as [->|]; [|done].
    destruct (IH s H) as [post ->]. by exists post.
Qed.

Lemma includes_split sub : forall s,
  JS.includes s sub = true -> exists pre post, s = pre ++ sub ++ post.
Proof.
  induction s as [|c s IH]; intros H.
  - change (JS.includes "" sub) with (String.prefix sub "" || false) in H.
    rewrite orb_false_r in H. destruct (prefix_split _ _ H) as [post ->].
    by exists "", post.
  - change (JS.includes (String c s) sub)
      with (String.prefix sub (String c s) || JS.includes s sub) in H.
    apply orb_true_iff in H as [H|H].
    + destruct (prefix_split _ _ H) as [post ->]. by exists "", post.
    + destruct (IH H) as (pre & post & ->). by exists (String c pre), post.
Qed.

Lemma append_assoc (a b c : string) : (a ++ b) ++ c = a ++ (b ++ c).
Proof.
  induction a as [|x a IH]; [reflexivity|].
  change (String x ((a ++ b) ++ c) = String x (a ++ (b ++ c))). by rewrite IH.
Qed.

End StringFacts.

Section RegExpFacts.

Import RegExp.



End RegExpFacts.

Section CitationFacts.

Import CitationProcessor.





End CitationFacts.




Section QuietHooks.

(** Hooks without state of their own: what [abort] was called with tells
    all. *)
Lemma aborts_bind_unit {A B} (m : Hook unit A) (f : A -> Hook unit B) :
  aborts (bind m f tt)
  = (aborts (m tt)
       ++ match outcome (m tt) with
          | Returned a => aborts (f a tt)
          | _ => []
          end)%list.
Proof.
  unfold bind. destruct (m tt) as [[a| |e] [] log]; simpl; by rewrite ?app_nil_r.
Qed.

Lemma outcome_bind_unit {A B} (m : Hook unit A) (f : A -> Hook unit B) a :
  outcome (m tt) = Returned a -> outcome (bind m f tt) = outcome (f a tt).
Proof. unfold bind. destruct (m tt) as [o [] log]; simpl. by intros ->. Qed.

Lemma forEach_aborts_Forall {A} (P : AbortCall -> Prop) (xs : list A)
    (body : A -> Hook unit unit) :
  (forall x, x ∈ xs -> Forall P (aborts (body x tt))) ->
  Forall P (aborts (forEach xs body tt)).
Proof.
  induction xs as [|x xs IH]; intros H; simpl; [constructor|].
  rewrite aborts_bind_unit. apply Forall_app. split.
  - apply H, list_elem_of_here.
  - destruct (outcome (body x tt)); [|constructor|constructor].
    apply IH. intros y Hy. by apply H, list_elem_of_further.
Qed.

Lemma forEach_quiet_returns {A} (xs : list A) (body : A -> Hook unit unit) :
  (forall x, x ∈ xs -> aborts (body x tt) = [] -> outcome (body x tt) = Returned tt) ->
  aborts (forEach xs body tt) = [] -> outcome (forEach xs body tt) = Returned tt.
Proof.
  induction xs as [|x xs IH]; intros H; simpl; [done|].
  rewrite aborts_bind_unit. intros Hq. apply app_eq_nil in Hq as [Hx Hrest].
  pose proof (H x (list_elem_of_here _ _) Hx) as Hret.
  rewrite Hret in Hrest. rewrite (outcome_bind_unit _ _ _ Hret).
  apply IH; [|done]. intros y Hy. by apply H, list_elem_of_further.
Qed.

Lemma forEach_aborts_nonempty {A} (xs : list A) (body : A -> Hook unit unit) x :
  (forall y, y ∈ xs -> aborts (body y tt) = [] -> outcome (body y tt) = Returned tt) ->
  x ∈ xs -> aborts (body x tt) <> [] -> aborts (forEach xs body tt) <> [].
Proof.
  induction xs as [|y xs IH]; intros H Hx Hloud; [by apply elem_of_nil in Hx|].
  simpl. rewrite aborts_bind_unit. intros Hq. apply app_eq_nil in Hq as [Hy Hrest].
  apply elem_of_cons in Hx as [->|Hx]; [done|].
  rewrite (H y (list_elem_of_here _ _) Hy) in Hrest.
  revert Hrest. apply IH; [|done|done].
  intros z Hz. by apply H, list_elem_of_further.
Qed.

End QuietHooks.

Section DataAccessFacts.

Import DataAccessProcessor.

Lemma checkValue_run host allowed value :
  aborts (checkValue host allowed value tt)
  = match checkedExtension value with
    | Some ext =>
        if bool_decide (ext ∈ allowed) then []
        else [mkAbort (fileTypeMessage allowed ext) true]
    | None => []
    end
  /\ (aborts (checkValue host allowed value tt) = [] ->
      outcome (checkValue host allowed value tt) = Returned tt).
Proof.
  unfold checkValue. destruct (checkedExtension value) as [ext|]; [|done].
  destruct (bool_decide (ext ∈ allowed)); simpl; [done|]. by destruct host.
Qed.

Lemma nonempty_length (l : list string) : (0 <? List.length l)%nat = true <-> l <> [].
Proof. destruct l; simpl; split; done. Qed.

(** The write check of a call: silent, or one retryable abort with the
    write message. *)
Lemma writeCheck_run host (b : bool) :
  Forall (eq (mkAbort writeMessage true))
         (aborts (when b (abort (S := unit) host writeMessage true) tt))
  /\ (aborts (when b (abort (S := unit) host writeMessage true) tt) = [] ->
      outcome (when b (abort (S := unit) host writeMessage true) tt) = Returned tt).
Proof. destruct b, host; simpl; split; auto; done. Qed.

Lemma checkCall_sound mandate host toolCall :
  Forall (fun c =>
            retry c = true
            /\ (c = mkAbort writeMessage true
                \/ exists value ext,
                     value ∈ argStrings toolCall
                     /\ checkedExtension value = Some ext
                     /\ (ext ∉ allowedExtensionsOf mandate)
                     /\ allowedExtensionsOf mandate <> []
                     /\ c = mkAbort (fileTypeMessage (allowedExtensionsOf mandate) ext) true))
         (aborts (checkCall mandate host toolCall tt)).
Proof.
  unfold checkCall. rewrite aborts_bind_unit. apply Forall_app. split.
  - destruct (0 <? List.length (allowedExtensionsOf mandate))%nat eqn:Hne; [|constructor].
    apply nonempty_length in Hne. cbn [when].
    apply forEach_aborts_Forall. intros value Hvalue.
    rewrite (proj1 (checkValue_run _ _ _)).
    destruct (checkedExtension value) as [ext|] eqn:Hext; [|constructor].
    destruct (bool_decide (ext ∈ allowedExtensionsOf mandate)) eqn:Hin; constructor; [|done].
    apply bool_decide_eq_false in Hin. split; [done|]. right. eauto 10.
  - destruct (outcome _); [|constructor|constructor].
    destruct (negb _); cbn [when]; [|constructor]. cbv zeta.
    eapply Forall_impl; [apply writeCheck_run|].
    intros c <-. split; [done | by left].
Qed.

Lemma checkCall_quiet_returns mandate host toolCall :
  aborts (checkCall mandate host toolCall tt) = [] ->
  outcome (checkCall mandate host toolCall tt) = Returned tt.
Proof.
  unfold checkCall. rewrite aborts_bind_unit. intros Hq.
  apply app_eq_nil in Hq as [Hfirst Hrest].
  assert (Hret : outcome
            (when (0 <? List.length (allowedExtensionsOf mandate))%nat
               (forEach (argStrings toolCall)
                  (checkValue host (allowedExtensionsOf mandate))) tt) = Returned tt).
  { destruct (0 <? List.length (allowedExtensionsOf mandate))%nat; [|done].
    cbn [when] in *. apply forEach_quiet_returns; [|done].
    intros value _. apply checkValue_run. }
  rewrite Hret in Hrest. rewrite (outcome_bind_unit _ _ _ Hret).
  destruct (negb _); cbn [when] in *; [|done]. cbv zeta in *.
  by apply writeCheck_run.
Qed.


End DataAccessFacts.


(** C7, amended.  When the batch has more calls than
    [max_tool_calls_per_turn], the gate aborts the batch with the "too many
    tool calls" message and [retry: true], whatever [retryCount] is: the
    gate does not count retries for this check, and its abort never
    becomes a hard one.  Under the runtime nothing else happens: the
    rejection is recorded in the audit log, no call of the batch is
    examined and this is the only abort. *)
Theorem toolGate_call_limit_retry_not_capped
    (mandate : Mandate) (host : Host) (retryCount : Z) (messages : list Message)
    (calls : list ToolCall) (auditLog : list ToolGateProcessor.AuditRecord)
    (Hschema : 1 <= MandateLimits.max_tool_calls_per_turn (limits mandate))
    (Hover : MandateLimits.max_tool_calls_per_turn (limits mandate)
             < Z.of_nat (List.length calls)) :
  let cap := MandateLimits.max_tool_calls_per_turn (limits mandate) in
  let r := ToolGateProcessor.processOutputStep mandate host retryCount messages (Some calls)
             auditLog in
  let rejection := mkAbort ("Too many tool calls. Maximum is " ++ JS.showZ cap ++ ".") true in
  abortsWith r rejection
  /\ (host = Runtime ->
      outcome r = Aborted
      /\ aborts r = [rejection]
      /\ final r
         = (auditLog
              ++ [ToolGateProcessor.mkAudit "tool_call_limit" "blocked"
                    (JS.showZ (Z.of_nat (List.length calls)) ++ " calls exceeds limit of "
                       ++ JS.showZ cap)])%list).
Proof.
  intros cap r rejection. subst r rejection cap.
  unfold ToolGateProcessor.processOutputStep.
  destruct calls as [|call calls]; [simpl in Hover; lia|].
  rewrite (proj2 (Z.ltb_lt _ _) Hover). cbn [when]. split.
  - apply abortsWith_bind. unfold ToolGateProcessor.log.
    erewrite bind_step by reflexivity. reflexivity.
  - intros ->. unfold ToolGateProcessor.log, bind, modify, abort. cbn. done.
Qed.

(** A batch of two calls against a limit of one, before any retry and
    after five. *)
Lemma toolGate_call_limit_retry_not_capped_witness :
  abortsWith
    (ToolGateProcessor.processOutputStep Sample.oneCall Harness 0 []
       (Some [Sample.call "formal-letter" (Json.Obj []);
              Sample.call "legislation-lookup" (Json.Obj [])]) [])
    (mkAbort "Too many tool calls. Maximum is 1." true)
  /\ final (ToolGateProcessor.processOutputStep Sample.oneCall Runtime 5 []
              (Some [Sample.call "formal-letter" (Json.Obj []);
                     Sample.call "legislation-lookup" (Json.Obj [])]) [])
     = [ToolGateProcessor.mkAudit "tool_call_limit" "blocked" "2 calls exceeds limit of 1"].
Proof.
  split.
  - apply (toolGate_call_limit_retry_not_capped Sample.oneCall Harness 0 []
             [Sample.call "formal-letter" (Json.Obj []);
              Sample.call "legislation-lookup" (Json.Obj [])] []).
    + simpl. lia.
    + simpl. lia.
  - apply (toolGate_call_limit_retry_not_capped Sample.oneCall Runtime 5 []
             [Sample.call "formal-letter" (Json.Obj []);
              Sample.call "legislation-lookup" (Json.Obj [])] []).
    + simpl. lia.
    + simpl. lia.
    + reflexivity.
Defined.

(** C7, as found in the code: the batch of two calls against a limit of
    one, once two retries have been made and once three have: the abort of
    the gate is still the retryable one, and it is the only one. *)
Lemma toolGate_call_limit_soft_after_two_retries :
  let batch := Some [Sample.call "formal-letter" (Json.Obj []);
                     Sample.call "legislation-lookup" (Json.Obj [])] in
  MandateLimits.max_tool_calls_per_turn (limits Sample.oneCall) = 1
  /\ aborts (ToolGateProcessor.processOutputStep Sample.oneCall Runtime 2 [] batch [])
     = [mkAbort "Too many tool calls. Maximum is 1." true]
  /\ aborts (ToolGateProcessor.processOutputStep Sample.oneCall Runtime 3 [] batch [])
     = [mkAbort "Too many tool calls. Maximum is 1." true]
  /\ head (aborts (ToolGateProcessor.processOutputStep Sample.oneCall Harness 2 [] batch []))
     = Some (mkAbort "Too many tool calls. Maximum is 1." true).
Proof. vm_compute. repeat split. Qed.

(** The whitelist check of the same gate does look at [retryCount]: at
    [retryCount = 2] a call of a tool outside the whitelist is aborted
    without retry. *)
Example toolGate_whitelist_abort_hardens :
  aborts (ToolGateProcessor.processOutputStep Sample.oneCall Runtime 1 []
            (Some [Sample.call "shell-execute" (Json.Obj [])]) [])
  = [mkAbort ("Tool " ++ ToolGateProcessor.quoted "shell-execute"
                ++ " is not available. Only use: formal-letter, legislation-lookup, email-send")
             true]
  /\ aborts (ToolGateProcessor.processOutputStep Sample.oneCall Runtime 2 []
               (Some [Sample.call "shell-execute" (Json.Obj [])]) [])
     = [mkAbort "Unable to complete this request within my operating guidelines." false].
Proof. vm_compute. split; reflexivity. Qed.

(** The data-access processor on the repository's test inputs. *)
Example dataAccess_sample :
  DataAccessProcessor.checkedExtension "contract.pdf" = Some ".pdf"
  /\ DataAccessProcessor.checkedExtension "archive.tar.gz" = Some ".gz"
  /\ DataAccessProcessor.checkedExtension "README" = None
  /\ DataAccessProcessor.checkedExtension "notes.abcdef" = None
  /\ DataAccessProcessor.checkedExtension ".env" = None
  /\ aborts (DataAccessProcessor.processOutputStep Sample.tenant Runtime []
               (Some [Sample.call "doc-reader" (Json.Obj [("file", Json.Str "contract.pdf")])]) tt)
     = []
  /\ aborts (DataAccessProcessor.processOutputStep Sample.tenant Runtime []
               (Some [Sample.call "doc-reader" (Json.Obj [("file", Json.Str "script.js")])]) tt)
     = [mkAbort (DataAccessProcessor.fileTypeMessage [".pdf"; ".docx"] ".js") true].
Proof. vm_compute. repeat split. Qed.

Section ExtensionFacts.

Import RegExp.







End ExtensionFacts.

(** The wildcard marker of a prohibition entry, removed. *)
Example stripWildcard_sample :
  stripWildcard "calendar-*" = "calendar"
  /\ stripWildcard "payment*" = "payment"
  /\ stripWildcard "*" = ""
  /\ toolPasses Sample.tenant "calendar-create" = false
  /\ toolPasses Sample.tenant "email-send" = false
  /\ toolPasses Sample.tenant "formal-letter" = true.
Proof. vm_compute. repeat split. Qed.

(** * Further properties of the composer *)

Section ComposerSets.

Lemma uniqFrom_elem xs : forall seen x,
  x ∈ JS.uniqFrom seen xs <-> x ∈ xs /\ x ∉ seen.
Proof.
  induction xs as [|y xs IH]; intros seen x; simpl.
  - split; [by intros H%elem_of_nil | by intros [H%elem_of_nil _]].
  - destruct (bool_decide (y ∈ seen)) eqn:Hy.
    + apply bool_decide_eq_true in Hy. rewrite IH, elem_of_cons.
      split; [by intros [? ?]; auto |]. intros [[->|?] ?]; [done | auto].
    + apply bool_decide_eq_false in Hy. rewrite !elem_of_cons, IH, elem_of_cons.
      split.
      * intros [->|[? Hn]]; [auto|]. split; [auto|]. intros ?. apply Hn. auto.
      * intros [[->|?] Hn]; [auto|]. destruct (decide (x = y)) as [->|Hne]; [auto|].
        right. split; [done|]. by intros [?|?].
Qed.

Lemma uniqFrom_NoDup xs : forall seen, NoDup (JS.uniqFrom seen xs).
Proof.
  induction xs as [|y xs IH]; intros seen; simpl; [constructor|].
  destruct (bool_decide (y ∈ seen)); [apply IH|].
  constructor; [|apply IH]. rewrite uniqFrom_elem. intros [_ Hn]. apply Hn.
  apply list_elem_of_here.
Qed.

Lemma uniq_elem xs x : x ∈ JS.uniq xs <-> x ∈ xs.
Proof.
  unfold JS.uniq. rewrite uniqFrom_elem. split; [by intros [? _]|].
  intros Hx. split; [done|]. by intros Hnil%elem_of_nil.
Qed.

Lemma uniq_NoDup xs : NoDup (JS.uniq xs).
Proof. apply uniqFrom_NoDup. Qed.

Lemma flatMap_elem {A B} (f : A -> list B) (xs : list A) (x : B) :
  x ∈ flatMap f xs <-> exists a, a ∈ xs /\ x ∈ f a.
Proof.
  unfold flatMap. induction xs as [|a xs IH]; simpl.
  - split; [by intros H%elem_of_nil | by intros (? & H%elem_of_nil & _)].
  - rewrite elem_of_app, IH. split.
    + intros [?|(b & ? & ?)]; [exists a | exists b]; split; auto;
        [apply list_elem_of_here | by apply list_elem_of_further].
    + intros (b & [->|?]%elem_of_cons & ?); [by left | right; eauto].
Qed.

Lemma intersectSets_iff first all x :
  x ∈ intersectSets first all <-> x ∈ first /\ forall l, l ∈ all -> x ∈ l.
Proof.
  split.
  - intros Hx. split; [|by apply (intersectSets_elem first)].
    unfold intersectSets in Hx. apply list_elem_of_In, filter_In in Hx as [Hx _].
    by apply uniq_elem, list_elem_of_In.
  - intros [Hfirst Hall]. unfold intersectSets. apply list_elem_of_In, filter_In.
    split; [by apply list_elem_of_In, uniq_elem|].
    apply forallb_forall. intros set Hset. apply in_map_iff in Hset as (l & <- & Hl).
    apply bool_decide_eq_true, elem_of_list_to_set, Hall. by apply list_elem_of_In.
Qed.

Lemma intersectSets_NoDup first all : NoDup (intersectSets first all).
Proof.
  unfold intersectSets. apply NoDup_ListNoDup, List.NoDup_filter, NoDup_ListNoDup, uniq_NoDup.
Qed.

(** What the call returns on two or more mandate objects. *)
Lemma composeMandates_fresh today heap refs base rest :
  deref heap refs = Some (base :: rest) -> rest <> [] ->
  exists r heap',
    composeMandates today heap refs = Return (r, heap')
    /\ heap' !! r = Some (composeFields today base rest).
Proof.
  intros Hrefs Hmany. destruct refs as [|r1 [|r2 refs]].
  - done.
  - apply deref_cons in Hrefs as (? & ? & [= <- <-] & _ & Hnil).
    unfold deref in Hnil. simpl in Hnil. by injection Hnil as <-.
  - rewrite (composeMandates_many _ _ _ _ _ _ _ Hrefs).
    eexists _, _. split; [by rewrite <- surjective_pairing | apply lookup_alloc].
Qed.

Lemma composeFields_allows today base rest tool :
  toolPasses (composeFields today base rest) tool = true <->
  forall m, m ∈ base :: rest -> toolPasses m tool = true.
Proof.
  rewrite toolPasses_spec.
  cbn [composeFields capabilities prohibitions Capabilities.tools Prohibitions.tools].
  rewrite intersectSets_iff.
  setoid_rewrite uniq_elem. setoid_rewrite flatMap_elem.
  split.
  - intros (Hin & Hexact & Hwild) m Hm. apply toolPasses_spec. split; [|split].
    + apply (proj2 Hin). apply list_elem_of_In, (in_map toolsOf), list_elem_of_In, Hm.
    + intros [Hp Hstar]. apply Hexact. split; [|done]. by exists m.
    + intros (t & Hp & Hstar & Hpre). apply Hwild. exists t. split; [|done]. by exists m.
  - intros Hall. split; [|split].
    + split.
      * apply (toolPasses_spec base tool), Hall, list_elem_of_here.
      * intros l Hl. apply list_elem_of_In, in_map_iff in Hl as (m & <- & Hm).
        apply list_elem_of_In in Hm. by apply (toolPasses_spec m tool), Hall.
    + intros [(m & Hm & Hp) Hstar].
      destruct (proj1 (toolPasses_spec m tool) (Hall m Hm)) as (_ & Hexact & _).
      by apply Hexact.
    + intros (t & (m & Hm & Hp) & Hstar & Hpre).
      destruct (proj1 (toolPasses_spec m tool) (Hall m Hm)) as (_ & _ & Hwild).
      apply Hwild. by exists t.
Qed.

End ComposerSets.

(** X1. Composition and tool resolution: the mandate composed from a
    non-empty array of mandates lets a tool identifier through the tool
    filter exactly when every one of the inputs does. *)
Theorem composeMandates_allows_what_all_allow
    (today : string) (heap : list Mandate) (refs : list nat) (ms : list Mandate)
    (Hrefs : deref heap refs = Some ms) (Hne : refs <> []) :
  exists r heap' m,
    composeMandates today heap refs = Return (r, heap')
    /\ heap' !! r = Some m
    /\ forall tool, toolPasses m tool = true <-> forall mi, mi ∈ ms -> toolPasses mi tool = true.
Proof.
  destruct refs as [|r1 [|r2 refs]]; [done | |].
  - apply deref_cons in Hrefs as (m & ms' & -> & Hm & Hnil).
    unfold deref in Hnil. simpl in Hnil. injection Hnil as <-.
    exists r1, heap, m. split; [done|]. split; [done|]. intros tool. split.
    + intros Hp mi Hmi. apply list_elem_of_singleton in Hmi. by subst.
    + intros Hall. apply Hall, list_elem_of_here.
  - destruct (deref_cons _ _ _ _ Hrefs) as (base & rest & -> & _ & Hrest).
    destruct (composeMandates_fresh today heap (r1 :: r2 :: refs) base rest Hrefs)
      as (r & heap' & Hret & Hlook).
    { destruct (deref_cons _ _ _ _ Hrest) as (? & ? & -> & _). done. }
    exists r, heap', (composeFields today base rest). split; [done|]. split; [done|].
    intros tool. apply composeFields_allows.
Qed.

Lemma composeMandates_allows_what_all_allow_witness :
  exists r heap' m,
    composeMandates "2026-01-01" Sample.heap [0%nat; 1%nat] = Return (r, heap')
    /\ heap' !! r = Some m
    /\ toolPasses m "legislation-lookup" = true.
Proof.
  destruct (composeMandates_allows_what_all_allow "2026-01-01" Sample.heap [0%nat; 1%nat]
              [Sample.tenant; Sample.contract] eq_refl ltac:(discriminate))
    as (r & heap' & m & H1 & H2 & H3).
  exists r, heap', m. split; [exact H1|]. split; [exact H2|].
  apply H3. intros mi Hmi.
  apply elem_of_cons in Hmi as [->|Hmi]; [reflexivity|].
  apply list_elem_of_singleton in Hmi. subst. reflexivity.
Defined.

Section ComposerMerges.

Lemma Math_max_ge x xs : x <= Math_max x xs /\ forall y, y ∈ xs -> y <= Math_max x xs.
Proof.
  unfold Math_max. revert x. induction xs as [|a xs IH]; intros x; simpl.
  - split; [lia|]. intros y Hy. by apply elem_of_nil in Hy.
  - destruct (IH (Z.max x a)) as [H1 H2]. split; [lia|].
    intros y Hy. apply elem_of_cons in Hy as [->|Hy]; [lia | by apply H2].
Qed.

Lemma Math_max_in x xs : Math_max x xs ∈ x :: xs.
Proof.
  unfold Math_max. revert x. induction xs as [|a xs IH]; intros x; simpl.
  - apply list_elem_of_here.
  - specialize (IH (Z.max x a)). apply elem_of_cons in IH as [->|IH].
    + destruct (Z.max_spec x a) as [[_ ->]|[_ ->]];
        [apply list_elem_of_further, list_elem_of_here | apply list_elem_of_here].
    + by do 2 apply list_elem_of_further.
Qed.

Lemma dedupDisclaimers_spec ds : forall seen,
  NoDup (List.map DisclaimerRule.text (dedupDisclaimers seen ds))
  /\ sublist (dedupDisclaimers seen ds) ds
  /\ (forall d, d ∈ dedupDisclaimers seen ds -> DisclaimerRule.text d ∉ seen)
  /\ (forall d, d ∈ ds -> DisclaimerRule.text d ∉ seen ->
        exists d', d' ∈ dedupDisclaimers seen ds
                   /\ DisclaimerRule.text d' = DisclaimerRule.text d).
Proof.
  induction ds as [|d ds IH]; intros seen; simpl.
  - split; [constructor|]. split; [constructor|]. split.
    + by intros ? Hd%elem_of_nil.
    + by intros ? Hd%elem_of_nil.
  - destruct (bool_decide (DisclaimerRule.text d ∈ seen)) eqn:Hd.
    + apply bool_decide_eq_true in Hd. destruct (IH seen) as (Hnd & Hsub & Hout & Hin).
      split; [done|]. split; [by apply sublist_cons|]. split; [done|].
      intros d0 [->|Hd0]%elem_of_cons Hfresh; [done | by apply Hin].
    + apply bool_decide_eq_false in Hd.
      destruct (IH ({[DisclaimerRule.text d]} ∪ seen)) as (Hnd & Hsub & Hout & Hin).
      split; [|split; [|split]].
      * simpl. constructor; [|done]. intros Hdup.
        apply list_elem_of_In, in_map_iff in Hdup as (d' & Heq & Hd').
        apply list_elem_of_In, Hout in Hd'. apply Hd'. rewrite Heq.
        apply elem_of_union_l, elem_of_singleton. done.
      * by apply sublist_skip.
      * intros d0 [->|Hd0]%elem_of_cons; [done|].
        apply Hout in Hd0. intros Hseen. apply Hd0. by apply elem_of_union_r.
      * intros d0 [->|Hd0]%elem_of_cons Hfresh.
        { exists d. split; [apply list_elem_of_here | done]. }
        destruct (decide (DisclaimerRule.text d0 = DisclaimerRule.text d)) as [Heq|Hne].
        { exists d. split; [apply list_elem_of_here | done]. }
        destruct (Hin d0 Hd0) as (d' & Hd' & Htext).
        { intros [Hs%elem_of_singleton|Hs]%elem_of_union; done. }
        exists d'. split; [by apply list_elem_of_further | done].
Qed.

End ComposerMerges.

(** X2. Prohibitions accumulate: the mandate composed from two or more
    mandates prohibits a tool entry, an action or a data category exactly
    when one of the inputs does, and lists none of them twice. *)
Theorem composeMandates_prohibitions_union
    (today : string) (heap : list Mandate) (refs : list nat)
    (base : Mandate) (rest : list Mandate)
    (Hrefs : deref heap refs = Some (base :: rest)) (Hmany : rest <> []) :
  exists r heap' m,
    composeMandates today heap refs = Return (r, heap')
    /\ heap' !! r = Some m
    /\ (forall t, t ∈ Prohibitions.tools (prohibitions m)
          <-> exists mi, mi ∈ base :: rest /\ t ∈ Prohibitions.tools (prohibitions mi))
    /\ (forall a, a ∈ Prohibitions.actions (prohibitions m)
          <-> exists mi, mi ∈ base :: rest /\ a ∈ Prohibitions.actions (prohibitions mi))
    /\ (forall d, d ∈ Prohibitions.data (prohibitions m)
          <-> exists mi, mi ∈ base :: rest /\ d ∈ Prohibitions.data (prohibitions mi))
    /\ NoDup (Prohibitions.tools (prohibitions m))
    /\ NoDup (Prohibitions.actions (prohibitions m))
    /\ NoDup (Prohibitions.data (prohibitions m)).
Proof.
  destruct (composeMandates_fresh today heap refs base rest Hrefs Hmany)
    as (r & heap' & Hret & Hlook).
  exists r, heap', (composeFields today base rest).
  split; [done|]. split; [done|].
  cbn [composeFields prohibitions Prohibitions.tools Prohibitions.actions Prohibitions.data].
  assert (Hunion : forall (f : Mandate -> list string) x,
            x ∈ JS.uniq (flatMap f (base :: rest))
            <-> exists mi, mi ∈ base :: rest /\ x ∈ f mi).
  { intros f x. rewrite uniq_elem. apply flatMap_elem. }
  split; [intros t; apply (Hunion (fun mi => Prohibitions.tools (prohibitions mi)))|].
  split; [intros a; apply (Hunion (fun mi => Prohibitions.actions (prohibitions mi)))|].
  split; [intros d; apply (Hunion (fun mi => Prohibitions.data (prohibitions mi)))|].
  repeat split; apply uniq_NoDup.
Qed.

Lemma composeMandates_prohibitions_union_witness :
  exists r heap' m,
    composeMandates "2026-01-01" Sample.heap [0%nat; 1%nat] = Return (r, heap')
    /\ heap' !! r = Some m
    /\ (forall t, t ∈ Prohibitions.tools (prohibitions m)
          <-> exists mi, mi ∈ [Sample.tenant; Sample.contract]
                         /\ t ∈ Prohibitions.tools (prohibitions mi))
    /\ (forall a, a ∈ Prohibitions.actions (prohibitions m)
          <-> exists mi, mi ∈ [Sample.tenant; Sample.contract]
                         /\ a ∈ Prohibitions.actions (prohibitions mi))
    /\ (forall d, d ∈ Prohibitions.data (prohibitions m)
          <-> exists mi, mi ∈ [Sample.tenant; Sample.contract]
                         /\ d ∈ Prohibitions.data (prohibitions mi))
    /\ NoDup (Prohibitions.tools (prohibitions m))
    /\ NoDup (Prohibitions.actions (prohibitions m))
    /\ NoDup (Prohibitions.data (prohibitions m)).
Proof.
  exact (composeMandates_prohibitions_union "2026-01-01" Sample.heap [0%nat; 1%nat]
           Sample.tenant [Sample.contract] eq_refl ltac:(discriminate)).
Defined.

(** X3. Whitelist and scope are intersections: the mandate composed from
    two or more mandates whitelists a tool exactly when every input does,
    allows a scope exactly when every input does, lists neither twice, and
    escalates out-of-scope requests whatever the inputs' behaviour was. *)
Theorem composeMandates_intersects_tools_and_scopes
    (today : string) (heap : list Mandate) (refs : list nat)
    (base : Mandate) (rest : list Mandate)
    (Hrefs : deref heap refs = Some (base :: rest)) (Hmany : rest <> []) :
  exists r heap' m,
    composeMandates today heap refs = Return (r, heap')
    /\ heap' !! r = Some m
    /\ (forall t, t ∈ toolsOf m <-> forall mi, mi ∈ base :: rest -> t ∈ toolsOf mi)
    /\ (forall s, s ∈ scopesOf m <-> forall mi, mi ∈ base :: rest -> s ∈ scopesOf mi)
    /\ NoDup (toolsOf m) /\ NoDup (scopesOf m)
    /\ ScopeConfig.behavior_on_unsupported (scope m) = escalate.
Proof.
  destruct (composeMandates_fresh today heap refs base rest Hrefs Hmany)
    as (r & heap' & Hret & Hlook).
  exists r, heap', (composeFields today base rest).
  split; [done|]. split; [done|].
  assert (Hinter : forall (f : Mandate -> list string) x,
            x ∈ intersectSets (f base) (List.map f (base :: rest))
            <-> forall mi, mi ∈ base :: rest -> x ∈ f mi).
  { intros f x. rewrite intersectSets_iff. split.
    - intros [_ Hall] mi Hmi. apply Hall.
      by apply list_elem_of_In, in_map, list_elem_of_In.
    - intros Hall. split; [apply Hall, list_elem_of_here|].
      intros l Hl. apply list_elem_of_In, in_map_iff in Hl as (mi & <- & Hmi).
      by apply Hall, list_elem_of_In. }
  unfold toolsOf at 1 3, scopesOf at 1 3.
  cbn [composeFields capabilities scope Capabilities.tools ScopeConfig.allowed
       ScopeConfig.behavior_on_unsupported].
  split; [apply (Hinter toolsOf)|]. split; [apply (Hinter scopesOf)|].
  split; [apply intersectSets_NoDup|]. split; [apply intersectSets_NoDup|]. done.
Qed.

Lemma composeMandates_intersects_tools_and_scopes_witness :
  exists r heap' m,
    composeMandates "2026-01-01" Sample.heap [0%nat; 1%nat] = Return (r, heap')
    /\ heap' !! r = Some m
    /\ (forall t, t ∈ toolsOf m
          <-> forall mi, mi ∈ [Sample.tenant; Sample.contract] -> t ∈ toolsOf mi)
    /\ (forall s, s ∈ scopesOf m
          <-> forall mi, mi ∈ [Sample.tenant; Sample.contract] -> s ∈ scopesOf mi)
    /\ NoDup (toolsOf m) /\ NoDup (scopesOf m)
    /\ ScopeConfig.behavior_on_unsupported (scope m) = escalate.
Proof.
  exact (composeMandates_intersects_tools_and_scopes "2026-01-01" Sample.heap
           [0%nat; 1%nat] Sample.tenant [Sample.contract] eq_refl ltac:(discriminate)).
Defined.

(** X4. Disclaimers are merged by text: the mandate composed from two or
    more mandates carries the inputs' disclaimer rules in their order, one
    rule per distinct text, and no text of an input is lost. *)
Theorem composeMandates_disclaimers_by_text
    (today : string) (heap : list Mandate) (refs : list nat)
    (base : Mandate) (rest : list Mandate)
    (Hrefs : deref heap refs = Some (base :: rest)) (Hmany : rest <> []) :
  exists r heap' m,
    composeMandates today heap refs = Return (r, heap')
    /\ heap' !! r = Some m
    /\ NoDup (List.map DisclaimerRule.text (Requirements.disclaimers (requirements m)))
    /\ sublist (Requirements.disclaimers (requirements m))
         (flatMap (fun mi => Requirements.disclaimers (requirements mi)) (base :: rest))
    /\ (forall mi d, mi ∈ base :: rest -> d ∈ Requirements.disclaimers (requirements mi) ->
          exists d', d' ∈ Requirements.disclaimers (requirements m)
                     /\ DisclaimerRule.text d' = DisclaimerRule.text d).
Proof.
  destruct (composeMandates_fresh today heap refs base rest Hrefs Hmany)
    as (r & heap' & Hret & Hlook).
  exists r, heap', (composeFields today base rest).
  split; [done|]. split; [done|].
  cbn [composeFields requirements Requirements.disclaimers].
  destruct (dedupDisclaimers_spec
              (flatMap (fun mi => Requirements.disclaimers (requirements mi)) (base :: rest)) ∅)
    as (Hnd & Hsub & _ & Hin).
  split; [done|]. split; [done|].
  intros mi d Hmi Hd. apply Hin; [|apply not_elem_of_empty].
  apply flatMap_elem. by exists mi.
Qed.

Lemma composeMandates_disclaimers_by_text_witness :
  exists r heap' m,
    composeMandates "2026-01-01" Sample.heap [0%nat; 1%nat] = Return (r, heap')
    /\ heap' !! r = Some m
    /\ NoDup (List.map DisclaimerRule.text (Requirements.disclaimers (requirements m)))
    /\ sublist (Requirements.disclaimers (requirements m))
         (flatMap (fun mi => Requirements.disclaimers (requirements mi))
                  [Sample.tenant; Sample.contract])
    /\ (forall mi d, mi ∈ [Sample.tenant; Sample.contract] ->
          d ∈ Requirements.disclaimers (requirements mi) ->
          exists d', d' ∈ Requirements.disclaimers (requirements m)
                     /\ DisclaimerRule.text d' = DisclaimerRule.text d).
Proof.
  exact (composeMandates_disclaimers_by_text "2026-01-01" Sample.heap
           [0%nat; 1%nat] Sample.tenant [Sample.contract] eq_refl ltac:(discriminate)).
Defined.

(** X5. Audit only gets stricter: the mandate composed from two or more
    mandates logs at level full with model and tool calls included,
    whatever the inputs asked for, and keeps records for the longest
    retention period of the inputs. *)
Theorem composeMandates_audit_strictest
    (today : string) (heap : list Mandate) (refs : list nat)
    (base : Mandate) (rest : list Mandate)
    (Hrefs : deref heap refs = Some (base :: rest)) (Hmany : rest <> []) :
  exists r heap' m,
    composeMandates today heap refs = Return (r, heap')
    /\ heap' !! r = Some m
    /\ AuditConfig.log_level (Requirements.audit (requirements m)) = full
    /\ AuditConfig.include_llm_calls (Requirements.audit (requirements m)) = true
    /\ AuditConfig.include_tool_calls (Requirements.audit (requirements m)) = true
    /\ retentionOf m ∈ List.map retentionOf (base :: rest)
    /\ (forall mi, mi ∈ base :: rest -> retentionOf mi <= retentionOf m).
Proof.
  destruct (composeMandates_fresh today heap refs base rest Hrefs Hmany)
    as (r & heap' & Hret & Hlook).
  exists r, heap', (composeFields today base rest).
  split; [done|]. split; [done|].
  unfold retentionOf at 1 4.
  cbn [composeFields requirements Requirements.audit AuditConfig.log_level
       AuditConfig.include_llm_calls AuditConfig.include_tool_calls
       AuditConfig.retention_days].
  split; [done|]. split; [done|]. split; [done|].
  split; [apply Math_max_in|].
  intros mi Hmi. destruct (Math_max_ge (retentionOf base) (List.map retentionOf rest)) as [H1 H2].
  apply elem_of_cons in Hmi as [->|Hmi]; [done|].
  by apply H2, list_elem_of_In, in_map, list_elem_of_In.
Qed.

Lemma composeMandates_audit_strictest_witness :
  exists r heap' m,
    composeMandates "2026-01-01" Sample.heap [0%nat; 1%nat] = Return (r, heap')
    /\ heap' !! r = Some m
    /\ AuditConfig.log_level (Requirements.audit (requirements m)) = full
    /\ AuditConfig.include_llm_calls (Requirements.audit (requirements m)) = true
    /\ AuditConfig.include_tool_calls (Requirements.audit (requirements m)) = true
    /\ retentionOf m ∈ List.map retentionOf [Sample.tenant; Sample.contract]
    /\ (forall mi, mi ∈ [Sample.tenant; Sample.contract] -> retentionOf mi <= retentionOf m).
Proof.
  exact (composeMandates_audit_strictest "2026-01-01" Sample.heap
           [0%nat; 1%nat] Sample.tenant [Sample.contract] eq_refl ltac:(discriminate)).
Defined.

(** * The consistency validator *)

Section ValidatorFacts.
Import Validator.

Lemma flatMap_nil {A B} (f : A -> list B) (xs : list A) :
  flatMap f xs = [] <-> forall x, x ∈ xs -> f x = [].
Proof.
  unfold flatMap. induction xs as [|a xs IH]; simpl.
  - split; [by intros _ ? Hx%elem_of_nil | done].
  - split.
    + intros [Ha Hxs]%app_eq_nil x [->|Hx]%elem_of_cons; [done | by apply IH].
    + intros Hall. rewrite (Hall a) by apply list_elem_of_here. simpl.
      apply IH. intros x Hx. by apply Hall, list_elem_of_further.
Qed.

Lemma valid_no_errors mandate :
  valid (validateMandateConsistency mandate) = true
  <-> errors (validateMandateConsistency mandate) = [].
Proof.
  unfold validateMandateConsistency. cbn [valid errors].
  rewrite Nat.eqb_eq. split; [apply length_zero_iff_nil | by intros ->].
Qed.

Lemma errors_nil mandate :
  errors (validateMandateConsistency mandate) = [] <->
    (forall tool, tool ∈ Capabilities.tools (capabilities mandate) ->
       toolErrors mandate tool = [])
    /\ (forall trigger, trigger ∈ Escalation.triggers (escalation mandate) ->
          triggerErrors trigger = [])
    /\ (forall disclaimer, disclaimer ∈ Requirements.disclaimers (requirements mandate) ->
          disclaimerErrors disclaimer = []).
Proof.
  unfold validateMandateConsistency. cbn [errors].
  split.
  - intros [Htools [Htriggers Hdisclaimers]%app_eq_nil]%app_eq_nil.
    split; [|split]; [| by apply flatMap_nil..].
    intros tool Htool. apply (proj1 (flatMap_nil _ _) Htools). by apply uniq_elem.
  - intros (Htools & Htriggers & Hdisclaimers).
    rewrite (proj2 (flatMap_nil (toolErrors mandate) _)).
    + rewrite (proj2 (flatMap_nil triggerErrors _) Htriggers).
      by rewrite (proj2 (flatMap_nil disclaimerErrors _) Hdisclaimers).
    + intros tool Htool. by apply Htools, uniq_elem.
Qed.

Lemma toolErrors_nil mandate tool :
  toolErrors mandate tool = [] <->
    (tool ∉ prohibitedExactOf mandate)
    /\ forall p, List.find (fun prefix => JS.startsWith tool prefix)
                   (prohibitedPrefixesOf mandate) = Some p -> p = "".
Proof.
  unfold toolErrors.
  destruct (List.find _ (prohibitedPrefixesOf mandate)) as [p|] eqn:Hfind.
  - destruct (String.eqb p "") eqn:Hp.
    + apply String.eqb_eq in Hp. subst p. rewrite app_nil_r.
      case_bool_decide as Hexact.
      * split; [done | by intros [? _]].
      * split; [|done]. intros _. split; [done|]. by intros ? [= <-].
    + apply String.eqb_neq in Hp. split.
      * by intros [_ ?]%app_eq_nil.
      * intros [_ Hblank]. by specialize (Hblank p eq_refl).
  - rewrite app_nil_r. case_bool_decide as Hexact.
    + split; [done | by intros [? _]].
    + split; [|done]. intros _. split; [done|]. by intros ? [=].
Qed.

Lemma triggerErrors_nil trigger :
  triggerErrors trigger = [] <->
    (EscalationTrigger.condition trigger = "topic_match" ->
       exists topic topics, EscalationTrigger.topics trigger = Some (topic :: topics))
    /\ (EscalationTrigger.condition trigger = "confidence_below" ->
          exists threshold, EscalationTrigger.threshold trigger = Some threshold).
Proof.
  unfold triggerErrors.
  destruct (String.eqb_spec (EscalationTrigger.condition trigger) "topic_match") as [Ht|Ht];
    destruct (String.eqb_spec (EscalationTrigger.condition trigger) "confidence_below")
      as [Hc|Hc]; try (rewrite Ht in Hc; discriminate Hc); cbn [andb app].
  - destruct (EscalationTrigger.topics trigger) as [[|topic topics]|]; cbn [missingOrEmpty app].
    + split; [done|]. intros [Hex _]. by destruct (Hex Ht) as (? & ? & ?).
    + split; [|done]. intros _. split; [by eauto | done].
    + split; [done|]. intros [Hex _]. by destruct (Hex Ht) as (? & ? & ?).
  - destruct (EscalationTrigger.threshold trigger) as [threshold|]; cbn [isUndefined].
    + split; [|done]. intros _. split; [done | by eauto].
    + split; [done|]. intros [_ Hex]. by destruct (Hex Hc) as (? & ?).
  - split; [|done]. intros _. split; done.
Qed.

Lemma disclaimerErrors_nil disclaimer :
  disclaimerErrors disclaimer = [] <->
    (DisclaimerRule.trigger disclaimer = custom ->
       exists pattern, DisclaimerRule.custom_pattern disclaimer = Some pattern
                       /\ pattern <> "").
Proof.
  unfold disclaimerErrors.
  destruct (DisclaimerRule.trigger disclaimer);
    try (split; [by intros _ [=] | done]).
  destruct (DisclaimerRule.custom_pattern disclaimer) as [[|c pattern]|].
  - split; [done|]. intros Hex. by destruct (Hex eq_refl) as (? & [= <-] & ?).
  - split; [|done]. intros _ _. by eexists.
  - split; [done|]. intros Hex. by destruct (Hex eq_refl) as (? & [=] & ?).
Qed.

Lemma find_prefix_elem (tool : string) prefixes p :
  List.find (fun prefix => JS.startsWith tool prefix) prefixes = Some p -> p ∈ prefixes.
Proof. intros Hfind. by apply find_some in Hfind as [Hin%list_elem_of_In _]. Qed.

End ValidatorFacts.

(** X6. What the validator accepts: a mandate is valid exactly when no
    whitelisted tool is among the exact prohibitions or has a non-empty
    prohibited prefix as its first matching one, every topic_match trigger
    lists a topic, every confidence_below trigger has a threshold, and
    every custom disclaimer has a non-empty pattern; the warnings play no
    part. *)
Theorem validateMandateConsistency_valid_iff (mandate : Mandate) :
  Validator.valid (Validator.validateMandateConsistency mandate) = true <->
    (forall tool, tool ∈ Capabilities.tools (capabilities mandate) ->
       (tool ∉ prohibitedExactOf mandate)
       /\ forall p, List.find (fun prefix => JS.startsWith tool prefix)
                      (prohibitedPrefixesOf mandate) = Some p -> p = "")
    /\ (forall trigger, trigger ∈ Escalation.triggers (escalation mandate) ->
          (EscalationTrigger.condition trigger = "topic_match" ->
             exists topic topics, EscalationTrigger.topics trigger = Some (topic :: topics))
          /\ (EscalationTrigger.condition trigger = "confidence_below" ->
                exists threshold, EscalationTrigger.threshold trigger = Some threshold))
    /\ (forall disclaimer, disclaimer ∈ Requirements.disclaimers (requirements mandate) ->
          DisclaimerRule.trigger disclaimer = custom ->
          exists pattern, DisclaimerRule.custom_pattern disclaimer = Some pattern
                          /\ pattern <> "").
Proof.
  rewrite valid_no_errors, errors_nil.
  split.
  - intros (Htools & Htriggers & Hdisclaimers). split; [|split].
    + intros tool Htool. by apply toolErrors_nil, Htools.
    + intros trigger Htrigger. by apply triggerErrors_nil, Htriggers.
    + intros disclaimer Hd. by apply disclaimerErrors_nil, Hdisclaimers.
  - intros (Htools & Htriggers & Hdisclaimers). split; [|split].
    + intros tool Htool. by apply toolErrors_nil, Htools.
    + intros trigger Htrigger. by apply triggerErrors_nil, Htriggers.
    + intros disclaimer Hd. by apply disclaimerErrors_nil, Hdisclaimers.
Qed.

(** X7. Validator and tool filter agree on the whitelist: in a mandate the
    validator accepts, and whose wildcard prohibitions all leave a
    non-empty prefix, every whitelisted tool passes the three tests of the
    tool filter, so the validator leaves no whitelisted tool that the
    filter would drop. *)
Theorem validated_whitelist_passes_filter
    (mandate : Mandate)
    (Hvalid : Validator.valid (Validator.validateMandateConsistency mandate) = true)
    (Hprefixes : forall p, p ∈ prohibitedPrefixesOf mandate -> p <> "") :
  forall tool, tool ∈ Capabilities.tools (capabilities mandate) ->
    toolPasses mandate tool = true.
Proof.
  intros tool Htool.
  apply valid_no_errors, errors_nil in Hvalid as (Htools & _ & _).
  destruct (proj1 (toolErrors_nil _ _) (Htools tool Htool)) as [Hexact Hwild].
  unfold toolPasses. cbv zeta. rewrite !andb_true_iff, !negb_true_iff. split; [split|].
  - by apply bool_decide_eq_true, elem_of_list_to_set.
  - apply bool_decide_eq_false. by rewrite elem_of_list_to_set.
  - destruct (existsb _ (prohibitedPrefixesOf mandate)) eqn:Hex; [|done].
    destruct (List.find (fun prefix => JS.startsWith tool prefix) (prohibitedPrefixesOf mandate))
      as [p|] eqn:Hfind.
    + exfalso. apply (Hprefixes p); [by apply (find_prefix_elem tool) | by apply Hwild].
    + apply existsb_exists in Hex as (p & Hp & Hstarts).
      by rewrite (find_none _ _ Hfind p Hp) in Hstarts.
Qed.

Lemma validated_whitelist_passes_filter_witness :
  Validator.valid (Validator.validateMandateConsistency Sample.contract) = true
  /\ toolPasses Sample.contract "case-law-search" = true.
Proof.
  split; [reflexivity|].
  apply (validated_whitelist_passes_filter Sample.contract).
  - reflexivity.
  - intros p Hp. vm_compute in Hp.
    repeat (apply elem_of_cons in Hp as [->|Hp]; [discriminate|]).
    by apply elem_of_nil in Hp.
  - vm_compute. apply list_elem_of_further, list_elem_of_here.
Defined.

(** X8. A blanket wildcard goes unreported: when the first prohibition
    entry of a mandate is the bare wildcard, the tool filter exposes no
    tool at all, whatever tools are offered, while the validator raises no
    error for any whitelisted tool that the prohibitions do not name. *)
Theorem blanket_wildcard_blocks_all_unreported
    (mandate : Mandate) (others : list string)
    (Hblanket : Prohibitions.tools (prohibitions mandate) = "*" :: others) :
  (forall allTools, filterToolsByMandate allTools mandate = ∅)
  /\ (forall tool, tool ∉ others -> Validator.toolErrors mandate tool = []).
Proof.
  assert (Hprefixes : exists rest, prohibitedPrefixesOf mandate = "" :: rest).
  { unfold prohibitedPrefixesOf. rewrite Hblanket. by eexists. }
  destruct Hprefixes as [rest Hprefixes].
  split.
  - intros allTools. apply map_empty. intros key. unfold filterToolsByMandate.
    apply map_lookup_filter_None. right. intros tool _ Hpass. cbn in Hpass.
    apply Is_true_eq_true in Hpass. unfold toolPasses in Hpass.
    rewrite Hprefixes in Hpass. cbn [existsb] in Hpass.
    assert (Hstarts : JS.startsWith (toolId key tool) "" = true).
    { unfold JS.startsWith. by destruct (toolId key tool). }
    rewrite Hstarts in Hpass. cbn in Hpass. by rewrite andb_false_r in Hpass.
  - intros tool Htool. apply toolErrors_nil. split.
    + unfold prohibitedExactOf. rewrite Hblanket. cbn.
      intros Hin. apply Htool. apply list_elem_of_In in Hin. apply filter_In in Hin as [Hin _].
      by apply list_elem_of_In.
    + rewrite Hprefixes. cbn [List.find].
      assert (Hstarts : JS.startsWith tool "" = true).
      { unfold JS.startsWith. by destruct tool. }
      rewrite Hstarts. by intros p [= <-].
Qed.

Lemma blanket_wildcard_blocks_all_unreported_witness :
  filterToolsByMandate Sample.allTools MoreSamples.lockedDown = ∅
  /\ Validator.toolErrors MoreSamples.lockedDown "formal-letter" = [].
Proof.
  destruct (blanket_wildcard_blocks_all_unreported MoreSamples.lockedDown ["email-send"] eq_refl)
    as [Hfilter Herrors].
  split; [apply Hfilter|]. apply Herrors.
  intros Hin. apply list_elem_of_singleton in Hin. discriminate Hin.
Defined.

(** * The skill pack registry and the agent's tools *)

Section RegistryFacts.
Import SkillPackRegistry.

(** When the inner loop completes: the identifiers of the pack are new,
    distinct and not inherited, and the record gains exactly them. *)
Lemma addTools_Return pack entries : forall tools tools',
  addTools pack entries tools = Return tools' ->
    NoDup (List.map fst entries)
    /\ (forall k, k ∈ List.map fst entries -> tools !! k = None /\ k ∉ inherited)
    /\ (forall k v, tools' !! k = Some v <->
          tools !! k = Some v
          \/ exists t, (k, t) ∈ entries /\ v = mkProvided t (SkillPack.id pack)).
Proof.
  induction entries as [|[id tool] entries IH]; intros tools tools'; simpl.
  - intros [= <-]. split; [constructor|]. split; [by intros ? Hk%elem_of_nil|].
    intros k v. split; [by left|]. intros [?|(? & Hk%elem_of_nil & _)]; done.
  - destruct (tools !! id) as [present|] eqn:Hid; [done|].
    case_bool_decide as Hinh; [done|]. intros Hrest.
    apply IH in Hrest as (Hnd & Hnew & Hlook).
    assert (Hfresh : id ∉ List.map fst entries).
    { intros Hin. apply Hnew in Hin as [Hin _]. by rewrite lookup_insert_eq in Hin. }
    split; [by constructor|]. split.
    + intros k [->|Hk]%elem_of_cons; [done|].
      destruct (Hnew k Hk) as [Hnone Hk']. split; [|done].
      destruct (decide (id = k)) as [->|Hne]; [done|].
      by rewrite lookup_insert_ne in Hnone.
    + intros k v. rewrite Hlook. split.
      * intros [Hins|(t & Ht & ->)].
        -- destruct (decide (id = k)) as [->|Hne].
           ++ rewrite lookup_insert_eq in Hins. injection Hins as <-.
              right. exists tool. split; [apply list_elem_of_here | done].
           ++ rewrite lookup_insert_ne in Hins by done. by left.
        -- right. exists t. split; [by apply list_elem_of_further | done].
      * intros [Hold|(t & [[= -> ->]|Ht]%elem_of_cons & ->)].
        -- left. destruct (decide (id = k)) as [->|Hne]; [congruence|].
           by rewrite lookup_insert_ne.
        -- left. by rewrite lookup_insert_eq.
        -- right. by exists t.
Qed.

Lemma addTools_Throw pack entries : forall tools msg,
  addTools pack entries tools = Throw msg ->
    ~ (NoDup (List.map fst entries)
       /\ forall k, k ∈ List.map fst entries -> tools !! k = None /\ k ∉ inherited).
Proof.
  induction entries as [|[id tool] entries IH]; intros tools msg; simpl; [done|].
  destruct (tools !! id) as [present|] eqn:Hid.
  - intros _ [_ Hnew]. destruct (Hnew id) as [Hnone _]; [apply list_elem_of_here|].
    congruence.
  - case_bool_decide as Hinh.
    + intros _ [_ Hnew]. destruct (Hnew id) as [_ Hk]; [apply list_elem_of_here | done].
    + intros Hrest [Hnd Hnew]. apply IH in Hrest. apply Hrest.
      apply NoDup_cons in Hnd as [Hfresh Hnd]. split; [done|].
      intros k Hk. destruct (Hnew k) as [Hnone Hk']; [by apply list_elem_of_further|].
      split; [|done]. rewrite lookup_insert_ne; [done|]. by intros ->.
Qed.

Lemma addPacks_Return packs : forall tools tools',
  addPacks packs tools = Return tools' ->
    NoDup (providedIds packs)
    /\ (forall k, k ∈ providedIds packs -> tools !! k = None /\ k ∉ inherited)
    /\ (forall k v, tools' !! k = Some v <->
          tools !! k = Some v
          \/ exists pack t, pack ∈ packs /\ (k, t) ∈ SkillPack.tools pack
                            /\ v = mkProvided t (SkillPack.id pack)).
Proof.
  induction packs as [|pack packs IH]; intros tools tools'; simpl.
  - intros [= <-]. split; [constructor|]. split; [by intros ? Hk%elem_of_nil|].
    intros k v. split; [by left|]. intros [?|(? & ? & Hk%elem_of_nil & _)]; done.
  - destruct (addTools pack (SkillPack.tools pack) tools) as [mid|] eqn:Hpack; [|done].
    intros Hrest. apply addTools_Return in Hpack as (Hnd1 & Hnew1 & Hlook1).
    apply IH in Hrest as (Hnd2 & Hnew2 & Hlook2).
    assert (Hapart : forall k, k ∈ List.map fst (SkillPack.tools pack) ->
                       k ∉ providedIds packs).
    { intros k Hk Hk2. destruct (Hnew2 k Hk2) as [Hnone _].
      apply list_elem_of_In, in_map_iff in Hk as ([k' t] & <- & Hin).
      assert (Hsome : mid !! k' = Some (mkProvided t (SkillPack.id pack))).
      { apply Hlook1. right. exists t. split; [by apply list_elem_of_In | done]. }
      simpl in Hnone. congruence. }
    unfold providedIds, flatMap in *. simpl. split; [|split].
    + apply NoDup_app. split; [done|]. split; [|done]. intros k Hk. by apply Hapart.
    + intros k [Hk|Hk]%elem_of_app; [by apply Hnew1|].
      destruct (Hnew2 k Hk) as [Hnone Hk']. split; [|done].
      destruct (tools !! k) as [v|] eqn:Hold; [|done].
      assert (Hmid : mid !! k = Some v) by (apply Hlook1; by left). congruence.
    + intros k v. rewrite Hlook2, Hlook1. split.
      * intros [[Hold|(t & Ht & ->)]|(pack' & t & Hpack' & Ht & ->)].
        -- by left.
        -- right. exists pack, t. split; [apply list_elem_of_here | done].
        -- right. exists pack', t. split; [by apply list_elem_of_further | done].
      * intros [Hold|(pack' & t & [->|Hpack']%elem_of_cons & Ht & ->)].
        -- left. by left.
        -- left. right. by exists t.
        -- right. by exists pack', t.
Qed.

Lemma addTools_total pack entries : forall tools,
  NoDup (List.map fst entries) ->
  (forall k, k ∈ List.map fst entries -> tools !! k = None /\ k ∉ inherited) ->
  exists tools', addTools pack entries tools = Return tools'.
Proof.
  intros tools Hnd Hnew.
  destruct (addTools pack entries tools) as [tools'|msg] eqn:Hrun; [by eexists|].
  by destruct (addTools_Throw _ _ _ _ Hrun).
Qed.

Lemma addPacks_total packs : forall tools,
  NoDup (providedIds packs) ->
  (forall k, k ∈ providedIds packs -> tools !! k = None /\ k ∉ inherited) ->
  exists tools', addPacks packs tools = Return tools'.
Proof.
  induction packs as [|pack packs IH]; intros tools Hnd Hnew; simpl; [by eexists|].
  unfold providedIds, flatMap in Hnd, Hnew. simpl in Hnd, Hnew.
  apply NoDup_app in Hnd as (Hnd1 & Hapart & Hnd2).
  destruct (addTools_total pack (SkillPack.tools pack) tools Hnd1) as [mid Hmid].
  { intros k Hk. apply Hnew, elem_of_app. by left. }
  rewrite Hmid. apply IH; [done|].
  intros k Hk. destruct (Hnew k) as [Hnone Hk']; [apply elem_of_app; by right|].
  split; [|done].
  destruct (mid !! k) as [v|] eqn:Hv; [|done].
  apply addTools_Return in Hmid as (_ & _ & Hlook).
  apply Hlook in Hv as [Hold|(t & Ht & _)]; [congruence|].
  exfalso. apply (Hapart k); [|done].
  apply list_elem_of_In, in_map_iff. exists (k, t). split; [done | by apply list_elem_of_In].
Qed.

Lemma getAllTools_lookup packs tools :
  getAllTools packs = Return tools ->
  forall k v, tools !! k = Some v <->
    exists pack t, pack ∈ getAll packs /\ (k, t) ∈ SkillPack.tools pack
                   /\ v = mkProvided t (SkillPack.id pack).
Proof.
  unfold getAllTools. intros Hrun k v. apply addPacks_Return in Hrun as (_ & _ & Hlook).
  rewrite Hlook, lookup_empty. split; [by intros [?|?] | by right].
Qed.

End RegistryFacts.

(** X9. Aggregating the registered tools: the registry returns a record
    exactly when no tool identifier is provided twice and none is the name
    of a property every object inherits; the record then holds, under each
    identifier, that tool tagged with the pack that provides it, and
    nothing else. *)
Theorem getAllTools_succeeds_iff_ids_distinct (packs : SkillPackRegistry.Packs) :
  ((exists tools, SkillPackRegistry.getAllTools packs = Return tools) <->
     NoDup (SkillPackRegistry.providedIds (SkillPackRegistry.getAll packs))
     /\ forall k, k ∈ SkillPackRegistry.providedIds (SkillPackRegistry.getAll packs) ->
                  k ∉ SkillPackRegistry.inherited)
  /\ forall tools, SkillPackRegistry.getAllTools packs = Return tools ->
       forall k v, tools !! k = Some v <->
         exists pack t, pack ∈ SkillPackRegistry.getAll packs
                        /\ (k, t) ∈ SkillPack.tools pack
                        /\ v = SkillPackRegistry.mkProvided t (SkillPack.id pack).
Proof.
  unfold SkillPackRegistry.getAllTools. split; [split|].
  - intros [tools Hrun]. apply addPacks_Return in Hrun as (Hnd & Hnew & _).
    split; [done|]. intros k Hk. by apply Hnew.
  - intros [Hnd Hnew]. apply addPacks_total; [done|].
    intros k Hk. split; [apply lookup_empty | by apply Hnew].
  - apply getAllTools_lookup.
Qed.

Section FactoryFacts.
Import SkillPackRegistry.

Lemma loadPacks_Return mandate registry required :
  (exists loaded, Factory.loadPacks mandate registry required = Return loaded)
  <-> forall packId, packId ∈ required -> exists pack, get packId registry = Some pack.
Proof.
  induction required as [|packId required IH]; simpl.
  - split; [by intros _ ? Hp%elem_of_nil | by eexists].
  - destruct (get packId registry) as [pack|] eqn:Hget.
    + destruct (Factory.loadPacks mandate registry required) as [loaded|msg].
      * split; [|by eexists]. intros _ p [->|Hp]%elem_of_cons; [by eexists|].
        by apply (proj1 IH); [eexists|].
      * split; [by intros [? ?]|]. intros Hall.
        destruct (proj2 IH) as [? ?]; [|done].
        intros p Hp. by apply Hall, list_elem_of_further.
    + split; [by intros [? ?]|]. intros Hall.
      destruct (Hall packId) as [? ?]; [apply list_elem_of_here | congruence].
Qed.

Lemma has_get id packs : has id packs = true <-> exists pack, get id packs = Some pack.
Proof.
  unfold has, get. induction packs as [|[k p] packs IH]; simpl.
  - split; [done | by intros [? ?]].
  - destruct (String.eqb k id); simpl; [|done]. split; [by eexists | done].
Qed.

Lemma get_mapSet_new id pack packs :
  has id packs = false -> mapSet id pack packs = (packs ++ [(id, pack)])%list.
Proof.
  unfold has. induction packs as [|[k p] packs IH]; simpl; [done|].
  destruct (String.eqb k id); simpl; [done|]. intros Hrest. by rewrite IH.
Qed.

Lemma get_app_last id pack packs other :
  get other (packs ++ [(id, pack)])%list
  = match get other packs with
    | Some p => Some p
    | None => if String.eqb id other then Some pack else None
    end.
Proof.
  unfold get. induction packs as [|[k p] packs IH]; simpl.
  - by destruct (String.eqb id other).
  - by destruct (String.eqb k other).
Qed.

Lemma get_filter_out id packs other :
  get other (List.filter (fun entry => negb (String.eqb entry.1 id)) packs)
  = if String.eqb id other then None else get other packs.
Proof.
  unfold get. induction packs as [|[k p] packs IH]; simpl.
  - by destruct (String.eqb id other).
  - destruct (String.eqb_spec k id) as [->|Hk]; simpl.
    + rewrite IH. destruct (String.eqb_spec id other) as [->|Hne]; [done|]. done.
    + destruct (String.eqb_spec k other) as [->|Hko]; simpl; [|done].
      destruct (String.eqb_spec id other) as [->|Hne]; [done | done].
Qed.

End FactoryFacts.

(** X10. The tools an agent is built with: the factory gets as far as the
    tools exactly when every skill pack the mandate requires is registered
    and the registry can aggregate its tools; the agent then receives
    exactly the tools of the registered packs, required or not, whose
    identifier passes the mandate's tool filter. *)
Theorem factory_allowedTools_characterised
    (mandate : Mandate) (skillRegistry : SkillPackRegistry.Packs) :
  ((exists tools, Factory.allowedTools mandate skillRegistry = Return tools) <->
     (forall packId, packId ∈ default [] (Metadata.skill_packs (metadata mandate)) ->
        exists pack, SkillPackRegistry.get packId skillRegistry = Some pack)
     /\ exists allTools, SkillPackRegistry.getAllTools skillRegistry = Return allTools)
  /\ forall tools, Factory.allowedTools mandate skillRegistry = Return tools ->
       forall key t, tools !! key = Some t <->
         (exists pack, pack ∈ SkillPackRegistry.getAll skillRegistry
                       /\ (key, t) ∈ SkillPack.tools pack)
         /\ toolPasses mandate (toolId key t) = true.
Proof.
  unfold Factory.allowedTools.
  destruct (Factory.loadPacks mandate skillRegistry _) as [loaded|msg] eqn:Hload.
  - pose proof (proj1 (loadPacks_Return mandate skillRegistry _) (ex_intro _ loaded Hload))
      as Hreq.
    destruct (SkillPackRegistry.getAllTools skillRegistry) as [allTools|msg] eqn:Hall.
    + split; [split; [by eauto | by eexists]|].
      intros tools [= <-] key t. unfold filterToolsByMandate.
      rewrite map_lookup_filter_Some, lookup_fmap. cbn [fst snd].
      pose proof (getAllTools_lookup skillRegistry allTools Hall) as Hlook. split.
      * intros [Hsome Hpass]. split; [|by apply Is_true_eq_true].
        destruct (allTools !! key) as [v|] eqn:Hv; [|done].
        simpl in Hsome. injection Hsome as <-.
        apply Hlook in Hv as (pack & t' & Hpack & Ht & ->). by exists pack.
      * intros [(pack & Hpack & Ht) Hpass]. split; [|by apply Is_true_eq_left].
        assert (Hv : allTools !! key
                     = Some (SkillPackRegistry.mkProvided t (SkillPack.id pack))).
        { apply Hlook. by exists pack, t. }
        by rewrite Hv.
    + split; [|done]. split; [by intros [? ?] | by intros [_ [? ?]]].
  - split; [|done]. split; [by intros [? ?]|]. intros [Hreq _].
    destruct (proj2 (loadPacks_Return mandate skillRegistry _) Hreq) as [? Hret]. congruence.
Qed.

(** X11. Registering and unregistering skill packs: once a pack is
    registered it is the one found under its identifier, it comes last
    among the registered packs, every other identifier resolves as before,
    identifiers stay distinct, a second registration throws, and after
    unregistering it the pack can be registered again. *)
Theorem registry_register_then_unregister
    (pack : SkillPack.t) (packs packs' : SkillPackRegistry.Packs)
    (Hregistered : SkillPackRegistry.register pack packs = Return packs') :
  SkillPackRegistry.get (SkillPack.id pack) packs' = Some pack
  /\ SkillPackRegistry.getAll packs' = (SkillPackRegistry.getAll packs ++ [pack])%list
  /\ (forall other, other <> SkillPack.id pack ->
        SkillPackRegistry.get other packs' = SkillPackRegistry.get other packs)
  /\ (NoDup (SkillPackRegistry.getIds packs) -> NoDup (SkillPackRegistry.getIds packs'))
  /\ (exists msg, SkillPackRegistry.register pack packs' = Throw msg)
  /\ (SkillPackRegistry.unregister (SkillPack.id pack) packs').1 = true
  /\ SkillPackRegistry.get (SkillPack.id pack)
       (SkillPackRegistry.unregister (SkillPack.id pack) packs').2 = None
  /\ exists packs'',
       SkillPackRegistry.register pack
         (SkillPackRegistry.unregister (SkillPack.id pack) packs').2 = Return packs''.
Proof.
  unfold SkillPackRegistry.register in Hregistered.
  destruct (SkillPackRegistry.has (SkillPack.id pack) packs) eqn:Hhas; [done|].
  injection Hregistered as <-. rewrite (get_mapSet_new _ _ _ Hhas).
  assert (Hnone : SkillPackRegistry.get (SkillPack.id pack) packs = None).
  { destruct (SkillPackRegistry.get (SkillPack.id pack) packs) as [p|] eqn:Hget; [|done].
    assert (Htrue : SkillPackRegistry.has (SkillPack.id pack) packs = true)
      by (apply has_get; by eexists).
    congruence. }
  assert (Hfound : SkillPackRegistry.get (SkillPack.id pack)
                     (packs ++ [(SkillPack.id pack, pack)])%list = Some pack).
  { by rewrite get_app_last, Hnone, String.eqb_refl. }
  assert (Hhas' : SkillPackRegistry.has (SkillPack.id pack)
                    (packs ++ [(SkillPack.id pack, pack)])%list = true)
    by (apply has_get; by eexists).
  assert (Hgone : SkillPackRegistry.get (SkillPack.id pack)
                    (SkillPackRegistry.unregister (SkillPack.id pack)
                       (packs ++ [(SkillPack.id pack, pack)])%list).2 = None).
  { unfold SkillPackRegistry.unregister. cbn [snd].
    by rewrite get_filter_out, String.eqb_refl. }
  split; [done|]. split.
  { unfold SkillPackRegistry.getAll. by rewrite List.map_app. }
  split.
  { intros other Hother. rewrite get_app_last.
    destruct (SkillPackRegistry.get other packs); [done|].
    destruct (String.eqb_spec (SkillPack.id pack) other) as [Heq|Hne]; [by subst | done]. }
  split.
  { intros Hnd. unfold SkillPackRegistry.getIds. rewrite List.map_app. simpl.
    apply NoDup_app. split; [done|]. split; [|apply NoDup_singleton].
    intros k Hk Hk'. apply list_elem_of_singleton in Hk'. subst k.
    apply list_elem_of_In, in_map_iff in Hk as ([k p] & Hkey & Hin). simpl in Hkey. subst k.
    assert (Htrue : SkillPackRegistry.has (SkillPack.id pack) packs = true).
    { unfold SkillPackRegistry.has. apply existsb_exists.
      exists (SkillPack.id pack, p). split; [done | apply String.eqb_refl]. }
    congruence. }
  split.
  { unfold SkillPackRegistry.register. rewrite Hhas'. by eexists. }
  split.
  { unfold SkillPackRegistry.unregister. cbn [fst]. done. }
  split; [done|].
  unfold SkillPackRegistry.register.
  destruct (SkillPackRegistry.has (SkillPack.id pack)
              (SkillPackRegistry.unregister (SkillPack.id pack)
                 (packs ++ [(SkillPack.id pack, pack)])%list).2) eqn:Hagain;
    [|eexists; reflexivity].
  apply has_get in Hagain as [p Hp]. congruence.
Qed.

Lemma registry_register_then_unregister_witness :
  SkillPackRegistry.register MoreSamples.office MoreSamples.registry
  = Return [("uk-law", MoreSamples.ukLaw); ("office", MoreSamples.office)]
  /\ SkillPackRegistry.get "office"
       [("uk-law", MoreSamples.ukLaw); ("office", MoreSamples.office)]
     = Some MoreSamples.office.
Proof.
  split; [reflexivity|].
  apply (registry_register_then_unregister MoreSamples.office MoreSamples.registry _ eq_refl).
Defined.

(** * The scope processor *)

Section ScopeFacts.
Import ScopeProcessor.


End ScopeFacts.



(** * Further properties of the escalation processor *)

Section CaseFacts.

Lemma mapChars_cons f c s : JS.mapChars f (String c s) = String (f c) (JS.mapChars f s).
Proof. reflexivity. Qed.

Lemma mapChars_app f a b : JS.mapChars f (a ++ b) = JS.mapChars f a ++ JS.mapChars f b.
Proof.
  induction a as [|c a IH]; [reflexivity|].
  change (String c a ++ b) with (String c (a ++ b)).
  rewrite !mapChars_cons, IH. reflexivity.
Qed.

Lemma mapChars_length f s : String.length (JS.mapChars f s) = String.length s.
Proof.
  induction s as [|c s IH]; [reflexivity|]. rewrite mapChars_cons. simpl. by rewrite IH.
Qed.

Lemma lowerChar_idem c : JS.lowerChar (JS.lowerChar c) = JS.lowerChar c.
Proof. destruct c as [[] [] [] [] [] [] [] []]; reflexivity. Qed.

Lemma toLowerCase_idem s : JS.toLowerCase (JS.toLowerCase s) = JS.toLowerCase s.
Proof.
  unfold JS.toLowerCase. induction s as [|c s IH]; [reflexivity|].
  rewrite !mapChars_cons, lowerChar_idem, IH. reflexivity.
Qed.

Lemma append_inj_length (a a' b b' : string) :
  String.length a = String.length a' -> a ++ b = a' ++ b' -> a = a' /\ b = b'.
Proof.
  revert a'. induction a as [|c a IH]; intros [|c' a'] Hlen Heq; try done.
  change (String c (a ++ b) = String c' (a' ++ b')) in Heq.
  injection Heq as -> Heq. injection Hlen as Hlen.
  destruct (IH a' Hlen Heq) as [-> ->]. done.
Qed.

(** Only a text without capital letters occurs in a lowercased text. *)
Lemma includes_lowercased text kw :
  JS.includes (JS.toLowerCase text) kw = true -> JS.toLowerCase kw = kw.
Proof.
  intros Hin. apply includes_split in Hin as (pre & post & Hsplit).
  pose proof (toLowerCase_idem text) as Hidem. rewrite Hsplit in Hidem.
  unfold JS.toLowerCase in Hidem. rewrite !mapChars_app in Hidem.
  apply append_inj_length in Hidem as [_ Hrest]; [|apply mapChars_length].
  apply append_inj_length in Hrest as [Hkw _]; [done | apply mapChars_length].
Qed.

End CaseFacts.



(** X14. Escalation keywords are compared as written: the text is
    lowercased but the keywords are not, so only keywords without capital
    letters can match, and keywords with one can be dropped without
    changing the result. *)
Theorem escalation_keywords_case_sensitive (text : string) (keywords : list string) :
  EscalationProcessor.matched (JS.toLowerCase text) keywords
  = EscalationProcessor.matched (JS.toLowerCase text)
      (List.filter (fun kw => String.eqb (JS.toLowerCase kw) kw) keywords).
Proof.
  unfold EscalationProcessor.matched. induction keywords as [|kw keywords IH]; [done|].
  cbn [existsb List.filter].
  destruct (JS.includes (JS.toLowerCase text) kw) eqn:Hin.
  - apply includes_lowercased in Hin as Hkw. rewrite Hkw, String.eqb_refl.
    cbn [existsb]. by rewrite Hin.
  - destruct (String.eqb (JS.toLowerCase kw) kw); cbn [existsb]; rewrite ?Hin; exact IH.
Qed.

(** X15. Keyword expansions by registration: a topic expands to the
    keywords of the last registered pack that lists it, earlier lists for
    the topic being replaced rather than extended, and a pack that
    registers again replaces everything it registered before. *)
Theorem escalation_expansions_last_registration_wins
    (registered : list (string * gmap string (list string)))
    (skillPackId : string) (first second : gmap string (list string)) (topic : string) :
  EscalationProcessor.mergeExpansions (registered ++ [(skillPackId, second)])%list !! topic
  = match second !! topic with
    | Some keywords => Some keywords
    | None => EscalationProcessor.mergeExpansions registered !! topic
    end
  /\ EscalationProcessor.registerEscalationKeywords skillPackId second
       (EscalationProcessor.registerEscalationKeywords skillPackId first registered)
     = EscalationProcessor.registerEscalationKeywords skillPackId second registered.
Proof.
  split.
  - unfold EscalationProcessor.mergeExpansions. rewrite fold_left_app. cbn [fold_left snd].
    rewrite lookup_union. by destruct (second !! topic), (fold_left _ registered ∅ !! topic).
  - unfold EscalationProcessor.registerEscalationKeywords.
    induction registered as [|[k v] registered IH]; simpl.
    + by rewrite String.eqb_refl.
    + destruct (String.eqb k skillPackId) eqn:Hk; simpl.
      * by rewrite String.eqb_refl.
      * by rewrite Hk, IH.
Qed.

(** * Further properties of the limits processor *)

Section LimitsPaths.

Import LimitsProcessor.

Ltac hnorm :=
  cbv beta;
  cbn [globals state readings activeSessions dailyTokensUsed lastResetDate turns startedAt
       __sessionId __turnStartTime].
Ltac hstep := erewrite bind_step by reflexivity; hnorm.

(** Every path of the second half of the input hook under the runtime:
    the first check that fails ends it. *)
Lemma countTurn_runtime mandate clock sid messages (sessions : gmap string Session)
    d dt st t n started :
  sessions !! sid = Some (mkSession n started) ->
  countTurn mandate clock Runtime sid messages (mkWorld (mkGlobals sessions d dt) st t)
  = let counted := <[sid := mkSession (n + 1) started]> sessions in
    if MandateLimits.max_turns_per_session (limits mandate) <? n + 1 then
      mkRun Aborted (mkWorld (mkGlobals (delete sid counted) d dt) st t)
            [mkAbort (sessionLimitMessage (limits mandate)) false]
    else if 1000 * MandateLimits.timeout_seconds (limits mandate) <? nowAt clock t - started then
      mkRun Aborted (mkWorld (mkGlobals (delete sid counted) d dt) st (S t))
            [mkAbort "Session has timed out. Please start a new conversation." false]
    else if negb (MandateLimits.token_budget_daily (limits mandate) =? 0)
            && (MandateLimits.token_budget_daily (limits mandate) <=? d) then
      mkRun Aborted (mkWorld (mkGlobals counted d dt) st (S t)) [mkAbort "Daily token budget has been exhausted. Service will resume tomorrow." false]
    else
      mkRun (Returned messages)
            (mkWorld (mkGlobals counted d dt)
                     (mkRequestState (Some sid) (Some (nowAt clock (S t)))) (S (S t))) [].
Proof.
  intros Hs. unfold countTurn. hstep. rewrite Hs. hnorm. hstep.
  destruct (MandateLimits.max_turns_per_session (limits mandate) <? n + 1); cbn [when].
  { erewrite bind_aborted; [reflexivity|]. hstep. reflexivity. }
  hstep. hstep.
  destruct (1000 * MandateLimits.timeout_seconds (limits mandate) <? nowAt clock t - started);
    cbn [when].
  { erewrite bind_aborted; [reflexivity|]. hstep. reflexivity. }
  hstep. hstep.
  destruct (negb (MandateLimits.token_budget_daily (limits mandate) =? 0)
            && (MandateLimits.token_budget_daily (limits mandate) <=? d)); cbn [when].
  { erewrite bind_aborted; reflexivity. }
  hstep. hstep. hstep. hstep. reflexivity.
Qed.

(** The same under the harness, where every failing check is noted and
    the hook runs to its end. *)
Lemma countTurn_harness mandate clock sid messages (sessions : gmap string Session)
    d dt st t n started :
  sessions !! sid = Some (mkSession n started) ->
  let counted := <[sid := mkSession (n + 1) started]> sessions in
  let over := MandateLimits.max_turns_per_session (limits mandate) <? n + 1 in
  let late := 1000 * MandateLimits.timeout_seconds (limits mandate) <? nowAt clock t - started in
  let spent := negb (MandateLimits.token_budget_daily (limits mandate) =? 0)
               && (MandateLimits.token_budget_daily (limits mandate) <=? d) in
  let r := countTurn mandate clock Harness sid messages
             (mkWorld (mkGlobals sessions d dt) st t) in
  outcome r = Returned messages
  /\ aborts r = ((if over then [mkAbort (sessionLimitMessage (limits mandate)) false] else [])
                 ++ (if late then [mkAbort "Session has timed out. Please start a new conversation." false] else [])
                 ++ (if spent then [mkAbort "Daily token budget has been exhausted. Service will resume tomorrow." false] else []))%list
  /\ activeSessions (globals (final r))
     = (if over || late then delete sid counted else counted)
  /\ dailyTokensUsed (globals (final r)) = d.
Proof.
  intros Hs counted over late spent r. subst counted over late spent r.
  unfold countTurn. hstep. rewrite Hs. hnorm. hstep.
  destruct (MandateLimits.max_turns_per_session (limits mandate) <? n + 1); cbn [when].
  - erewrite bind_logged; [|hstep; reflexivity]. hnorm. hstep.
    destruct (1000 * MandateLimits.timeout_seconds (limits mandate) <? nowAt clock t - started);
      cbn [when].
    + erewrite bind_logged; [|hstep; reflexivity]. hnorm. hstep.
      destruct (negb (MandateLimits.token_budget_daily (limits mandate) =? 0)
                && (MandateLimits.token_budget_daily (limits mandate) <=? d)); cbn [when].
      * erewrite bind_logged; [|reflexivity]. hnorm. hstep. hstep. hstep.
        simpl. by rewrite delete_delete_eq.
      * hstep. hstep. hstep. hstep. simpl. by rewrite delete_delete_eq.
    + hstep. hstep.
      destruct (negb (MandateLimits.token_budget_daily (limits mandate) =? 0)
                && (MandateLimits.token_budget_daily (limits mandate) <=? d)); cbn [when].
      * erewrite bind_logged; [|reflexivity]. hnorm. hstep. hstep. hstep. done.
      * hstep. hstep. hstep. hstep. done.
  - hstep. hstep.
    destruct (1000 * MandateLimits.timeout_seconds (limits mandate) <? nowAt clock t - started);
      cbn [when].
    + erewrite bind_logged; [|hstep; reflexivity]. hnorm. hstep.
      destruct (negb (MandateLimits.token_budget_daily (limits mandate) =? 0)
                && (MandateLimits.token_budget_daily (limits mandate) <=? d)); cbn [when].
      * erewrite bind_logged; [|reflexivity]. hnorm. hstep. hstep. hstep. done.
      * hstep. hstep. hstep. hstep. done.
    + hstep. hstep.
      destruct (negb (MandateLimits.token_budget_daily (limits mandate) =? 0)
                && (MandateLimits.token_budget_daily (limits mandate) <=? d)); cbn [when].
      * erewrite bind_logged; [|reflexivity]. hnorm. hstep. hstep. hstep. done.
      * hstep. hstep. hstep. hstep. done.
Qed.

End LimitsPaths.

Section LimitsTurns.

Import LimitsProcessor.

Ltac hnorm :=
  cbv beta;
  cbn [globals state readings activeSessions dailyTokensUsed lastResetDate turns startedAt
       __sessionId __turnStartTime].
Ltac hstep := erewrite bind_step by reflexivity; hnorm.

(** The daily counter after the reset at the start of a hook. *)
Lemma reset_exact clock (sessions : gmap string Session) d dt st t :
  resetDailyIfNeeded clock (mkWorld (mkGlobals sessions d dt) st t)
  = mkRun (Returned tt)
      (mkWorld (mkGlobals sessions (if String.eqb (dateStringAt clock t) dt then d else 0)
                          (dateStringAt clock t)) st (S t)) [].
Proof.
  unfold resetDailyIfNeeded. hstep. hstep. simpl.
  destruct (String.eqb_spec (dateStringAt clock t) dt) as [->|Hne]; reflexivity.
Qed.

(** The input hook on an active session is its second half, one clock
    reading later. *)
Lemma processInput_present mandate clock host messages (sessions : gmap string Session)
    d dt st t :
  is_Some (sessions !! sessionIdOf st) ->
  processInput mandate clock host messages (mkWorld (mkGlobals sessions d dt) st t)
  = countTurn mandate clock host (sessionIdOf st) messages
      (mkWorld (mkGlobals sessions (if String.eqb (dateStringAt clock t) dt then d else 0)
                          (dateStringAt clock t)) st (S t)).
Proof.
  intros Hs. unfold processInput.
  erewrite bind_step by apply reset_exact. hnorm. hstep.
  erewrite bind_step by (by apply openSession_present). reflexivity.
Qed.

(** The input hook on a session that is not active, with room for it. *)
Lemma processInput_absent mandate clock host messages (sessions : gmap string Session)
    d dt st t :
  sessions !! sessionIdOf st = None ->
  Z.of_nat (size sessions) < MandateLimits.max_concurrent_sessions (limits mandate) ->
  processInput mandate clock host messages (mkWorld (mkGlobals sessions d dt) st t)
  = countTurn mandate clock host (sessionIdOf st) messages
      (mkWorld (mkGlobals (<[sessionIdOf st := mkSession 0 (nowAt clock (S t))]> sessions)
                          (if String.eqb (dateStringAt clock t) dt then d else 0)
                          (dateStringAt clock t)) st (S (S t))).
Proof.
  intros Hs Hroom. unfold processInput.
  erewrite bind_step by apply reset_exact. hnorm. hstep.
  erewrite bind_step by (by apply openSession_absent). reflexivity.
Qed.

(** The input hook on a session that is not active, without room for it,
    under the runtime. *)
Lemma processInput_full mandate clock messages (sessions : gmap string Session) d dt st t :
  sessions !! sessionIdOf st = None ->
  MandateLimits.max_concurrent_sessions (limits mandate) <= Z.of_nat (size sessions) ->
  processInput mandate clock Runtime messages (mkWorld (mkGlobals sessions d dt) st t)
  = mkRun Aborted
      (mkWorld (mkGlobals sessions (if String.eqb (dateStringAt clock t) dt then d else 0)
                          (dateStringAt clock t)) st (S t))
      [mkAbort "Maximum concurrent sessions reached. Please try again later." false].
Proof.
  intros Hs Hfull. unfold processInput.
  erewrite bind_step by apply reset_exact. hnorm. hstep.
  erewrite bind_aborted; [reflexivity|].
  unfold openSession. hstep.
  rewrite bool_decide_eq_false_2 by (rewrite Hs; apply is_Some_None).
  cbn [negb when]. rewrite (proj2 (Z.leb_le _ _) Hfull).
  erewrite bind_aborted; reflexivity.
Qed.

End LimitsTurns.

(** X16. The cap on concurrent sessions: under the runtime, a request for
    a session that is not active, made when the number of active sessions
    has reached the cap, is aborted for good with the concurrency message,
    and no session is opened or changed. *)
Theorem limits_concurrent_sessions_cap
    (mandate : Mandate) (clock : LimitsProcessor.Clock) (messages : list Message)
    (w0 : LimitsProcessor.World)
    (Hnew : LimitsProcessor.activeSessions (LimitsProcessor.globals w0)
              !! LimitsProcessor.sessionIdOf (LimitsProcessor.state w0) = None)
    (Hfull : MandateLimits.max_concurrent_sessions (limits mandate)
             <= Z.of_nat (size (LimitsProcessor.activeSessions (LimitsProcessor.globals w0)))) :
  let r := LimitsProcessor.processInput mandate clock Runtime messages w0 in
  outcome r = Aborted
  /\ aborts r = [mkAbort "Maximum concurrent sessions reached. Please try again later." false]
  /\ LimitsProcessor.activeSessions (LimitsProcessor.globals (final r))
     = LimitsProcessor.activeSessions (LimitsProcessor.globals w0).
Proof.
  destruct w0 as [[sessions d dt] st t]. simpl in Hnew, Hfull. intros r. subst r.
  by rewrite processInput_full.
Qed.

Lemma limits_concurrent_sessions_cap_witness :
  let r := LimitsProcessor.processInput MoreSamples.oneSession Sample.clock Runtime
             [Sample.user "hello"] MoreSamples.busyWorld in
  outcome r = Aborted
  /\ aborts r = [mkAbort "Maximum concurrent sessions reached. Please try again later." false]
  /\ LimitsProcessor.activeSessions (LimitsProcessor.globals (final r))
     = LimitsProcessor.activeSessions (LimitsProcessor.globals MoreSamples.busyWorld).
Proof.
  apply (limits_concurrent_sessions_cap MoreSamples.oneSession Sample.clock
           [Sample.user "hello"] MoreSamples.busyWorld).
  - reflexivity.
  - intros Hgt. vm_compute in Hgt. discriminate Hgt.
Defined.

(** X17. The number of active sessions stays within the cap: under the
    runtime, one request leaves at most as many active sessions as there
    were before or as the cap allows, whichever is larger. *)
Theorem limits_sessions_within_cap
    (mandate : Mandate) (clock : LimitsProcessor.Clock) (messages : list Message)
    (w0 : LimitsProcessor.World) :
  let r := LimitsProcessor.processInput mandate clock Runtime messages w0 in
  Z.of_nat (size (LimitsProcessor.activeSessions (LimitsProcessor.globals (final r))))
  <= Z.max (Z.of_nat (size (LimitsProcessor.activeSessions (LimitsProcessor.globals w0))))
           (MandateLimits.max_concurrent_sessions (limits mandate)).
Proof.
  destruct w0 as [[sessions d dt] st t]. intros r. subst r.
  cbn [LimitsProcessor.globals LimitsProcessor.activeSessions].
  assert (Hturn : forall (ss : gmap string LimitsProcessor.Session) d' dt' t' n started,
            ss !! LimitsProcessor.sessionIdOf st = Some (LimitsProcessor.mkSession n started) ->
            (size (LimitsProcessor.activeSessions (LimitsProcessor.globals (final
               (LimitsProcessor.countTurn mandate clock Runtime (LimitsProcessor.sessionIdOf st)
                  messages (LimitsProcessor.mkWorld (LimitsProcessor.mkGlobals ss d' dt') st t')))))
             <= size ss)%nat).
  { intros ss d' dt' t' n started Hs. rewrite (countTurn_runtime _ _ _ _ _ _ _ _ _ _ _ Hs).
    cbv zeta.
    assert (Hsame : size (<[LimitsProcessor.sessionIdOf st
                            := LimitsProcessor.mkSession (n + 1) started]> ss) = size ss)
      by (apply map_size_insert_Some; by eexists).
    assert (Hless : (size (delete (LimitsProcessor.sessionIdOf st)
                       (<[LimitsProcessor.sessionIdOf st
                          := LimitsProcessor.mkSession (n + 1) started]> ss)) <= size ss)%nat).
    { rewrite map_size_delete_Some by (rewrite lookup_insert_eq; by eexists). lia. }
    repeat match goal with |- context [if ?b then _ else _] => destruct b end;
      cbn [final LimitsProcessor.globals LimitsProcessor.activeSessions]; lia. }
  destruct (sessions !! LimitsProcessor.sessionIdOf st) as [[n started]|] eqn:Hs.
  - rewrite processInput_present by (by eexists).
    specialize (Hturn sessions
                  (if String.eqb (LimitsProcessor.dateStringAt clock t) dt then d else 0)
                  (LimitsProcessor.dateStringAt clock t) (S t) n started Hs).
    lia.
  - destruct (Z.le_gt_cases (MandateLimits.max_concurrent_sessions (limits mandate))
                (Z.of_nat (size sessions))) as [Hfull|Hroom].
    + rewrite processInput_full by done.
      cbn [final LimitsProcessor.globals LimitsProcessor.activeSessions]. lia.
    + rewrite processInput_absent by done.
      match goal with
      | |- context [LimitsProcessor.countTurn _ _ _ _ _
                      (LimitsProcessor.mkWorld (LimitsProcessor.mkGlobals ?ss ?d' ?dt') _ ?t')] =>
          specialize (Hturn ss d' dt' t' 0 (LimitsProcessor.nowAt clock (S t))
                        (lookup_insert_eq _ _ _))
      end.
      rewrite map_size_insert_None in Hturn by done. lia.
Qed.

(** X18. Session timeout: on an active session with turns left, a request
    that arrives more than the timeout after the session started is
    aborted for good with the timeout message, and the session is removed;
    the start of the session is what counts, not its last turn. *)
Theorem limits_session_timeout
    (mandate : Mandate) (clock : LimitsProcessor.Clock) (host : Host)
    (messages : list Message) (w0 : LimitsProcessor.World) (n started : Z)
    (Hactive : LimitsProcessor.activeSessions (LimitsProcessor.globals w0)
                 !! LimitsProcessor.sessionIdOf (LimitsProcessor.state w0)
               = Some (LimitsProcessor.mkSession n started))
    (Hturns : n + 1 <= MandateLimits.max_turns_per_session (limits mandate))
    (Hlate : 1000 * MandateLimits.timeout_seconds (limits mandate)
             < LimitsProcessor.nowAt clock (S (LimitsProcessor.readings w0)) - started) :
  let r := LimitsProcessor.processInput mandate clock host messages w0 in
  abortsWith r (mkAbort "Session has timed out. Please start a new conversation." false)
  /\ LimitsProcessor.activeSessions (LimitsProcessor.globals (final r))
       !! LimitsProcessor.sessionIdOf (LimitsProcessor.state w0) = None
  /\ outcome r = match host with Runtime => Aborted | Harness => Returned messages end.
Proof.
  destruct w0 as [[sessions d dt] st t]. simpl in Hactive, Hturns, Hlate. intros r. subst r.
  rewrite processInput_present by (by eexists).
  cbn [LimitsProcessor.state].
  destruct host.
  - rewrite (countTurn_runtime _ _ _ _ _ _ _ _ _ _ _ Hactive). cbv zeta.
    rewrite (proj2 (Z.ltb_ge _ _) Hturns), (proj2 (Z.ltb_lt _ _) Hlate).
    split; [done|]. split; [apply lookup_delete_eq | done].
  - destruct (countTurn_harness mandate clock (LimitsProcessor.sessionIdOf st) messages
                sessions (if String.eqb (LimitsProcessor.dateStringAt clock t) dt then d else 0)
                (LimitsProcessor.dateStringAt clock t) st (S t) n started Hactive)
      as (Hout & Hab & Hss & _).
    rewrite (proj2 (Z.ltb_ge _ _) Hturns), (proj2 (Z.ltb_lt _ _) Hlate) in Hab, Hss.
    split; [|split; [|done]].
    + unfold abortsWith. by rewrite Hab.
    + rewrite Hss. apply lookup_delete_eq.
Qed.

Lemma limits_session_timeout_witness :
  let r := LimitsProcessor.processInput Sample.tenant MoreSamples.lateClock Runtime
             [Sample.user "hello"] (MoreSamples.activeWorld 0) in
  abortsWith r (mkAbort "Session has timed out. Please start a new conversation." false)
  /\ LimitsProcessor.activeSessions (LimitsProcessor.globals (final r)) !! "default" = None
  /\ outcome r = Aborted.
Proof.
  apply (limits_session_timeout Sample.tenant MoreSamples.lateClock Runtime
           [Sample.user "hello"] (MoreSamples.activeWorld 0) 1 1000).
  - reflexivity.
  - intros Hgt. vm_compute in Hgt. discriminate Hgt.
  - reflexivity.
Defined.

(** X19. The daily token budget: on an active session with turns and time
    left, a request made when the tokens counted today have reached a
    positive budget is aborted for good with the budget message, its turn
    being counted all the same; the first request of another day resets
    the counter and goes through. *)
Theorem limits_daily_budget
    (mandate : Mandate) (clock : LimitsProcessor.Clock) (host : Host)
    (messages : list Message) (w0 : LimitsProcessor.World) (n started : Z)
    (Hactive : LimitsProcessor.activeSessions (LimitsProcessor.globals w0)
                 !! LimitsProcessor.sessionIdOf (LimitsProcessor.state w0)
               = Some (LimitsProcessor.mkSession n started))
    (Hturns : n + 1 <= MandateLimits.max_turns_per_session (limits mandate))
    (Hintime : LimitsProcessor.nowAt clock (S (LimitsProcessor.readings w0)) - started
               <= 1000 * MandateLimits.timeout_seconds (limits mandate))
    (Hbudget : 0 < MandateLimits.token_budget_daily (limits mandate)) :
  let r := LimitsProcessor.processInput mandate clock host messages w0 in
  let today := LimitsProcessor.dateStringAt clock (LimitsProcessor.readings w0) in
  (today = LimitsProcessor.lastResetDate (LimitsProcessor.globals w0) ->
   MandateLimits.token_budget_daily (limits mandate)
     <= LimitsProcessor.dailyTokensUsed (LimitsProcessor.globals w0) ->
     aborts r = [mkAbort "Daily token budget has been exhausted. Service will resume tomorrow."
                         false]
     /\ LimitsProcessor.activeSessions (LimitsProcessor.globals (final r))
          !! LimitsProcessor.sessionIdOf (LimitsProcessor.state w0)
        = Some (LimitsProcessor.mkSession (n + 1) started))
  /\ (today <> LimitsProcessor.lastResetDate (LimitsProcessor.globals w0) ->
        passes r messages
        /\ LimitsProcessor.dailyTokensUsed (LimitsProcessor.globals (final r)) = 0).
Proof.
  destruct w0 as [[sessions d dt] st t]. simpl in Hactive, Hturns, Hintime.
  intros r today. subst r today.
  rewrite processInput_present by (by eexists).
  cbn [LimitsProcessor.state LimitsProcessor.globals LimitsProcessor.readings
       LimitsProcessor.lastResetDate LimitsProcessor.dailyTokensUsed].
  assert (Hpos : (MandateLimits.token_budget_daily (limits mandate) =? 0) = false)
    by (apply Z.eqb_neq; lia).
  split.
  - intros Hday Hspent. rewrite Hday, String.eqb_refl.
    destruct host.
    + rewrite (countTurn_runtime _ _ _ _ _ _ _ _ _ _ _ Hactive). cbv zeta.
      rewrite (proj2 (Z.ltb_ge _ _) Hturns), (proj2 (Z.ltb_ge _ _) Hintime), Hpos,
        (proj2 (Z.leb_le _ _) Hspent).
      split; [done | apply lookup_insert_eq].
    + destruct (countTurn_harness mandate clock (LimitsProcessor.sessionIdOf st) messages
                  sessions d dt st (S t) n started Hactive) as (_ & Hab & Hss & _).
      rewrite (proj2 (Z.ltb_ge _ _) Hturns), (proj2 (Z.ltb_ge _ _) Hintime) in Hab, Hss.
      rewrite Hpos, (proj2 (Z.leb_le _ _) Hspent) in Hab.
      split; [done|]. rewrite Hss. apply lookup_insert_eq.
  - intros Hday. rewrite (proj2 (String.eqb_neq _ _) Hday).
    destruct host.
    + rewrite (countTurn_runtime _ _ _ _ _ _ _ _ _ _ _ Hactive). cbv zeta.
      rewrite (proj2 (Z.ltb_ge _ _) Hturns), (proj2 (Z.ltb_ge _ _) Hintime), Hpos.
      rewrite (proj2 (Z.leb_gt _ _) Hbudget). done.
    + destruct (countTurn_harness mandate clock (LimitsProcessor.sessionIdOf st) messages
                  sessions 0 (LimitsProcessor.dateStringAt clock t) st (S t) n started Hactive)
        as (Hout & Hab & _ & Hd).
      rewrite (proj2 (Z.ltb_ge _ _) Hturns), (proj2 (Z.ltb_ge _ _) Hintime), Hpos,
        (proj2 (Z.leb_gt _ _) Hbudget) in Hab.
      done.
Qed.

Lemma limits_daily_budget_witness :
  aborts (LimitsProcessor.processInput Sample.tenant Sample.clock Runtime
            [Sample.user "hello"] (MoreSamples.activeWorld 500000))
  = [mkAbort "Daily token budget has been exhausted. Service will resume tomorrow." false]
  /\ LimitsProcessor.activeSessions
       (LimitsProcessor.globals
          (final (LimitsProcessor.processInput Sample.tenant Sample.clock Runtime
                    [Sample.user "hello"] (MoreSamples.activeWorld 500000))))
       !! "default"
     = Some (LimitsProcessor.mkSession 2 1000).
Proof.
  destruct (limits_daily_budget Sample.tenant Sample.clock Runtime
              [Sample.user "hello"] (MoreSamples.activeWorld 500000) 1 1000)
    as [Hspent _].
  - reflexivity.
  - intros Hgt. vm_compute in Hgt. discriminate Hgt.
  - intros Hgt. vm_compute in Hgt. discriminate Hgt.
  - reflexivity.
  - apply Hspent; [reflexivity|]. intros Hgt. vm_compute in Hgt. discriminate Hgt.
Defined.

Section LimitsOutput.

Import LimitsProcessor.

Ltac hnorm :=
  cbv beta;
  cbn [globals state readings activeSessions dailyTokensUsed lastResetDate turns startedAt
       __sessionId __turnStartTime].
Ltac hstep := erewrite bind_step by reflexivity; hnorm.

Lemma length_append (a b : string) :
  String.length (a ++ b) = (String.length a + String.length b)%nat.
Proof.
  induction a as [|c a IH]; [reflexivity|].
  change (String c a ++ b) with (String c (a ++ b)). simpl. by rewrite IH.
Qed.

Lemma length_take n : forall s, String.length (JS.take n s) = Nat.min n (String.length s).
Proof.
  induction n as [|n IH]; intros [|c s]; simpl; try reflexivity. by rewrite IH.
Qed.

Lemma take_append_exact n : forall a b,
  String.length a = n -> JS.take n (a ++ b) = a.
Proof.
  induction n as [|n IH]; intros [|c a] b Hlen; try done.
  change (String c a ++ b) with (String c (a ++ b)). simpl.
  rewrite IH; [done|]. by injection Hlen.
Qed.

Lemma take_take n s b :
  (n <= String.length s)%nat -> JS.take n (JS.take n s ++ b) = JS.take n s.
Proof. intros Hn. apply take_append_exact. rewrite length_take. lia. Qed.

(** The estimate exceeds the cap exactly when the text is longer than four
    times the cap. *)
Lemma over_cap_iff cap text : cap < estimateTokens text <-> 4 * cap < JS.length text.
Proof. pose proof (estimateTokens_ceil text). lia. Qed.

(** A truncated text is still over the cap, and truncating it again
    changes nothing. *)
Lemma truncate_again limits text :
  MandateLimits.max_tokens_per_turn limits < estimateTokens text ->
  MandateLimits.max_tokens_per_turn limits < estimateTokens (truncate limits text)
  /\ truncate limits (truncate limits text) = truncate limits text.
Proof.
  intros Hover. apply over_cap_iff in Hover. unfold truncate, JS.substring0.
  set (cap := MandateLimits.max_tokens_per_turn limits) in *.
  assert (Hmarker : (0 < String.length truncationMarker)%nat) by (vm_compute; lia).
  assert (Hn : (Z.to_nat (cap * 4) <= String.length text)%nat)
    by (unfold JS.length in Hover; lia).
  split.
  - apply over_cap_iff. unfold JS.length. rewrite length_append, length_take. lia.
  - by rewrite take_take.
Qed.

(** The position of the last message of a role depends on the roles
    only. *)
Lemma findLastIndexFrom_roles r ms : forall ms' i found,
  role <$> ms = role <$> ms' ->
  findLastIndexFrom r ms i found = findLastIndexFrom r ms' i found.
Proof.
  induction ms as [|m ms IH]; intros [|m' ms'] i found Hroles; try done.
  simpl in Hroles. injection Hroles as Hrole Hroles. simpl. rewrite Hrole. by apply IH.
Qed.

Lemma findLastIndex_withContent ms r idx m text :
  ms !! idx = Some m ->
  findLastIndex (<[idx := withContent m text]> ms) r = findLastIndex ms r.
Proof.
  intros Hm. unfold findLastIndex. apply findLastIndexFrom_roles.
  rewrite list_fmap_insert. apply list_insert_id. by rewrite list_lookup_fmap, Hm.
Qed.

(** What the output hook returns does not depend on the host, the clock
    or the state of the process. *)
Lemma processOutputResult_outcome mandate clock host messages w :
  outcome (processOutputResult mandate clock host messages w)
  = Returned
      match findLast messages "assistant" with
      | None => messages
      | Some lastAssistantMsg =>
          if MandateLimits.max_tokens_per_turn (limits mandate)
               <? estimateTokens (textOf lastAssistantMsg)
          then match findLastIndex messages "assistant" with
               | Some idx =>
                   match messages !! idx with
                   | Some m =>
                       <[idx := withContent m (truncate (limits mandate)
                                                 (textOf lastAssistantMsg))]> messages
                   | None => messages
                   end
               | None => messages
               end
          else messages
      end.
Proof.
  destruct w as [[sessions d dt] st t]. unfold processOutputResult.
  erewrite bind_step by apply reset_exact. hnorm.
  destruct (findLast messages "assistant") as [m|]; [|reflexivity].
  destruct (MandateLimits.max_tokens_per_turn (limits mandate) <? estimateTokens (textOf m));
    [reflexivity|].
  hstep. reflexivity.
Qed.

End LimitsOutput.

(** X20. Truncation is stable: running the output hook of the limits
    processor again on the messages it returned, at any later time and in
    any state of the process, returns these messages as they are. *)
Theorem limits_output_idempotent
    (mandate : Mandate) (clock clock' : LimitsProcessor.Clock) (host host' : Host)
    (messages messages' : list Message) (w w' : LimitsProcessor.World)
    (Hfirst : outcome (LimitsProcessor.processOutputResult mandate clock host messages w)
              = Returned messages') :
  outcome (LimitsProcessor.processOutputResult mandate clock' host' messages' w')
  = Returned messages'.
Proof.
  rewrite processOutputResult_outcome in Hfirst. injection Hfirst as Hfirst.
  rewrite processOutputResult_outcome. f_equal.
  destruct (findLast messages "assistant") as [m|] eqn:Hlast.
  2:{ subst messages'. by rewrite Hlast. }
  destruct (MandateLimits.max_tokens_per_turn (limits mandate)
              <? LimitsProcessor.estimateTokens (textOf m)) eqn:Hover.
  2:{ subst messages'. by rewrite Hlast, Hover. }
  destruct (findLast_index _ _ _ Hlast) as (idx & Hidx & Hm).
  rewrite Hidx, Hm in Hfirst. subst messages'.
  apply Z.ltb_lt, truncate_again in Hover as [Hstill Hsame].
  assert (Hlen : (idx < List.length messages)%nat) by (by eapply lookup_lt_Some).
  assert (Hlast' : findLast (<[idx := LimitsProcessor.withContent m
                                 (LimitsProcessor.truncate (limits mandate) (textOf m))]>
                              messages) "assistant"
                   = Some (LimitsProcessor.withContent m
                             (LimitsProcessor.truncate (limits mandate) (textOf m)))).
  { unfold findLast. rewrite (findLastIndex_withContent _ _ _ _ _ Hm), Hidx.
    by apply list_lookup_insert_eq. }
  rewrite Hlast'. cbn [textOf LimitsProcessor.withContent content].
  rewrite (proj2 (Z.ltb_lt _ _) Hstill).
  rewrite (findLastIndex_withContent _ _ _ _ _ Hm), Hidx.
  rewrite list_lookup_insert_eq by done.
  rewrite list_insert_insert_eq. unfold LimitsProcessor.withContent at 1.
  cbn [role others]. by rewrite Hsame.
Qed.

Lemma limits_output_idempotent_witness :
  outcome (LimitsProcessor.processOutputResult Sample.twoTokens Sample.clock Runtime
             [Sample.user "q";
              Sample.assistant ("12345678" ++ LimitsProcessor.truncationMarker)]
             Sample.freshWorld)
  = Returned [Sample.user "q";
              Sample.assistant ("12345678" ++ LimitsProcessor.truncationMarker)].
Proof.
  apply (limits_output_idempotent Sample.twoTokens Sample.clock Sample.clock Runtime Runtime
           [Sample.user "q"; Sample.assistant "123456789"] _
           Sample.freshWorld Sample.freshWorld).
  reflexivity.
Defined.



(** * Further properties of the tool gate *)

Section GateFacts.

Import ToolGateProcessor ToolGateVerdict.







End GateFacts.



(** X23. Gate and filter agree on tools: for a mandate whose wildcard
    prohibitions all leave a non-empty prefix, the gate admits a named
    tool call exactly when the tool filter would expose that tool and the
    arguments mention no prohibited data category. *)
Theorem toolGate_admits_what_filter_exposes
    (mandate : Mandate) (toolCall : ToolCall) (n : string)
    (Hname : ToolGateVerdict.nameOf toolCall = Some n)
    (Hprefixes : forall p, p ∈ prohibitedPrefixesOf mandate -> p <> "") :
  ToolGateVerdict.admitted mandate toolCall
  = toolPasses mandate n && ToolGateVerdict.dataClean mandate toolCall.
Proof.
  unfold ToolGateVerdict.admitted, toolPasses. rewrite Hname. cbv zeta. f_equal.
  assert (Hwhite : bool_decide (n ∈ (list_to_set (Capabilities.tools (capabilities mandate))
                                      : gset string))
                   = bool_decide (n ∈ Capabilities.tools (capabilities mandate))).
  { apply bool_decide_ext, elem_of_list_to_set. }
  assert (Hexact : bool_decide (n ∈ (list_to_set (prohibitedExactOf mandate) : gset string))
                   = bool_decide (n ∈ prohibitedExactOf mandate)).
  { apply bool_decide_ext, elem_of_list_to_set. }
  rewrite Hwhite, Hexact. f_equal.
  destruct (List.find (fun prefix => JS.startsWith n prefix) (prohibitedPrefixesOf mandate))
    as [p|] eqn:Hfind.
  - pose proof (find_some _ _ Hfind) as [Hin Hstarts].
    assert (Hex : existsb (fun prefix => JS.startsWith n prefix) (prohibitedPrefixesOf mandate)
                  = true) by (apply existsb_exists; eauto).
    rewrite Hex. simpl. apply String.eqb_neq, Hprefixes. by apply list_elem_of_In.
  - destruct (existsb _ (prohibitedPrefixesOf mandate)) eqn:Hex; [|done].
    apply existsb_exists in Hex as (p & Hp & Hstarts).
    by rewrite (find_none _ _ Hfind p Hp) in Hstarts.
Qed.

Lemma toolGate_admits_what_filter_exposes_witness :
  ToolGateVerdict.admitted Sample.tenant
    (Sample.call "formal-letter" (Json.Obj [("to", Json.Str "landlord")]))
  = true
  /\ ToolGateVerdict.admitted Sample.tenant
       (Sample.call "calendar-create" (Json.Obj []))
     = false.
Proof.
  split.
  - rewrite (toolGate_admits_what_filter_exposes Sample.tenant
               (Sample.call "formal-letter" (Json.Obj [("to", Json.Str "landlord")]))
               "formal-letter" eq_refl).
    + reflexivity.
    + intros p Hp. vm_compute in Hp.
      repeat (apply elem_of_cons in Hp as [->|Hp]; [discriminate|]).
      by apply elem_of_nil in Hp.
  - rewrite (toolGate_admits_what_filter_exposes Sample.tenant
               (Sample.call "calendar-create" (Json.Obj [])) "calendar-create" eq_refl).
    + reflexivity.
    + intros p Hp. vm_compute in Hp.
      repeat (apply elem_of_cons in Hp as [->|Hp]; [discriminate|]).
      by apply elem_of_nil in Hp.
Defined.

Section GateAudit.

Import ToolGateProcessor ToolGateVerdict.

Lemma logged_ret {A} (a : A) s : everyAbortLogged s (ret a s).
Proof. exists []. by rewrite app_nil_r. Qed.

Lemma logged_bind {A B} (m : Hook (list AuditRecord) A) (f : A -> Hook (list AuditRecord) B) s :
  everyAbortLogged s (m s) ->
  (forall a s', everyAbortLogged s' (f a s')) ->
  everyAbortLogged s (bind m f s).
Proof.
  intros (e1 & Hfinal & Hcount) Hf. unfold bind.
  destruct (m s) as [[a| |e] fin ab]; cbn [final aborts outcome] in *; subst fin.
  - destruct (Hf a (s ++ e1)%list) as (e2 & Hfinal2 & Hcount2).
    exists (e1 ++ e2)%list. cbn [final aborts].
    rewrite Hfinal2, app_assoc, List.filter_app, !length_app. split; [done | lia].
  - by exists e1.
  - by exists e1.
Qed.

Lemma logged_when (b : bool) (m : Hook (list AuditRecord) unit) s :
  everyAbortLogged s (m s) -> everyAbortLogged s (when b m s).
Proof. destruct b; [done | intros _; apply logged_ret]. Qed.

Lemma logged_forEach {A} (xs : list A) (body : A -> Hook (list AuditRecord) unit) :
  (forall x s, everyAbortLogged s (body x s)) ->
  forall s, everyAbortLogged s (forEach xs body s).
Proof.
  intros Hbody. induction xs as [|x xs IH]; intros s; simpl; [apply logged_ret|].
  apply logged_bind; [apply Hbody | intros _ s'; apply IH].
Qed.

Lemma logged_blocked host check detail reason retry s :
  everyAbortLogged s ((log (mkAudit check "blocked" detail) ;; abort host reason retry) s).
Proof. exists [mkAudit check "blocked" detail]. by destruct host. Qed.

Lemma logged_allowed check detail s :
  everyAbortLogged s (log (mkAudit check "allowed" detail) s).
Proof. by exists [mkAudit check "allowed" detail]. Qed.

Lemma logged_checkCall mandate host retryCount toolCall s :
  everyAbortLogged s (checkCall mandate host retryCount toolCall s).
Proof.
  unfold checkCall.
  apply logged_bind.
  { apply logged_when. destruct (retryCount <? 2); apply logged_blocked. }
  intros _ s1. apply logged_bind.
  { apply logged_when, logged_blocked. }
  intros _ s2. apply logged_bind.
  { destruct (orElse (toolName toolCall) (altName toolCall)) as [n|].
    - destruct (List.find _ _); [|apply logged_ret].
      apply logged_when, logged_blocked.
    - destruct (prohibitedPrefixesOf mandate); [apply logged_ret|].
      exists []. by rewrite app_nil_r. }
  intros _ s3. apply logged_bind.
  { apply logged_forEach. intros category s'.
    destruct (List.find _ _); [|apply logged_ret].
    apply logged_when, logged_blocked. }
  intros _ s4. apply logged_allowed.
Qed.

End GateAudit.

(** X24. Every block of the tool gate is on record: for a mandate whose
    prohibited data categories are not named like a property every object
    inherits, whatever the batch and the host, the gate only appends to
    the audit log, and the records it appends with result blocked are as
    many as its calls of abort. *)
Theorem toolGate_every_abort_logged
    (mandate : Mandate) (host : Host) (retryCount : Z) (messages : list Message)
    (toolCalls : option (list ToolCall)) (before : list ToolGateProcessor.AuditRecord)
    (Hcategories : forall category,
        category ∈ Prohibitions.data (prohibitions mandate) ->
        category ∉ SkillPackRegistry.inherited) :
  everyAbortLogged before
    (ToolGateProcessor.processOutputStep mandate host retryCount messages toolCalls before).
Proof.
  unfold ToolGateProcessor.processOutputStep.
  destruct toolCalls as [[|call calls]|]; try apply logged_ret.
  apply logged_bind.
  { apply logged_when, logged_blocked. }
  intros _ s1. apply logged_bind.
  { apply logged_forEach. intros toolCall s. apply logged_checkCall. }
  intros _ s2. apply logged_ret.
Qed.

Lemma toolGate_every_abort_logged_witness :
  everyAbortLogged []
    (ToolGateProcessor.processOutputStep Sample.tenant Harness 0 []
       (Some [Sample.call "email-send" (Json.Obj [("iban", Json.Str "bank_account 12")])]) []).
Proof.
  apply (toolGate_every_abort_logged Sample.tenant Harness 0 []
           (Some [Sample.call "email-send" (Json.Obj [("iban", Json.Str "bank_account 12")])])
           []).
  intros category Hc. vm_compute in Hc. apply list_elem_of_singleton in Hc. subst category.
  intros Hin. vm_compute in Hin.
  repeat (apply elem_of_cons in Hin as [Hin|Hin]; [discriminate Hin|]).
  by apply elem_of_nil in Hin.
Defined.

(** * Further properties of the data-access processor *)

Section WriteCheckFacts.

Import DataAccessProcessor.

Lemma extension_check_quiet_returns host allowed (values : list string) (b : bool) :
  aborts (when b (forEach values (checkValue host allowed)) tt) = [] ->
  outcome (when b (forEach values (checkValue host allowed)) tt) = Returned tt.
Proof.
  destruct b; [|done]. cbn [when]. apply forEach_quiet_returns.
  intros value _. apply checkValue_run.
Qed.

(** With a writable scope the second check is skipped. *)
Lemma checkCall_writable mandate host toolCall :
  writeableScopesOf mandate <> [] ->
  Forall (fun c => exists ext,
            c = mkAbort (fileTypeMessage (allowedExtensionsOf mandate) ext) true)
         (aborts (checkCall mandate host toolCall tt)).
Proof.
  intros Hwrite. unfold checkCall. rewrite aborts_bind_unit.
  rewrite (proj2 (nonempty_length (writeableScopesOf mandate)) Hwrite). cbn [negb when].
  apply Forall_app. split.
  - destruct (0 <? List.length (allowedExtensionsOf mandate))%nat; [|constructor].
    cbn [when]. apply forEach_aborts_Forall. intros value _.
    rewrite (proj1 (checkValue_run _ _ _)).
    destruct (checkedExtension value) as [ext|]; [|constructor].
    destruct (bool_decide _); constructor; [by exists ext | constructor].
  - destruct (outcome _); constructor.
Qed.

(** Without one, a call of a tool whose name reads like a write makes the
    pass call [abort]. *)
Lemma checkCall_write_tool mandate host toolCall :
  writeableScopesOf mandate = [] ->
  RegExp.test writeToolPattern
    (default "" (orElse (orElse (toolName toolCall) (altName toolCall)) (Some ""))) = true ->
  aborts (checkCall mandate host toolCall tt) <> [].
Proof.
  intros Hnone Htool. unfold checkCall. rewrite aborts_bind_unit. rewrite Hnone.
  cbn [List.length Nat.ltb Nat.leb negb when]. cbv zeta. rewrite Htool, orb_true_r.
  cbn [when]. intros Hq. apply app_eq_nil in Hq as [Hfirst Hrest].
  rewrite (extension_check_quiet_returns _ _ _ _ Hfirst) in Hrest.
  by destruct host.
Qed.

End WriteCheckFacts.

(** X25. The write check is all or nothing: when any data-access rule of
    the mandate grants write, on whatever scope, the processor never
    aborts for a write and every abort it makes is a file-type abort; when
    no rule grants write, a call of a tool whose name matches the
    processor's pattern for writing tools (write, save, create, delete,
    upload or send, ignoring case) makes the processor abort, with
    retry. *)
Theorem dataAccess_write_check_all_or_nothing
    (mandate : Mandate) (host : Host) (messages : list Message) (calls : list ToolCall) :
  let r := DataAccessProcessor.processOutputStep mandate host messages (Some calls) tt in
  (DataAccessProcessor.writeableScopesOf mandate <> [] ->
     Forall (fun c => exists ext,
               c = mkAbort (DataAccessProcessor.fileTypeMessage
                              (DataAccessProcessor.allowedExtensionsOf mandate) ext) true)
            (aborts r))
  /\ (DataAccessProcessor.writeableScopesOf mandate = [] ->
      forall call, call ∈ calls ->
        RegExp.test DataAccessProcessor.writeToolPattern
          (default "" (orElse (orElse (toolName call) (altName call)) (Some ""))) = true ->
        exists c, abortsWith r c /\ retry c = true).
Proof.
  intros r. subst r. unfold DataAccessProcessor.processOutputStep. split.
  - intros Hwrite. destruct calls as [|call0 calls']; [constructor|].
    rewrite aborts_bind_unit. apply Forall_app. split.
    + apply forEach_aborts_Forall. intros call _. by apply checkCall_writable.
    + destruct (outcome _); constructor.
  - intros Hnone call Hcall Htool.
    destruct calls as [|call0 calls']; [by apply elem_of_nil in Hcall|].
    assert (Hloud : aborts (forEach (call0 :: calls')
                              (DataAccessProcessor.checkCall mandate host) tt) <> []).
    { apply (forEach_aborts_nonempty _ _ call); [|done|].
      - intros c _. apply checkCall_quiet_returns.
      - by apply checkCall_write_tool. }
    assert (Hretry : Forall (fun c => retry c = true)
                       (aborts (forEach (call0 :: calls')
                                  (DataAccessProcessor.checkCall mandate host) tt))).
    { apply forEach_aborts_Forall. intros c _.
      eapply Forall_impl; [apply checkCall_sound|]. by intros ? [? _]. }
    unfold abortsWith. rewrite aborts_bind_unit.
    destruct (aborts (forEach (call0 :: calls')
                        (DataAccessProcessor.checkCall mandate host) tt))
      as [|c rest]; [done|].
    exists c. split; [done|]. by inversion Hretry.
Qed.

Lemma dataAccess_write_check_all_or_nothing_witness :
  Forall (fun c => exists ext,
            c = mkAbort (DataAccessProcessor.fileTypeMessage
                           (DataAccessProcessor.allowedExtensionsOf MoreSamples.withDrafts) ext)
                        true)
         (aborts (DataAccessProcessor.processOutputStep MoreSamples.withDrafts Runtime []
                    (Some [Sample.call "file-write" (Json.Obj [])]) tt))
  /\ exists c,
       abortsWith (DataAccessProcessor.processOutputStep Sample.contract Runtime []
                     (Some [Sample.call "Email-Send" (Json.Obj [])]) tt) c
       /\ retry c = true.
Proof.
  split.
  - apply (dataAccess_write_check_all_or_nothing MoreSamples.withDrafts Runtime []
             [Sample.call "file-write" (Json.Obj [])]).
    discriminate.
  - destruct (dataAccess_write_check_all_or_nothing Sample.contract Runtime []
                [Sample.call "Email-Send" (Json.Obj [])]) as [_ Hreadonly].
    apply (Hreadonly eq_refl (Sample.call "Email-Send" (Json.Obj []))).
    + apply list_elem_of_here.
    + reflexivity.
Defined.

(** * Further properties of the citation processor *)

Section BlockedSourceFacts.

Import CitationProcessor.

Lemma outcome_bind_aborted {S A B} (m : Hook S A) (f : A -> Hook S B) (s : S) :
  outcome (m s) = Aborted -> outcome (bind m f s) = Aborted.
Proof. unfold bind. by intros ->. Qed.

(** The loop over the patterns of one source: the first pattern that
    matches makes it call [abort]. *)
Lemma blocked_tests_run host (call : AbortCall) (text : string) (tests : list (string -> bool)) :
  let run := forEach tests (fun test =>
               when (test text) (abort (S := unit) host (reason call) (retry call))) tt in
  if existsb (fun test => test text) tests
  then abortsWith run call /\ (host = Runtime -> outcome run = Aborted)
  else run = mkRun (Returned tt) tt [].
Proof.
  induction tests as [|test tests IH]; simpl; [done|].
  destruct (test text) eqn:Htest; simpl.
  - split.
    + apply abortsWith_bind. by destruct call.
    + intros ->. by apply outcome_bind_aborted.
  - erewrite bind_step by reflexivity. apply IH.
Qed.

Lemma checkBlocked_hit mandate blockedPatterns host retryCount text :
  blockedHit blockedPatterns text = true ->
  exists source patterns,
    (source, patterns) ∈ blockedPatterns
    /\ existsb (fun test => test text) patterns = true
    /\ abortsWith (checkBlocked mandate blockedPatterns host retryCount text tt)
         (if retryCount <? 2 then mkAbort (blockedMessage mandate source) true
          else mkAbort unableMessage false)
    /\ (host = Runtime -> outcome (checkBlocked mandate blockedPatterns host retryCount text tt)
                          = Aborted).
Proof.
  unfold blockedHit, checkBlocked.
  induction blockedPatterns as [|[source patterns] entries IH]; simpl; [done|].
  pose proof (blocked_tests_run host
                (if retryCount <? 2 then mkAbort (blockedMessage mandate source) true
                 else mkAbort unableMessage false) text patterns) as Hsource.
  cbv zeta in Hsource.
  assert (Hbody : forEach patterns
                    (fun test => when (test text)
                       (if retryCount <? 2 then abort host (blockedMessage mandate source) true
                        else abort host unableMessage false)) tt
                  = forEach patterns
                      (fun test => when (test text)
                         (abort host
                            (reason (if retryCount <? 2
                                     then mkAbort (blockedMessage mandate source) true
                                     else mkAbort unableMessage false))
                            (retry (if retryCount <? 2
                                    then mkAbort (blockedMessage mandate source) true
                                    else mkAbort unableMessage false)))) tt).
  { by destruct (retryCount <? 2). }
  rewrite <- Hbody in Hsource.
  destruct (existsb (fun test => test text) patterns) eqn:Hhit; simpl.
  - intros _. destruct Hsource as [Hab Hout]. exists source, patterns.
    split; [apply list_elem_of_here|]. split; [done|]. split.
    + by apply abortsWith_bind.
    + intros Hhost. apply outcome_bind_aborted. by apply Hout.
  - intros Hrest. destruct (IH Hrest) as (source' & patterns' & Hin & Hmatch & Hab & Hout).
    exists source', patterns'. split; [by apply list_elem_of_further|]. split; [done|].
    erewrite bind_step by exact Hsource. done.
Qed.

(** Each entry built is a blocked source of the policy with its
    patterns. *)
Lemma blockedPatternsOf_entry RegExp_i mandate blockedPatterns source patterns :
  blockedPatternsOf RegExp_i mandate = Some blockedPatterns ->
  (source, patterns) ∈ blockedPatterns ->
  source ∈ CitationRequirements.blocked_sources (Requirements.citations (requirements mandate))
  /\ patternsOf RegExp_i source = Some patterns.
Proof.
  unfold blockedPatternsOf. intros Hbuilt%mapM_Some Hin.
  induction Hbuilt as [|src entry sources entries Hentry _ IH]; [by apply elem_of_nil in Hin|].
  apply elem_of_cons in Hin as [<-|Hin].
  - destruct (patternsOf RegExp_i src) as [ps|] eqn:Hps; [|done].
    injection Hentry as <- <-. split; [apply list_elem_of_here | done].
  - destruct (IH Hin) as [Hsrc Hps]. split; [by apply list_elem_of_further | done].
Qed.

End BlockedSourceFacts.

(** X26. Blocked sources are enforced to the end: when citations are
    required, the patterns of the blocked sources can be built and the
    last assistant response matches a pattern of a blocked source, the
    processor aborts whatever the length of the response and whether or
    not it cites anything; the abort names that source and is retryable
    while fewer than two retries were made, and from the second retry on
    it is final, with the unable-to-answer message.  When a pattern cannot
    be built, there is no processor: building it throws. *)
Theorem citation_blocked_source_aborts
    (RegExp_i : string -> option (string -> bool))
    (mandate : Mandate) (host : Host) (retryCount : Z)
    (messages : list Message) (lastAssistantMsg : Message)
    (Hrequired : CitationRequirements.required (Requirements.citations (requirements mandate))
                 = true) :
  match CitationProcessor.blockedPatternsOf RegExp_i mandate with
  | None => CitationProcessor.createCitationProcessor RegExp_i mandate = Throw "SyntaxError"
  | Some blockedPatterns =>
      findLast messages "assistant" = Some lastAssistantMsg ->
      CitationProcessor.blockedHit blockedPatterns (textOf lastAssistantMsg) = true ->
      exists hook source patterns,
        CitationProcessor.createCitationProcessor RegExp_i mandate = Return hook
        /\ source ∈ CitationRequirements.blocked_sources
                      (Requirements.citations (requirements mandate))
        /\ CitationProcessor.patternsOf RegExp_i source = Some patterns
        /\ existsb (fun test => test (textOf lastAssistantMsg)) patterns = true
        /\ abortsWith (hook host retryCount messages tt)
             (if retryCount <? 2
              then mkAbort (CitationProcessor.blockedMessage mandate source) true
              else mkAbort CitationProcessor.unableMessage false)
        /\ (host = Runtime -> outcome (hook host retryCount messages tt) = Aborted)
  end.
Proof.
  destruct (CitationProcessor.blockedPatternsOf RegExp_i mandate) as [blockedPatterns|] eqn:Hbuilt.
  - intros Hlast Hhit.
    destruct (checkBlocked_hit mandate blockedPatterns host retryCount _ Hhit)
      as (source & patterns & Hin & Hmatch & Hab & Hout).
    destruct (blockedPatternsOf_entry _ _ _ _ _ Hbuilt Hin) as [Hsource Hpatterns].
    exists (CitationProcessor.processOutputResult mandate blockedPatterns), source, patterns.
    split.
    { unfold CitationProcessor.createCitationProcessor. by rewrite Hrequired, Hbuilt. }
    split; [done|]. split; [done|]. split; [done|].
    unfold CitationProcessor.processOutputResult. rewrite Hlast. split.
    + by apply abortsWith_bind.
    + intros Hhost. by apply outcome_bind_aborted, Hout.
  - unfold CitationProcessor.createCitationProcessor. by rewrite Hrequired, Hbuilt.
Qed.

Lemma citation_blocked_source_aborts_witness :
  let cited := "Under the Housing Act 2004, s.213, see also reddit.com/r/legaladvice" in
  CitationProcessor.createCitationProcessor CitationProcessor.plainRegExp_i
    MoreSamples.blocksCpp
  = Throw "SyntaxError"
  /\ exists hook,
       CitationProcessor.createCitationProcessor CitationProcessor.plainRegExp_i Sample.tenant
       = Return hook
       /\ abortsWith (hook Runtime 2 [Sample.assistant cited] tt)
            (mkAbort
               "I'm unable to provide a response using only authoritative sources for this query."
               false)
       /\ outcome (hook Runtime 2 [Sample.assistant cited] tt) = Aborted.
Proof.
  intros cited. split.
  - exact (citation_blocked_source_aborts CitationProcessor.plainRegExp_i MoreSamples.blocksCpp
             Runtime 0 [] (Sample.assistant "") eq_refl).
  - destruct (citation_blocked_source_aborts CitationProcessor.plainRegExp_i Sample.tenant
                Runtime 2 [Sample.assistant cited] (Sample.assistant cited) eq_refl
                eq_refl eq_refl)
      as (hook & source & patterns & Hhook & _ & _ & _ & Hab & Hout).
    exists hook. split; [exact Hhook|]. split; [exact Hab | by apply Hout].
Defined.

(** * The output validator *)

Section OutputValidatorFacts.

Import OutputValidatorProcessor.

(** The loop calls [abort] once for each entry that is violated, until
    the host stops it. *)
Lemma validator_loop_run host (hit : ActionPattern -> bool) (entries : list ActionPattern) :
  let run := forEach entries (fun entry =>
               when (hit entry) (abort (S := unit) host (rephraseMessage (action entry)) false))
               tt in
  let found := List.map (fun entry => mkAbort (rephraseMessage (action entry)) false)
                 (List.filter hit entries) in
  aborts run = match host with Runtime => List.firstn 1 found | Harness => found end
  /\ (found = [] -> outcome run = Returned tt).
Proof.
  induction entries as [|entry entries IH]; simpl; [by destruct host|].
  destruct IH as [IHab IHout]. rewrite aborts_bind_unit.
  destruct (hit entry) eqn:Hhit; simpl.
  - split; [|done]. destruct host; simpl; [done|]. by rewrite IHab.
  - rewrite IHab. split; [done|]. intros Hnone. by apply IHout.
Qed.

End OutputValidatorFacts.

(** X27. What the output validator rejects: with a last assistant message
    present, the validator calls abort once for each registered pattern
    of a prohibited action that matches the response, in registration
    order (under the runtime the first call ends it); every such abort is
    final, none asks for a retry; and when no such pattern matches, or the
    mandate prohibits no action, the messages are returned untouched. *)
Theorem outputValidator_aborts_on_violations
    (registered : list (string * list OutputValidatorProcessor.ActionPattern))
    (mandate : Mandate) (host : Host) (messages : list Message) (lastAssistantMsg : Message)
    (Hlast : findLast messages "assistant" = Some lastAssistantMsg) :
  let r := OutputValidatorProcessor.processOutputResult registered mandate host messages tt in
  let found :=
    List.map (fun entry =>
                mkAbort (OutputValidatorProcessor.rephraseMessage
                           (OutputValidatorProcessor.action entry)) false)
      (OutputValidatorProcessor.violations registered mandate (textOf lastAssistantMsg)) in
  aborts r = match host with Runtime => List.firstn 1 found | Harness => found end
  /\ (found = [] -> passes r messages)
  /\ (Prohibitions.actions (prohibitions mandate) = [] -> found = []).
Proof.
  intros r found. subst r found.
  unfold OutputValidatorProcessor.processOutputResult, OutputValidatorProcessor.violations.
  rewrite Hlast. cbv zeta. rewrite aborts_bind_unit.
  destruct (Prohibitions.actions (prohibitions mandate)) as [|a actions] eqn:Hactions.
  - assert (Hnone : List.filter
                      (fun entry : OutputValidatorProcessor.ActionPattern =>
                         bool_decide (OutputValidatorProcessor.action entry ∈ [])
                         && OutputValidatorProcessor.pattern entry (textOf lastAssistantMsg))
                      (OutputValidatorProcessor.allPatternsOf registered) = []).
    { induction (OutputValidatorProcessor.allPatternsOf registered) as [|e es IH]; [done|].
      cbn [List.filter].
      rewrite bool_decide_eq_false_2 by (by intros Hin%elem_of_nil). exact IH. }
    rewrite Hnone. simpl. by destruct host.
  - cbn [List.length Nat.ltb Nat.leb when].
    destruct (validator_loop_run host
                (fun entry => bool_decide (OutputValidatorProcessor.action entry ∈ a :: actions)
                              && OutputValidatorProcessor.pattern entry (textOf lastAssistantMsg))
                (OutputValidatorProcessor.allPatternsOf registered)) as [Hab Hout].
    rewrite Hab. split; [|split; [|done]].
    + destruct (outcome _); simpl; by rewrite app_nil_r.
    + intros Hnone. specialize (Hout Hnone). unfold passes.
      rewrite (outcome_bind_unit _ _ tt) by done.
      rewrite aborts_bind_unit, Hab, Hnone, Hout. simpl. by destruct host.
Qed.

Lemma outputValidator_aborts_on_violations_witness :
  aborts (OutputValidatorProcessor.processOutputResult MoreSamples.actionPatterns
            Sample.tenant Runtime
            [Sample.assistant "My legal advice is to wait; you will win."] tt)
  = [mkAbort (OutputValidatorProcessor.rephraseMessage "provide_legal_advice") false].
Proof.
  destruct (outputValidator_aborts_on_violations MoreSamples.actionPatterns Sample.tenant
              Runtime [Sample.assistant "My legal advice is to wait; you will win."]
              _ eq_refl) as [Hab _].
  exact Hab.
Defined.

(** * The disclaimer processor *)

Section DisclaimerFacts.

Import DisclaimerProcessor.
Variable RegExp_i : string -> option (string -> bool).

Lemma prefix_append sub post : String.prefix sub (sub ++ post) = true.
Proof.
  induction sub as [|c sub IH]; [by destruct post|].
  change (String c sub ++ post) with (String c (sub ++ post)). simpl.
  by destruct (Ascii.ascii_dec c c).
Qed.

Lemma includes_intro pre sub post : JS.includes (pre ++ sub ++ post) sub = true.
Proof.
  induction pre as [|c pre IH].
  - change ("" ++ sub ++ post) with (sub ++ post).
    destruct (sub ++ post) eqn:Heq.
    + change (JS.includes "" sub) with (String.prefix sub "" || false).
      by rewrite <- Heq, prefix_append.
    + change (JS.includes (String a s) sub)
        with (String.prefix sub (String a s) || JS.includes s sub).
      by rewrite <- Heq, prefix_append.
  - change (String c pre ++ sub ++ post) with (String c (pre ++ sub ++ post)).
    change (JS.includes (String c (pre ++ sub ++ post)) sub)
      with (String.prefix sub (String c (pre ++ sub ++ post))
            || JS.includes (pre ++ sub ++ post) sub).
    by rewrite IH, orb_true_r.
Qed.

Lemma append_empty_r (s : string) : s ++ "" = s.
Proof.
  induction s as [|c s IH]; [done|]. change (String c s ++ "") with (String c (s ++ "")).
  by rewrite IH.
Qed.

Lemma includes_refl s : JS.includes s s = true.
Proof.
  pose proof (includes_intro "" s "") as H.
  change ("" ++ s ++ "") with (s ++ "") in H. by rewrite append_empty_r in H.
Qed.

Lemma includes_trans t s sub :
  JS.includes t s = true -> JS.includes s sub = true -> JS.includes t sub = true.
Proof.
  intros (p1 & q1 & ->)%includes_split (p2 & q2 & ->)%includes_split.
  rewrite !append_assoc, <- (append_assoc p1 p2). apply includes_intro.
Qed.

Lemma includes_append_r s post sub :
  JS.includes s sub = true -> JS.includes (s ++ post) sub = true.
Proof.
  apply includes_trans. pose proof (includes_intro "" s post) as H. exact H.
Qed.

Lemma includes_append_l pre s sub :
  JS.includes s sub = true -> JS.includes (pre ++ s) sub = true.
Proof.
  apply includes_trans. pose proof (includes_intro pre s "") as H.
  by rewrite append_empty_r in H.
Qed.

Lemma shouldTrigger_total disclaimer text :
  accepted RegExp_i disclaimer ->
  exists triggered,
    shouldTrigger RegExp_i disclaimer text = Return triggered
    /\ (DisclaimerRule.trigger disclaimer = always -> triggered = true).
Proof.
  unfold accepted, shouldTrigger. intros Hok.
  destruct (DisclaimerRule.trigger disclaimer); try (by eexists).
  destruct (DisclaimerRule.custom_pattern disclaimer) as [src|]; [|by eexists].
  destruct (String.eqb src "") eqn:Hempty; [by eexists|].
  apply String.eqb_neq in Hempty.
  destruct (Hok src eq_refl eq_refl Hempty) as [test ->]. by eexists.
Qed.

(** A pass of the loop keeps the text it was given, and leaves the text
    of an [always] disclaimer in it. *)
Lemma inject_keeps text disclaimer :
  accepted RegExp_i disclaimer ->
  exists text',
    inject RegExp_i text disclaimer = Return text'
    /\ JS.includes text' text = true
    /\ (DisclaimerRule.trigger disclaimer = always ->
        JS.includes text' (DisclaimerRule.text disclaimer) = true).
Proof.
  intros Hok. unfold inject.
  destruct (shouldTrigger_total disclaimer text Hok) as (triggered & -> & Htriggered).
  eexists. split; [reflexivity|].
  destruct (JS.includes text (DisclaimerRule.text disclaimer)) eqn:Hin.
  { rewrite andb_false_r. split; [apply includes_refl | done]. }
  rewrite andb_true_r.
  assert (Hstart : forall rest,
            JS.includes ("_" ++ DisclaimerRule.text disclaimer ++ rest)
              (DisclaimerRule.text disclaimer) = true).
  { intros rest. apply includes_intro. }
  assert (Hend : forall t,
            JS.includes (t ++ lineFeed ++ lineFeed ++ "---" ++ lineFeed ++ "_"
                           ++ DisclaimerRule.text disclaimer ++ "_")
              (DisclaimerRule.text disclaimer) = true).
  { intros t.
    pose proof (includes_intro (t ++ lineFeed ++ lineFeed ++ "---" ++ lineFeed ++ "_")
                  (DisclaimerRule.text disclaimer) "_") as H.
    by rewrite !append_assoc in H. }
  assert (Hall : forall b : bool,
    JS.includes
      (if b then
         match DisclaimerRule.placement disclaimer with
         | at_end | at_both =>
             match DisclaimerRule.placement disclaimer with
             | at_start | at_both =>
                 "_" ++ DisclaimerRule.text disclaimer ++ "_" ++ lineFeed ++ lineFeed ++ "---"
                   ++ lineFeed ++ lineFeed ++ text
             | at_end => text
             end ++ lineFeed ++ lineFeed ++ "---" ++ lineFeed ++ "_"
               ++ DisclaimerRule.text disclaimer ++ "_"
         | at_start =>
             match DisclaimerRule.placement disclaimer with
             | at_start | at_both =>
                 "_" ++ DisclaimerRule.text disclaimer ++ "_" ++ lineFeed ++ lineFeed ++ "---"
                   ++ lineFeed ++ lineFeed ++ text
             | at_end => text
             end
         end
       else text) text = true).
  { intros [|]; [|apply includes_refl].
    destruct (DisclaimerRule.placement disclaimer).
    - do 8 apply includes_append_l. apply includes_refl.
    - apply includes_append_r, includes_refl.
    - apply includes_append_r. do 8 apply includes_append_l. apply includes_refl. }
  split; [apply Hall|].
  intros Halways. rewrite (Htriggered Halways).
  destruct (DisclaimerRule.placement disclaimer).
  - apply Hstart.
  - apply Hend.
  - apply Hend.
Qed.

Lemma injectAll_keeps disclaimers : forall text,
  (forall d, d ∈ disclaimers -> accepted RegExp_i d) ->
  exists text',
    injectAll RegExp_i disclaimers text = Return text'
    /\ JS.includes text' text = true
    /\ forall d, d ∈ disclaimers -> DisclaimerRule.trigger d = always ->
         JS.includes text' (DisclaimerRule.text d) = true.
Proof.
  induction disclaimers as [|d0 disclaimers IH]; intros text Hok; simpl.
  - exists text. split; [done|]. split; [apply includes_refl | by intros ? Hd%elem_of_nil].
  - destruct (inject_keeps text d0 (Hok d0 (list_elem_of_here _ _)))
      as (text0 & -> & Hkeep0 & Halways0).
    destruct (IH text0) as (text' & Hrun & Hkeep & Halways).
    { intros d Hd. by apply Hok, list_elem_of_further. }
    exists text'. split; [done|]. split; [by eapply includes_trans|].
    intros d [->|Hd]%elem_of_cons Htrigger; [|by apply Halways].
    eapply includes_trans; [exact Hkeep | by apply Halways0].
Qed.

(** A custom pattern that the engine rejects makes its pass throw. *)
Lemma inject_rejected text disclaimer src :
  DisclaimerRule.trigger disclaimer = custom ->
  DisclaimerRule.custom_pattern disclaimer = Some src ->
  src <> "" ->
  RegExp_i src = None ->
  inject RegExp_i text disclaimer = Throw "SyntaxError".
Proof.
  intros Htrigger Hpattern Hsrc Hnone. unfold inject, shouldTrigger.
  rewrite Htrigger, Hpattern, (proj2 (String.eqb_neq _ _) Hsrc), Hnone. done.
Qed.

Lemma injectAll_rejected pre disclaimer rest src : forall text,
  (forall d, d ∈ pre -> accepted RegExp_i d) ->
  DisclaimerRule.trigger disclaimer = custom ->
  DisclaimerRule.custom_pattern disclaimer = Some src ->
  src <> "" ->
  RegExp_i src = None ->
  injectAll RegExp_i (pre ++ disclaimer :: rest) text = Throw "SyntaxError".
Proof.
  induction pre as [|d0 pre IH]; intros text Hok Htrigger Hpattern Hsrc Hnone; simpl.
  - by rewrite (inject_rejected text disclaimer src).
  - destruct (inject_keeps text d0 (Hok d0 (list_elem_of_here _ _))) as (text0 & -> & _).
    apply IH; try done. intros d Hd. by apply Hok, list_elem_of_further.
Qed.

Lemma requiresReview_total text required_before :
  (forall trigger, trigger ∈ required_before -> trigger ∉ SkillPackRegistry.inherited) ->
  exists requires, requiresReview text required_before = Return requires.
Proof.
  induction required_before as [|trigger rest IH]; intros Hclean; simpl; [by eexists|].
  assert (Hrest : exists requires, requiresReview text rest = Return requires).
  { apply IH. intros t Ht. by apply Hclean, list_elem_of_further. }
  unfold reviewTriggerPatterns.
  destruct (String.eqb trigger "finalize_document");
    [destruct (RegExp.test _ text); [by eexists | done]|].
  destruct (String.eqb trigger "send_correspondence");
    [destruct (RegExp.test _ text); [by eexists | done]|].
  destruct (String.eqb trigger "provide_deadline");
    [destruct (RegExp.test _ text); [by eexists | done]|].
  rewrite bool_decide_eq_false_2; [done|]. apply Hclean, list_elem_of_here.
Qed.

End DisclaimerFacts.

(** X28. The disclaimer processor only adds: when no entry of
    required_before names a property every object inherits and the engine
    accepts the custom pattern of every disclaimer that uses one, the hook
    returns the messages with nothing but the content of the last
    assistant message replaced, by a text that still contains the text of
    that message and contains the text of every disclaimer whose trigger
    is always.  The first disclaimer with a custom pattern that the engine
    rejects makes the hook throw. *)
Theorem disclaimer_only_adds
    (RegExp_i : string -> option (string -> bool)) (mandate : Mandate)
    (messages : list Message) (lastAssistantMsg : Message)
    (Hlast : findLast messages "assistant" = Some lastAssistantMsg)
    (Hknown : forall trigger,
        trigger ∈ HumanReviewConfig.required_before
                    (Requirements.human_review (requirements mandate)) ->
        trigger ∉ SkillPackRegistry.inherited) :
  ((forall d src,
      d ∈ Requirements.disclaimers (requirements mandate) ->
      DisclaimerRule.trigger d = custom ->
      DisclaimerRule.custom_pattern d = Some src ->
      src <> "" ->
      is_Some (RegExp_i src)) ->
   exists idx text,
     findLastIndex messages "assistant" = Some idx
     /\ DisclaimerProcessor.processOutputResult RegExp_i mandate messages
        = Return (<[idx := LimitsProcessor.withContent lastAssistantMsg text]> messages)
     /\ JS.includes text (textOf lastAssistantMsg) = true
     /\ forall d, d ∈ Requirements.disclaimers (requirements mandate) ->
          DisclaimerRule.trigger d = always ->
          JS.includes text (DisclaimerRule.text d) = true)
  /\ (forall pre d rest src,
        Requirements.disclaimers (requirements mandate) = (pre ++ d :: rest)%list ->
        (forall d', d' ∈ pre -> DisclaimerProcessor.accepted RegExp_i d') ->
        DisclaimerRule.trigger d = custom ->
        DisclaimerRule.custom_pattern d = Some src ->
        src <> "" ->
        RegExp_i src = None ->
        DisclaimerProcessor.processOutputResult RegExp_i mandate messages
        = Throw "SyntaxError").
Proof.
  destruct (findLast_index _ _ _ Hlast) as (idx & Hidx & Hmsg).
  unfold DisclaimerProcessor.processOutputResult. rewrite Hidx, Hmsg.
  unfold DisclaimerProcessor.finalText. split.
  - intros Hpatterns.
    destruct (injectAll_keeps RegExp_i (Requirements.disclaimers (requirements mandate))
                (textOf lastAssistantMsg)) as (text' & -> & Hkeep & Halways).
    { intros d Hd src. by apply Hpatterns. }
    destruct (0 <? List.length _)%nat.
    + destruct (requiresReview_total text' _ Hknown) as [requires ->].
      destruct (requires && negb _).
      * eexists idx, _. split; [done|]. split; [reflexivity|]. split.
        -- by apply includes_append_r.
        -- intros d Hd Htrigger. by apply includes_append_r, Halways.
      * eexists idx, _. split; [done|]. split; [reflexivity|]. split; done.
    + eexists idx, _. split; [done|]. split; [reflexivity|]. split; done.
  - intros pre d rest src -> Hpre Htrigger Hpattern Hsrc Hnone.
    by rewrite (injectAll_rejected RegExp_i pre d rest src _ Hpre Htrigger Hpattern Hsrc Hnone).
Qed.

Lemma disclaimer_only_adds_witness :
  (exists idx text,
     findLastIndex [Sample.user "q"; Sample.assistant "The statute gives you 14 days."]
       "assistant" = Some idx
     /\ DisclaimerProcessor.processOutputResult CitationProcessor.plainRegExp_i
          MoreSamples.disclaiming
          [Sample.user "q"; Sample.assistant "The statute gives you 14 days."]
        = Return (<[idx := LimitsProcessor.withContent
                             (Sample.assistant "The statute gives you 14 days.") text]>
                    [Sample.user "q"; Sample.assistant "The statute gives you 14 days."])
     /\ JS.includes text "The statute gives you 14 days." = true
     /\ JS.includes text "This is not legal advice." = true)
  /\ DisclaimerProcessor.processOutputResult CitationProcessor.plainRegExp_i
       MoreSamples.unbalanced
       [Sample.user "q"; Sample.assistant "The statute gives you 14 days."]
     = Throw "SyntaxError".
Proof.
  assert (Hknown : forall m, HumanReviewConfig.required_before
                               (Requirements.human_review (requirements m))
                             = HumanReviewConfig.required_before
                                 (Requirements.human_review (requirements Sample.tenant)) ->
            forall trigger,
              trigger ∈ HumanReviewConfig.required_before
                          (Requirements.human_review (requirements m)) ->
              trigger ∉ SkillPackRegistry.inherited).
  { intros m -> trigger Htrigger. vm_compute in Htrigger.
    apply list_elem_of_singleton in Htrigger. subst trigger.
    intros Hin. vm_compute in Hin.
    repeat (apply elem_of_cons in Hin as [Hin|Hin]; [discriminate Hin|]).
    by apply elem_of_nil in Hin. }
  split.
  - destruct (disclaimer_only_adds CitationProcessor.plainRegExp_i MoreSamples.disclaiming
                [Sample.user "q"; Sample.assistant "The statute gives you 14 days."]
                (Sample.assistant "The statute gives you 14 days.") eq_refl
                (Hknown _ eq_refl)) as [Hadds _].
    destruct Hadds as (idx & text & Hidx & Hrun & Hkeep & Halways).
    { intros d src Hd Htrigger. vm_compute in Hd.
      repeat (apply elem_of_cons in Hd as [->|Hd]; [discriminate Htrigger|]).
      by apply elem_of_nil in Hd. }
    exists idx, text. split; [done|]. split; [done|]. split; [done|].
    apply (Halways {| DisclaimerRule.trigger := always;
                      DisclaimerRule.text := "This is not legal advice.";
                      DisclaimerRule.placement := at_both;
                      DisclaimerRule.custom_pattern := None |}); [|done].
    apply list_elem_of_here.
  - destruct (disclaimer_only_adds CitationProcessor.plainRegExp_i MoreSamples.unbalanced
                [Sample.user "q"; Sample.assistant "The statute gives you 14 days."]
                (Sample.assistant "The statute gives you 14 days.") eq_refl
                (Hknown _ eq_refl)) as [_ Hthrows].
    apply (Hthrows [] {| DisclaimerRule.trigger := custom;
                         DisclaimerRule.text := "Check the statute yourself.";
                         DisclaimerRule.placement := at_end;
                         DisclaimerRule.custom_pattern := Some "(" |} [] "("); try done.
    by intros d' Hd'%elem_of_nil.
Defined.

(** * The tool gate under the runtime *)

Section GateSafety.

Import ToolGateProcessor.

(** A run that ended by returning or by an abort, not by an exception. *)
Lemma ended_bind {A B} (m : Hook (list AuditRecord) A) (f : A -> Hook (list AuditRecord) B) s :
  (outcome (m s) = Aborted \/ exists a, outcome (m s) = Returned a) ->
  (forall a s', outcome (f a s') = Aborted \/ exists b, outcome (f a s') = Returned b) ->
  outcome (bind m f s) = Aborted \/ exists b, outcome (bind m f s) = Returned b.
Proof.
  intros [Hm|[a Hm]] Hf; unfold bind; rewrite Hm; [by left|]. apply Hf.
Qed.

Lemma ended_when (b : bool) (m : Hook (list AuditRecord) unit) s :
  (outcome (m s) = Aborted \/ exists a, outcome (m s) = Returned a) ->
  outcome (when b m s) = Aborted \/ exists a, outcome (when b m s) = Returned a.
Proof. destruct b; [done|]. intros _. right. by exists tt. Qed.

Lemma ended_forEach {A} (xs : list A) (body : A -> Hook (list AuditRecord) unit) :
  (forall x s, outcome (body x s) = Aborted \/ exists a, outcome (body x s) = Returned a) ->
  forall s, outcome (forEach xs body s) = Aborted
            \/ exists a, outcome (forEach xs body s) = Returned a.
Proof.
  intros Hbody. induction xs as [|x xs IH]; intros s; simpl; [right; by exists tt|].
  apply ended_bind; [apply Hbody | intros _ s'; apply IH].
Qed.

Lemma ended_blocked entry reason retry s :
  outcome ((log entry ;; abort Runtime reason retry) s) = Aborted.
Proof. reflexivity. Qed.

Lemma checkCall_ended mandate retryCount toolCall s :
  outcome (checkCall mandate Runtime retryCount toolCall s) = Aborted
  \/ exists a, outcome (checkCall mandate Runtime retryCount toolCall s) = Returned a.
Proof.
  unfold checkCall.
  destruct (orElse (toolName toolCall) (altName toolCall)) as [n|].
  - apply ended_bind.
    { apply ended_when. left. by destruct (retryCount <? 2). }
    intros _ s1. apply ended_bind.
    { apply ended_when. by left. }
    intros _ s2. apply ended_bind.
    { destruct (List.find _ _); [|right; by exists tt]. apply ended_when. by left. }
    intros _ s3. apply ended_bind.
    { apply ended_forEach. intros category s'.
      destruct (List.find _ _); [|right; by exists tt]. apply ended_when. by left. }
    intros _ s4. right. by exists tt.
  - left. cbn [negb when]. apply outcome_bind_aborted. by destruct (retryCount <? 2).
Qed.

End GateSafety.

(** X29. The tool gate does not crash under the runtime: for a mandate
    whose prohibited data categories are not named like a property every
    object inherits, the gate ends every batch by returning the messages
    or by an abort; the call of startsWith on the missing name of a
    nameless tool call is never reached, because the whitelist check
    aborts first. *)
Theorem toolGate_runtime_never_throws
    (mandate : Mandate) (retryCount : Z) (messages : list Message)
    (toolCalls : option (list ToolCall)) (before : list ToolGateProcessor.AuditRecord)
    (Hcategories : forall category,
        category ∈ Prohibitions.data (prohibitions mandate) ->
        category ∉ SkillPackRegistry.inherited) :
  let r := ToolGateProcessor.processOutputStep mandate Runtime retryCount messages toolCalls
             before in
  outcome r = Aborted \/ outcome r = Returned messages.
Proof.
  intros r. subst r. unfold ToolGateProcessor.processOutputStep.
  destruct toolCalls as [[|call calls]|]; [by right | | by right].
  destruct (MandateLimits.max_tool_calls_per_turn (limits mandate)
              <? Z.of_nat (List.length (call :: calls))); cbn [when].
  { left. by apply outcome_bind_aborted. }
  erewrite bind_step by reflexivity.
  destruct (ended_forEach (call :: calls) (ToolGateProcessor.checkCall mandate Runtime retryCount)
              (fun x s => checkCall_ended mandate retryCount x s) before) as [Hab|[[] Hret]].
  - left. by apply outcome_bind_aborted.
  - right. unfold bind. by rewrite Hret.
Qed.

Lemma toolGate_runtime_never_throws_witness :
  let r := ToolGateProcessor.processOutputStep Sample.tenant Runtime 0 []
             (Some [mkToolCall None None None]) [] in
  outcome r = Aborted \/ outcome r = Returned [].
Proof.
  apply (toolGate_runtime_never_throws Sample.tenant 0 [] (Some [mkToolCall None None None]) []).
  intros category Hc. vm_compute in Hc. apply list_elem_of_singleton in Hc. subst category.
  intros Hin. vm_compute in Hin.
  repeat (apply elem_of_cons in Hin as [Hin|Hin]; [discriminate Hin|]).
  by apply elem_of_nil in Hin.
Defined.

(** * What the data-access processor checks *)

Section ExtensionShape.

Import DataAccessProcessor.













End ExtensionShape.


